(** * Pipeline-manager backend (backend/server.js): data access and aggregation

    A shallow embedding of the Express/Mongoose server: the four Mongoose
    schemas with their validators, the route handlers and the sample-data
    seeder, written in a state-and-exception monad over the server's world
    (the document store, the request's session, the clock, the console).

    Conventions of the model:
    - an absent, [undefined] or [null] JavaScript value is [None];
    - an [ObjectId] is a natural number drawn from a counter;
    - a [Date] is its time value, milliseconds since the epoch, as [Z];
    - [progress] is an integer ([Z]); JSON numbers with a fraction are not
      modelled;
    - a round trip to MongoDB can fail: the world carries a schedule of
      outcomes, one entry per round trip, [Some detail] for a failure;
    - [await]ed operations run in program order; [Promise.all] runs every
      member in list order and then rejects with the first failure.  The
      interleaving of reads that are pending together is not modelled
      (reads do not change the store). *)

From Stdlib Require Import ZArith List String Ascii Bool Lia Arith.
From Stdlib Require Import Sorting.Sorted Sorting.Permutation.
Import ListNotations.

Local Open Scope string_scope.
Local Open Scope Z_scope.

(** ** Values *)

Definition ObjectId := nat.

Definition opt_eqb {A} (eqb : A -> A -> bool) (x y : option A) : bool :=
  match x, y with
  | Some a, Some b => eqb a b
  | None, None => true
  | _, _ => false
  end.

(** [Date] values.  [new Date(x)] yields an Invalid Date when [x] does not
    parse or lies outside the time-value range of ECMA-262 (8.64e15 ms on
    either side of the epoch). *)
Inductive JsDate :=
| NoDate                 (* null / undefined *)
| InvalidDate
| DateAt (t : Z).

Inductive DateArg :=
| Unparseable
| ParsesTo (t : Z).

Definition maxTimeValue : Z := 8640000000000000.

Definition new_Date (a : DateArg) : JsDate :=
  match a with
  | Unparseable => InvalidDate
  | ParsesTo t => if Z.abs t <=? maxTimeValue then DateAt t else InvalidDate
  end.

Inductive Error :=
| StorageError (detail : string)        (* driver / network failure *)
| ValidationError (path : string)       (* Mongoose validator or cast *)
| DuplicateKeyError (path : string)     (* unique index, E11000 *)
| TypeError (detail : string)
| RangeError (detail : string).

(** ** Documents (the four schemas) *)

Module User.
Record t := {
  _id : ObjectId;
  githubId : option string;
  username : option string;
  name : option string;
  email : option string;
  avatar : option string;
  createdAt : Z
}.
End User.

Module Pipeline.
Record t := {
  _id : ObjectId;
  name : option string;
  description : option string;
  steps : list string;
  userId : option ObjectId;
  createdAt : Z
}.
End Pipeline.

Module Customer.
Record t := {
  _id : ObjectId;
  name : option string;
  email : option string;
  phone : option string;
  userId : option ObjectId;
  createdAt : Z
}.
End Customer.

Module Job.
Record t := {
  _id : ObjectId;
  title : option string;
  customerId : option ObjectId;
  pipelineId : option ObjectId;
  currentStep : option string;
  status : string;
  dueDate : JsDate;
  progress : Z;
  userId : option ObjectId;
  createdAt : Z
}.
End Job.

(** ** Queries, effects and the world *)

Inductive Collection := CUsers | CPipelines | CCustomers | CJobs.

(** A Mongo filter document: every field that is [Some] must match. *)
Record Filter := {
  by_id : option (list ObjectId);          (* _id, or _id: {$in: ...} *)
  by_username : option string;
  by_userId : option ObjectId;
  by_customerId : option ObjectId;
  by_pipelineId : option ObjectId;
  by_status : option string;
  by_dueDate : option (Z * Z)              (* {$gte: lo, $lte: hi} *)
}.

(** What the server did, in order: the queries it sent, the documents it
    wrote, the failures the store layer raised, the session writes. *)
Inductive Event :=
| EvRead (c : Collection) (f : Filter)
| EvInsert (c : Collection) (id : ObjectId)
| EvFailure (e : Error)
| EvSessionSet (u : ObjectId)
| EvSessionDestroy.

Inductive LogArg := LogError (e : Error) | LogId (i : ObjectId).

Inductive Stream := Stdout | Stderr.

Record ConsoleLine := { stream : Stream; text : string; arg : LogArg }.

Record World := {
  Users : list User.t;
  Pipelines : list Pipeline.t;
  Customers : list Customer.t;
  Jobs : list Job.t;
  nextId : ObjectId;                    (* ObjectId generator *)
  clock : Z;                            (* Date.now() *)
  ticks : list Z;                       (* time elapsing between clock reads *)
  faults : list (option string);        (* outcome of the coming round trips *)
  session : option ObjectId;            (* req.session.userId *)
  console : list ConsoleLine;
  trace : list Event
}.

Inductive Outcome (A : Type) :=
| Ok (a : A)
| Throw (e : Error).
Arguments Ok {A} a.
Arguments Throw {A} e.

Definition M (A : Type) : Type := World -> Outcome A * World.

Definition ret {A} (a : A) : M A := fun w => (Ok a, w).

Definition throw {A} (e : Error) : M A := fun w => (Throw e, w).

Definition bind {A B} (m : M A) (k : A -> M B) : M B :=
  fun w =>
    match m w with
    | (Ok a, w') => k a w'
    | (Throw e, w') => (Throw e, w')
    end.

Notation "x <- c ;; k" := (bind c (fun x => k))
  (at level 61, c at next level, right associativity).
Notation "c ;;; k" := (bind c (fun _ => k))
  (at level 61, right associativity).

(** [try { body } catch (error) { handler }]: the effects of [body] up to
    the throw stay. *)
Definition try_catch {A} (body : M A) (handler : Error -> M A) : M A :=
  fun w =>
    match body w with
    | (Ok a, w') => (Ok a, w')
    | (Throw e, w') => handler e w'
    end.

(** An [await]ed list of promises that are all already running: every member
    runs; the result is the list of values, or the first failure. *)
Fixpoint Promise_all {A} (ms : list (M A)) : M (list A) :=
  fun w =>
    match ms with
    | [] => (Ok [], w)
    | m :: rest =>
        let '(o, w1) := m w in
        let '(os, w2) := Promise_all rest w1 in
        match o, os with
        | Ok a, Ok l => (Ok (a :: l), w2)
        | Throw e, _ => (Throw e, w2)
        | Ok _, Throw e => (Throw e, w2)
        end
    end.

Definition emit (ev : Event) : M unit :=
  fun w =>
    (Ok tt,
     {| Users := Users w; Pipelines := Pipelines w; Customers := Customers w;
        Jobs := Jobs w; nextId := nextId w; clock := clock w; ticks := ticks w;
        faults := faults w; session := session w; console := console w;
        trace := trace w ++ [ev] |}).

(** A failure raised by the store layer (driver, validator, index). *)
Definition fail_store {A} (e : Error) : M A :=
  emit (EvFailure e) ;;; throw e.

(** One round trip to MongoDB: takes the next scheduled outcome. *)
Definition round_trip : M unit :=
  fun w =>
    match faults w with
    | Some detail :: rest =>
        fail_store (StorageError detail)
          {| Users := Users w; Pipelines := Pipelines w;
             Customers := Customers w; Jobs := Jobs w; nextId := nextId w;
             clock := clock w; ticks := ticks w; faults := rest;
             session := session w; console := console w; trace := trace w |}
    | None :: rest =>
        (Ok tt,
         {| Users := Users w; Pipelines := Pipelines w;
            Customers := Customers w; Jobs := Jobs w; nextId := nextId w;
            clock := clock w; ticks := ticks w; faults := rest;
            session := session w; console := console w; trace := trace w |})
    | [] => (Ok tt, w)
    end.

(** [Date.now()]: the clock is read and time moves on. *)
Definition Date_now : M Z :=
  fun w =>
    (Ok (clock w),
     {| Users := Users w; Pipelines := Pipelines w; Customers := Customers w;
        Jobs := Jobs w; nextId := nextId w;
        clock := clock w + Z.max 0 (hd 0 (ticks w)); ticks := tl (ticks w);
        faults := faults w; session := session w; console := console w;
        trace := trace w |}).

(** A fresh [ObjectId], generated when a document is constructed. *)
Definition new_ObjectId : M ObjectId :=
  fun w =>
    (Ok (nextId w),
     {| Users := Users w; Pipelines := Pipelines w; Customers := Customers w;
        Jobs := Jobs w; nextId := S (nextId w); clock := clock w;
        ticks := ticks w; faults := faults w; session := session w;
        console := console w; trace := trace w |}).

Definition console_write (l : ConsoleLine) : M unit :=
  fun w =>
    (Ok tt,
     {| Users := Users w; Pipelines := Pipelines w; Customers := Customers w;
        Jobs := Jobs w; nextId := nextId w; clock := clock w; ticks := ticks w;
        faults := faults w; session := session w; console := console w ++ [l];
        trace := trace w |}).

Definition console_error (msg : string) (e : Error) : M unit :=
  console_write {| stream := Stderr; text := msg; arg := LogError e |}.

Definition console_log (msg : string) (i : ObjectId) : M unit :=
  console_write {| stream := Stdout; text := msg; arg := LogId i |}.

Definition get_session : M (option ObjectId) := fun w => (Ok (session w), w).

Definition set_session (s : option ObjectId) : World -> World :=
  fun w =>
    {| Users := Users w; Pipelines := Pipelines w; Customers := Customers w;
       Jobs := Jobs w; nextId := nextId w; clock := clock w; ticks := ticks w;
       faults := faults w; session := s; console := console w;
       trace := trace w |}.

(** [req.session.userId = id] *)
Definition session_assign (u : ObjectId) : M unit :=
  emit (EvSessionSet u) ;;; (fun w => (Ok tt, set_session (Some u) w)).

(** ** The store: matching, reading, validating, inserting *)

Definition test {A} (f : option A) (p : A -> bool) : bool :=
  match f with
  | None => true
  | Some a => p a
  end.

Definition id_is (i : ObjectId) (o : option ObjectId) : bool :=
  opt_eqb Nat.eqb o (Some i).

(** Only the fields a schema declares are interpreted on its collection. *)
Definition User_matches (f : Filter) (u : User.t) : bool :=
  test (by_id f) (existsb (Nat.eqb (User._id u)))
  && test (by_username f) (fun n => opt_eqb String.eqb (User.username u) (Some n)).

Definition Pipeline_matches (f : Filter) (p : Pipeline.t) : bool :=
  test (by_id f) (existsb (Nat.eqb (Pipeline._id p)))
  && test (by_userId f) (fun u => id_is u (Pipeline.userId p)).

Definition Customer_matches (f : Filter) (c : Customer.t) : bool :=
  test (by_id f) (existsb (Nat.eqb (Customer._id c)))
  && test (by_userId f) (fun u => id_is u (Customer.userId c)).

Definition due_within (range : Z * Z) (d : JsDate) : bool :=
  match d with
  | DateAt t => (fst range <=? t) && (t <=? snd range)
  | _ => false
  end.

Definition Job_matches (f : Filter) (j : Job.t) : bool :=
  test (by_id f) (existsb (Nat.eqb (Job._id j)))
  && test (by_userId f) (fun u => id_is u (Job.userId j))
  && test (by_customerId f) (fun c => id_is c (Job.customerId j))
  && test (by_pipelineId f) (fun p => id_is p (Job.pipelineId j))
  && test (by_status f) (String.eqb (Job.status j))
  && test (by_dueDate f) (fun r => due_within r (Job.dueDate j)).

Definition read {A} (f : World -> A) : M A := fun w => (Ok (f w), w).

(** A read query: one round trip, answered from the store as it stands. *)
Definition query {A} (c : Collection) (f : Filter) (answer : World -> A) : M A :=
  emit (EvRead c f) ;;; round_trip ;;; read answer.

Definition User_findOne (f : Filter) : M (option User.t) :=
  query CUsers f (fun w => find (User_matches f) (Users w)).

Definition User_findById (i : option ObjectId) : M (option User.t) :=
  let f := {| by_id := option_map (fun x => [x]) i; by_username := None;
              by_userId := None; by_customerId := None; by_pipelineId := None;
              by_status := None; by_dueDate := None |} in
  query CUsers f
        (fun w => match i with
                  | Some _ => find (User_matches f) (Users w)
                  | None => None
                  end).

Definition Pipeline_find (f : Filter) : M (list Pipeline.t) :=
  query CPipelines f (fun w => filter (Pipeline_matches f) (Pipelines w)).

Definition Pipeline_countDocuments (f : Filter) : M nat :=
  query CPipelines f (fun w => List.length (filter (Pipeline_matches f) (Pipelines w))).

Definition Customer_find (f : Filter) : M (list Customer.t) :=
  query CCustomers f (fun w => filter (Customer_matches f) (Customers w)).

Definition Customer_countDocuments (f : Filter) : M nat :=
  query CCustomers f (fun w => List.length (filter (Customer_matches f) (Customers w))).

Definition Job_countDocuments (f : Filter) : M nat :=
  query CJobs f (fun w => List.length (filter (Job_matches f) (Jobs w))).

(** [.sort({ createdAt: -1 })]: newest first; documents created at the same
    instant keep their store order. *)
Fixpoint insert_desc (j : Job.t) (l : list Job.t) : list Job.t :=
  match l with
  | [] => [j]
  | k :: rest =>
      if Job.createdAt k <=? Job.createdAt j then j :: k :: rest
      else k :: insert_desc j rest
  end.

Definition sort_createdAt_desc (l : list Job.t) : list Job.t :=
  fold_right insert_desc [] l.

Definition Job_find_sorted (f : Filter) : M (list Job.t) :=
  query CJobs f (fun w => sort_createdAt_desc (filter (Job_matches f) (Jobs w))).

(** Validators.  [required] on a String path rejects the empty string too. *)
Definition missing_string (path : string) (v : option string) : list string :=
  match v with
  | Some s => if String.eqb s EmptyString then [path] else []
  | None => [path]
  end.

Definition missing_id (path : string) (v : option ObjectId) : list string :=
  match v with
  | Some _ => []
  | None => [path]
  end.

Definition status_enum : list string := ["active"; "completed"; "paused"].

Definition bad_status (s : string) : list string :=
  if existsb (String.eqb s) status_enum then [] else ["status"].

Definition bad_progress (p : Z) : list string :=
  if (0 <=? p) && (p <=? 100) then [] else ["progress"].

Definition bad_date (path : string) (d : JsDate) : list string :=
  match d with
  | InvalidDate => [path]
  | _ => []
  end.

Definition User_invalid (u : User.t) : list string :=
  missing_string "username" (User.username u)
  ++ missing_string "name" (User.name u)
  ++ missing_string "email" (User.email u).

Definition Pipeline_invalid (p : Pipeline.t) : list string :=
  missing_string "name" (Pipeline.name p)
  ++ missing_id "userId" (Pipeline.userId p).

Definition Customer_invalid (c : Customer.t) : list string :=
  missing_string "name" (Customer.name c)
  ++ missing_string "email" (Customer.email c)
  ++ missing_id "userId" (Customer.userId c).

Definition Job_invalid (j : Job.t) : list string :=
  missing_string "title" (Job.title j)
  ++ missing_id "customerId" (Job.customerId j)
  ++ missing_id "pipelineId" (Job.pipelineId j)
  ++ missing_string "currentStep" (Job.currentStep j)
  ++ bad_status (Job.status j)
  ++ bad_date "dueDate" (Job.dueDate j)
  ++ bad_progress (Job.progress j)
  ++ missing_id "userId" (Job.userId j).

Definition validate (paths : list string) : M unit :=
  match paths with
  | [] => ret tt
  | p :: _ => fail_store (ValidationError p)
  end.

Definition put_Users (l : list User.t) : M unit :=
  fun w =>
    (Ok tt,
     {| Users := l; Pipelines := Pipelines w; Customers := Customers w;
        Jobs := Jobs w; nextId := nextId w; clock := clock w; ticks := ticks w;
        faults := faults w; session := session w; console := console w;
        trace := trace w |}).

Definition put_Pipelines (l : list Pipeline.t) : M unit :=
  fun w =>
    (Ok tt,
     {| Users := Users w; Pipelines := l; Customers := Customers w;
        Jobs := Jobs w; nextId := nextId w; clock := clock w; ticks := ticks w;
        faults := faults w; session := session w; console := console w;
        trace := trace w |}).

Definition put_Customers (l : list Customer.t) : M unit :=
  fun w =>
    (Ok tt,
     {| Users := Users w; Pipelines := Pipelines w; Customers := l;
        Jobs := Jobs w; nextId := nextId w; clock := clock w; ticks := ticks w;
        faults := faults w; session := session w; console := console w;
        trace := trace w |}).

Definition put_Jobs (l : list Job.t) : M unit :=
  fun w =>
    (Ok tt,
     {| Users := Users w; Pipelines := Pipelines w; Customers := Customers w;
        Jobs := l; nextId := nextId w; clock := clock w; ticks := ticks w;
        faults := faults w; session := session w; console := console w;
        trace := trace w |}).

(** [githubId: { unique: true }]: the only unique index of the four
    schemas.  A missing value is indexed as null. *)
Definition githubId_taken (u : User.t) (l : list User.t) : bool :=
  existsb (fun v => opt_eqb String.eqb (User.githubId v) (User.githubId u)) l.

(** [doc.save()]: validate, then one round trip that inserts the document. *)
Definition User_save (u : User.t) : M unit :=
  validate (User_invalid u) ;;;
  round_trip ;;;
  l <- read Users ;;
  if githubId_taken u l then fail_store (DuplicateKeyError "githubId")
  else put_Users (l ++ [u]) ;;; emit (EvInsert CUsers (User._id u)).

Definition Pipeline_save (p : Pipeline.t) : M unit :=
  validate (Pipeline_invalid p) ;;;
  round_trip ;;;
  l <- read Pipelines ;;
  put_Pipelines (l ++ [p]) ;;; emit (EvInsert CPipelines (Pipeline._id p)).

Definition Customer_save (c : Customer.t) : M unit :=
  validate (Customer_invalid c) ;;;
  round_trip ;;;
  l <- read Customers ;;
  put_Customers (l ++ [c]) ;;; emit (EvInsert CCustomers (Customer._id c)).

Definition Job_save (j : Job.t) : M unit :=
  validate (Job_invalid j) ;;;
  round_trip ;;;
  l <- read Jobs ;;
  put_Jobs (l ++ [j]) ;;; emit (EvInsert CJobs (Job._id j)).

(** [new Model({...})]: the [_id] is generated and the schema defaults
    ([createdAt: Date.now], [status: 'active'], [progress: 0]) are applied
    when the document is constructed. *)
Definition new_User (githubId username name email avatar : option string)
  : M User.t :=
  i <- new_ObjectId ;;
  now <- Date_now ;;
  ret {| User._id := i; User.githubId := githubId; User.username := username;
         User.name := name; User.email := email; User.avatar := avatar;
         User.createdAt := now |}.

Definition new_Pipeline (name description : option string)
           (steps : list string) (userId : option ObjectId) : M Pipeline.t :=
  i <- new_ObjectId ;;
  now <- Date_now ;;
  ret {| Pipeline._id := i; Pipeline.name := name;
         Pipeline.description := description; Pipeline.steps := steps;
         Pipeline.userId := userId; Pipeline.createdAt := now |}.

Definition new_Customer (name email phone : option string)
           (userId : option ObjectId) : M Customer.t :=
  i <- new_ObjectId ;;
  now <- Date_now ;;
  ret {| Customer._id := i; Customer.name := name; Customer.email := email;
         Customer.phone := phone; Customer.userId := userId;
         Customer.createdAt := now |}.

Definition or_default {A} (d : A) (v : option A) : A :=
  match v with
  | Some a => a
  | None => d
  end.

Definition new_Job (title : option string) (customerId pipelineId : option ObjectId)
           (currentStep : option string) (status : option string)
           (dueDate : JsDate) (progress : option Z) (userId : option ObjectId)
  : M Job.t :=
  i <- new_ObjectId ;;
  now <- Date_now ;;
  ret {| Job._id := i; Job.title := title; Job.customerId := customerId;
         Job.pipelineId := pipelineId; Job.currentStep := currentStep;
         Job.status := or_default "active" status; Job.dueDate := dueDate;
         Job.progress := or_default 0 progress; Job.userId := userId;
         Job.createdAt := now |}.

(** ** [Date.prototype.toISOString] (ECMA-262)

    The time value is split into a day number and the time within the day;
    the day number is converted to a proleptic Gregorian date by 400-year
    eras counted from March 1st.  Years 0..9999 are printed with four
    digits, any other year as a sign and six digits. *)

Module Iso.

Definition msPerDay : Z := 86400000.

Definition Day (t : Z) : Z := t / msPerDay.
Definition TimeWithinDay (t : Z) : Z := t mod msPerDay.

(** Day of the 400-year era, year of the era, day of the (March-based)
    year, March-based month. *)
Definition doe (day : Z) : Z := (day + 719468) mod 146097.
Definition era (day : Z) : Z := (day + 719468) / 146097.
Definition yoe (day : Z) : Z :=
  let e := doe day in (e - e / 1460 + e / 36524 - e / 146096) / 365.
Definition doy (day : Z) : Z :=
  let y := yoe day in doe day - (365 * y + y / 4 - y / 100).
Definition mp (day : Z) : Z := (5 * doy day + 2) / 153.

Definition DateFromDay (day : Z) : Z := doy day - (153 * mp day + 2) / 5 + 1.
Definition MonthFromDay (day : Z) : Z :=
  if mp day <? 10 then mp day + 3 else mp day - 9.
Definition YearFromDay (day : Z) : Z :=
  yoe day + era day * 400 + (if MonthFromDay day <=? 2 then 1 else 0).

Definition YearFromTime (t : Z) : Z := YearFromDay (Day t).
Definition MonthFromTime (t : Z) : Z := MonthFromDay (Day t).
Definition DateFromTime (t : Z) : Z := DateFromDay (Day t).

Definition digit (v : Z) : ascii := ascii_of_nat (48 + Z.to_nat (v mod 10)).

(** The last [width] decimal digits of [v], most significant first. *)
Fixpoint pad (width : nat) (v : Z) : string :=
  match width with
  | O => EmptyString
  | S n => pad n (v / 10) ++ String (digit v) EmptyString
  end.

Definition year_string (y : Z) : string :=
  if (0 <=? y) && (y <=? 9999) then pad 4 y
  else (if y <? 0 then "-" else "+") ++ pad 6 (Z.abs y).

Definition date_string (t : Z) : string :=
  year_string (YearFromTime t) ++ "-" ++ pad 2 (MonthFromTime t)
  ++ "-" ++ pad 2 (DateFromTime t).

Definition time_string (t : Z) : string :=
  let ms := TimeWithinDay t in
  pad 2 (ms / 3600000) ++ ":" ++ pad 2 (ms / 60000 mod 60) ++ ":"
  ++ pad 2 (ms / 1000 mod 60) ++ "." ++ pad 3 (ms mod 1000).

Definition toISOString (t : Z) : string :=
  date_string t ++ "T" ++ time_string t ++ "Z".

(** [s.split('T')[0]]: what stands before the first ['T']. *)
Fixpoint before_T (s : string) : string :=
  match s with
  | EmptyString => EmptyString
  | String c rest => if Ascii.eqb c "T" then EmptyString else String c (before_T rest)
  end.

Definition is_digit (c : ascii) : bool :=
  let n := nat_of_ascii c in (48 <=? n)%nat && (n <=? 57)%nat.

(** The shape [YYYY-MM-DD]: ten characters, digits around two hyphens. *)
Definition is_YYYY_MM_DD (s : string) : bool :=
  match s with
  | String y1 (String y2 (String y3 (String y4 (String h1
      (String m1 (String m2 (String h2 (String d1 (String d2 EmptyString))))))))) =>
      is_digit y1 && is_digit y2 && is_digit y3 && is_digit y4
      && Ascii.eqb h1 "-" && is_digit m1 && is_digit m2
      && Ascii.eqb h2 "-" && is_digit d1 && is_digit d2
  | _ => false
  end.

End Iso.

Arguments Iso.digit v : simpl never.

(** ** Requests and responses *)

Module UserView.
Record t := {
  id : ObjectId;
  name : option string;
  email : option string;
  avatar : option string;
  githubUsername : option string
}.
End UserView.

Module JobView.
Record t := {
  id : ObjectId;
  title : option string;
  customer : option string;
  pipeline : option string;
  currentStep : option string;
  status : string;
  dueDate : option string;        (* null when the job has no due date *)
  progress : Z
}.
End JobView.

Module CustomerView.
Record t := {
  id : ObjectId;
  name : option string;
  email : option string;
  phone : option string;
  activeJobs : nat;
  totalJobs : nat
}.
End CustomerView.

Module PipelineView.
Record t := {
  id : ObjectId;
  name : option string;
  description : option string;
  steps : list string;
  jobCount : nat;
  createdAt : string
}.
End PipelineView.

Module Stats.
Record t := {
  activeJobs : nat;
  totalCustomers : nat;
  totalPipelines : nat;
  jobsDueThisWeek : nat
}.
End Stats.

Inductive Body :=
| ErrorBody (error : string)                 (* { error } *)
| LoginBody (user : UserView.t)              (* { success: true, user } *)
| SuccessBody                                (* { success: true } *)
| UserBody (user : UserView.t)
| StatsBody (stats : Stats.t)
| JobsBody (jobs : list JobView.t)
| JobCreated (jobId : ObjectId)              (* { success: true, jobId } *)
| CustomersBody (customers : list CustomerView.t)
| CustomerCreated (customerId : ObjectId)
| PipelinesBody (pipelines : list PipelineView.t)
| PipelineCreated (pipelineId : ObjectId).

Record Response := { statusCode : nat; json : Body }.

Definition res_status_json (code : nat) (b : Body) : M Response :=
  ret {| statusCode := code; json := b |}.

Definition res_json (b : Body) : M Response := res_status_json 200 b.

(** Request bodies after [express.json()]; [status] and [progress] are
    fields a client may send although no handler reads them. *)
Module JobBody.
Record t := {
  title : option string;
  customerId : option ObjectId;
  pipelineId : option ObjectId;
  currentStep : option string;
  dueDate : option DateArg;       (* [None]: absent or falsy *)
  status : option string;
  progress : option Z
}.
End JobBody.

Module CustomerBody.
Record t := {
  name : option string;
  email : option string;
  phone : option string
}.
End CustomerBody.

Module PipelineBody.
Record t := {
  name : option string;
  description : option string;
  steps : list string
}.
End PipelineBody.

Inductive Request :=
| POST_auth_github (username : option string)
| POST_auth_logout
| GET_api_user
| GET_api_dashboard_stats
| GET_api_jobs
| POST_api_jobs (b : JobBody.t)
| GET_api_customers
| POST_api_customers (b : CustomerBody.t)
| GET_api_pipelines
| POST_api_pipelines (b : PipelineBody.t).

(** ** Middleware and helpers *)

Definition requireAuth (next : M Response) : M Response :=
  userId <- get_session ;;
  match userId with
  | None => res_status_json 401 (ErrorBody "Authentication required")
  | Some _ => next
  end.

(** [array.map(f)] with a callback that may throw. *)
Fixpoint Array_map {A B} (f : A -> M B) (l : list A) : M (list B) :=
  match l with
  | [] => ret []
  | a :: rest =>
      b <- f a ;;
      bs <- Array_map f rest ;;
      ret (b :: bs)
  end.

Definition owned_by (userId : option ObjectId) : Filter :=
  {| by_id := None; by_username := None; by_userId := userId;
     by_customerId := None; by_pipelineId := None; by_status := None;
     by_dueDate := None |}.

Definition week : Z := 7 * 24 * 60 * 60 * 1000.

(** ** The sample-data seeder *)

Definition sample_job (title : string) (customer : Customer.t)
           (pipeline : Pipeline.t) (currentStep : string) (due : Z)
           (progress : Z) (userId : ObjectId) : M Job.t :=
  new_Job (Some title) (Some (Customer._id customer))
          (Some (Pipeline._id pipeline)) (Some currentStep) (Some "active")
          (new_Date (ParsesTo due)) (Some progress) (Some userId).

Definition createSampleData (userId : ObjectId) : M unit :=
  try_catch
    (webPipeline <-
       new_Pipeline (Some "Web Development")
         (Some "Standard web development workflow")
         ["Initial Contact"; "Requirements"; "Design"; "Development";
          "Testing"; "Deployment"]
         (Some userId) ;;
     mobilePipeline <-
       new_Pipeline (Some "Mobile App Development")
         (Some "Mobile application development process")
         ["Discovery"; "Wireframes"; "UI/UX"; "Development"; "Beta Testing";
          "App Store"]
         (Some userId) ;;
     Promise_all [Pipeline_save webPipeline; Pipeline_save mobilePipeline] ;;;
     customer1 <-
       new_Customer (Some "ABC Corp") (Some "contact@abccorp.com")
         (Some "+1-555-0123") (Some userId) ;;
     customer2 <-
       new_Customer (Some "Tasty Bites") (Some "info@tastybites.com")
         (Some "+1-555-0456") (Some userId) ;;
     customer3 <-
       new_Customer (Some "Jane Smith") (Some "jane@example.com")
         (Some "+1-555-0789") (Some userId) ;;
     Promise_all [Customer_save customer1; Customer_save customer2;
                  Customer_save customer3] ;;;
     job1 <- sample_job "E-commerce Website" customer1 webPipeline
               "Development" 1751328000000 60 userId ;;      (* 2025-07-01 *)
     job2 <- sample_job "Restaurant App" customer2 mobilePipeline
               "UI/UX" 1752537600000 30 userId ;;            (* 2025-07-15 *)
     job3 <- sample_job "Portfolio Site" customer3 webPipeline
               "Testing" 1750377600000 85 userId ;;          (* 2025-06-20 *)
     Promise_all (map Job_save [job1; job2; job3]) ;;;
     console_log "Sample data created for user:" userId)
    (fun error => console_error "Error creating sample data:" error).

(** ** Routes *)

Definition view_of_user (user : User.t) : UserView.t :=
  {| UserView.id := User._id user; UserView.name := User.name user;
     UserView.email := User.email user; UserView.avatar := User.avatar user;
     UserView.githubUsername := User.username user |}.

(** POST /auth/github *)
Definition auth_github (username : option string) : M Response :=
  try_catch
    (if negb (opt_eqb String.eqb username (Some "desivar"))
     then res_status_json 401 (ErrorBody "Invalid username")
     else
       found <- User_findOne
                  {| by_id := None; by_username := username; by_userId := None;
                     by_customerId := None; by_pipelineId := None;
                     by_status := None; by_dueDate := None |} ;;
       user <- match found with
               | Some user => ret user
               | None =>
                   user <- new_User (Some "desivar-github-id") (Some "desivar")
                             (Some "Desivar Developer")
                             (Some "desivar@example.com")
                             (Some "https://avatars.githubusercontent.com/u/desivar?v=4") ;;
                   User_save user ;;;
                   createSampleData (User._id user) ;;;
                   ret user
               end ;;
       session_assign (User._id user) ;;;
       res_json (LoginBody (view_of_user user)))
    (fun error =>
       console_error "Auth error:" error ;;;
       res_status_json 500 (ErrorBody "Authentication failed")).

(** POST /auth/logout.  The session lives in the same MongoDB (connect-mongo),
    so destroying it is a round trip. *)
Definition auth_logout : M Response :=
  try_catch
    (round_trip ;;;
     emit EvSessionDestroy ;;;
     (fun w => (Ok tt, set_session None w)) ;;;
     res_json SuccessBody)
    (fun err => res_status_json 500 (ErrorBody "Could not log out")).

(** GET /api/user *)
Definition api_user_body : M Response :=
  userId <- get_session ;;
  user <- User_findById userId ;;
  match user with
  | Some user => res_json (UserBody (view_of_user user))
  | None => throw (TypeError "Cannot read properties of null (reading '_id')")
  end.

Definition api_user : M Response :=
  requireAuth
    (try_catch api_user_body
       (fun error => res_status_json 500 (ErrorBody "Failed to fetch user"))).

(** GET /api/dashboard/stats.  The array literal is evaluated, clock reads
    included, before any of the four queries is sent. *)
Definition dashboard_stats_body : M Response :=
  userId <- get_session ;;
  gte <- Date_now ;;                                  (* new Date() *)
  now <- Date_now ;;                                  (* Date.now() *)
  counts <-
    Promise_all
      [Job_countDocuments
         {| by_id := None; by_username := None; by_userId := userId;
            by_customerId := None; by_pipelineId := None;
            by_status := Some "active"; by_dueDate := None |};
       Customer_countDocuments (owned_by userId);
       Pipeline_countDocuments (owned_by userId);
       Job_countDocuments
         {| by_id := None; by_username := None; by_userId := userId;
            by_customerId := None; by_pipelineId := None;
            by_status := Some "active";
            by_dueDate := Some (gte, now + week) |}] ;;
  res_json
    (StatsBody
       {| Stats.activeJobs := nth 0 counts O;
          Stats.totalCustomers := nth 1 counts O;
          Stats.totalPipelines := nth 2 counts O;
          Stats.jobsDueThisWeek := nth 3 counts O |}).

Definition dashboard_stats : M Response :=
  requireAuth
    (try_catch dashboard_stats_body
       (fun error => res_status_json 500 (ErrorBody "Failed to fetch stats"))).

(** GET /api/jobs.  [populate] fetches the referenced customers and
    pipelines by [_id]; a reference that resolves to nothing is [null], and
    reading [.name] of it throws. *)
Definition ids_of (l : list (option ObjectId)) : list ObjectId :=
  flat_map (fun o => match o with Some i => [i] | None => [] end) l.

Definition in_ids (ids : list ObjectId) : Filter :=
  {| by_id := Some ids; by_username := None; by_userId := None;
     by_customerId := None; by_pipelineId := None; by_status := None;
     by_dueDate := None |}.

Definition populated_customer (docs : list Customer.t) (ref : option ObjectId)
  : option Customer.t :=
  match ref with
  | Some i => find (fun c => Nat.eqb (Customer._id c) i) docs
  | None => None
  end.

Definition populated_pipeline (docs : list Pipeline.t) (ref : option ObjectId)
  : option Pipeline.t :=
  match ref with
  | Some i => find (fun p => Nat.eqb (Pipeline._id p) i) docs
  | None => None
  end.

Definition calendar_date (d : JsDate) : M (option string) :=
  match d with
  | NoDate => ret None
  | InvalidDate => throw (RangeError "Invalid time value")
  | DateAt t => ret (Some (Iso.before_T (Iso.toISOString t)))
  end.

Definition format_job (customers : list Customer.t) (pipelines : list Pipeline.t)
           (job : Job.t) : M JobView.t :=
  customer <- match populated_customer customers (Job.customerId job) with
              | Some c => ret (Customer.name c)
              | None => throw (TypeError "Cannot read properties of null (reading 'name')")
              end ;;
  pipeline <- match populated_pipeline pipelines (Job.pipelineId job) with
              | Some p => ret (Pipeline.name p)
              | None => throw (TypeError "Cannot read properties of null (reading 'name')")
              end ;;
  dueDate <- calendar_date (Job.dueDate job) ;;
  ret {| JobView.id := Job._id job; JobView.title := Job.title job;
         JobView.customer := customer; JobView.pipeline := pipeline;
         JobView.currentStep := Job.currentStep job;
         JobView.status := Job.status job; JobView.dueDate := dueDate;
         JobView.progress := Job.progress job |}.

Definition get_jobs_body : M Response :=
  userId <- get_session ;;
  jobs <- Job_find_sorted (owned_by userId) ;;
  customers <- Customer_find (in_ids (ids_of (map Job.customerId jobs))) ;;
  pipelines <- Pipeline_find (in_ids (ids_of (map Job.pipelineId jobs))) ;;
  formattedJobs <- Array_map (format_job customers pipelines) jobs ;;
  res_json (JobsBody formattedJobs).

Definition get_jobs : M Response :=
  requireAuth
    (try_catch get_jobs_body
       (fun error => res_status_json 500 (ErrorBody "Failed to fetch jobs"))).

(** POST /api/jobs *)
Definition post_jobs_body (b : JobBody.t) : M Response :=
  userId <- get_session ;;
  job <- new_Job (JobBody.title b) (JobBody.customerId b) (JobBody.pipelineId b)
           (JobBody.currentStep b) None
           (match JobBody.dueDate b with
            | Some dueDate => new_Date dueDate
            | None => NoDate
            end)
           None userId ;;
  Job_save job ;;;
  res_status_json 201 (JobCreated (Job._id job)).

Definition post_jobs (b : JobBody.t) : M Response :=
  requireAuth
    (try_catch (post_jobs_body b)
       (fun error => res_status_json 500 (ErrorBody "Failed to create job"))).

(** GET /api/customers *)
Definition customer_with_job_counts (customer : Customer.t) : M CustomerView.t :=
  activeJobs <- Job_countDocuments
                  {| by_id := None; by_username := None; by_userId := None;
                     by_customerId := Some (Customer._id customer);
                     by_pipelineId := None; by_status := Some "active";
                     by_dueDate := None |} ;;
  totalJobs <- Job_countDocuments
                 {| by_id := None; by_username := None; by_userId := None;
                    by_customerId := Some (Customer._id customer);
                    by_pipelineId := None; by_status := None;
                    by_dueDate := None |} ;;
  ret {| CustomerView.id := Customer._id customer;
         CustomerView.name := Customer.name customer;
         CustomerView.email := Customer.email customer;
         CustomerView.phone := Customer.phone customer;
         CustomerView.activeJobs := activeJobs;
         CustomerView.totalJobs := totalJobs |}.

Definition get_customers_body : M Response :=
  userId <- get_session ;;
  customers <- Customer_find (owned_by userId) ;;
  customersWithJobCounts <- Promise_all (map customer_with_job_counts customers) ;;
  res_json (CustomersBody customersWithJobCounts).

Definition get_customers : M Response :=
  requireAuth
    (try_catch get_customers_body
       (fun error => res_status_json 500 (ErrorBody "Failed to fetch customers"))).

(** POST /api/customers *)
Definition post_customers_body (b : CustomerBody.t) : M Response :=
  userId <- get_session ;;
  customer <- new_Customer (CustomerBody.name b) (CustomerBody.email b)
                (CustomerBody.phone b) userId ;;
  Customer_save customer ;;;
  res_status_json 201 (CustomerCreated (Customer._id customer)).

Definition post_customers (b : CustomerBody.t) : M Response :=
  requireAuth
    (try_catch (post_customers_body b)
       (fun error => res_status_json 500 (ErrorBody "Failed to create customer"))).

(** GET /api/pipelines *)
Definition pipeline_with_job_count (pipeline : Pipeline.t) : M PipelineView.t :=
  jobCount <- Job_countDocuments
                {| by_id := None; by_username := None; by_userId := None;
                   by_customerId := None;
                   by_pipelineId := Some (Pipeline._id pipeline);
                   by_status := Some "active"; by_dueDate := None |} ;;
  ret {| PipelineView.id := Pipeline._id pipeline;
         PipelineView.name := Pipeline.name pipeline;
         PipelineView.description := Pipeline.description pipeline;
         PipelineView.steps := Pipeline.steps pipeline;
         PipelineView.jobCount := jobCount;
         PipelineView.createdAt :=
           Iso.before_T (Iso.toISOString (Pipeline.createdAt pipeline)) |}.

Definition get_pipelines_body : M Response :=
  userId <- get_session ;;
  pipelines <- Pipeline_find (owned_by userId) ;;
  pipelinesWithJobCounts <- Promise_all (map pipeline_with_job_count pipelines) ;;
  res_json (PipelinesBody pipelinesWithJobCounts).

Definition get_pipelines : M Response :=
  requireAuth
    (try_catch get_pipelines_body
       (fun error => res_status_json 500 (ErrorBody "Failed to fetch pipelines"))).

(** POST /api/pipelines *)
Definition post_pipelines_body (b : PipelineBody.t) : M Response :=
  userId <- get_session ;;
  pipeline <- new_Pipeline (PipelineBody.name b) (PipelineBody.description b)
                (PipelineBody.steps b) userId ;;
  Pipeline_save pipeline ;;;
  res_status_json 201 (PipelineCreated (Pipeline._id pipeline)).

Definition post_pipelines (b : PipelineBody.t) : M Response :=
  requireAuth
    (try_catch (post_pipelines_body b)
       (fun error => res_status_json 500 (ErrorBody "Failed to create pipeline"))).

(** ** The application: routing and the error-handling middleware *)

Definition route (r : Request) : M Response :=
  match r with
  | POST_auth_github username => auth_github username
  | POST_auth_logout => auth_logout
  | GET_api_user => api_user
  | GET_api_dashboard_stats => dashboard_stats
  | GET_api_jobs => get_jobs
  | POST_api_jobs b => post_jobs b
  | GET_api_customers => get_customers
  | POST_api_customers b => post_customers b
  | GET_api_pipelines => get_pipelines
  | POST_api_pipelines b => post_pipelines b
  end.

(** [app.use((error, req, res, next) => ...)]: what a handler lets escape is
    logged and answered with a 500. *)
Definition handle (r : Request) (w : World) : Response * World :=
  match route r w with
  | (Ok res, w') => (res, w')
  | (Throw error, w') =>
      match console_write {| stream := Stderr; text := EmptyString;
                             arg := LogError error |} w' with
      | (_, w'') => ({| statusCode := 500; json := ErrorBody "Internal server error" |}, w'')
      end
  end.

Local Open Scope list_scope.

(** ** Frames: what a computation leaves alone

    [obeys R m]: every run of [m] takes a world to one related by [R]. *)

Definition obeys {A} (R : World -> World -> Prop) (m : M A) : Prop :=
  forall w o w', m w = (o, w') -> R w w'.

(** A read changes nothing but the coming faults, the clock and the trace. *)
Definition unchanged (w w' : World) : Prop :=
  Users w' = Users w /\ Pipelines w' = Pipelines w
  /\ Customers w' = Customers w /\ Jobs w' = Jobs w
  /\ session w' = session w /\ console w' = console w
  /\ nextId w' = nextId w.

Definition quiet (w w' : World) : Prop := console w' = console w.

(** The trace only grows, and by events that satisfy [P]. *)
Definition extends (P : Event -> Prop) (w w' : World) : Prop :=
  exists evs, trace w' = trace w ++ evs /\ Forall P evs.

Definition not_session_event (ev : Event) : Prop :=
  match ev with
  | EvSessionSet _ | EvSessionDestroy => False
  | _ => True
  end.

Definition session_kept (w w' : World) : Prop :=
  session w' = session w /\ extends not_session_event w w'.

Definition is_failure (ev : Event) : Prop :=
  match ev with
  | EvFailure _ => True
  | _ => False
  end.

(** A computation that does not recover from store failures: when it
    returns a value, no failure was raised on the way. *)
Definition failfast {A} (m : M A) : Prop :=
  forall w o w', m w = (o, w') ->
    exists evs, trace w' = trace w ++ evs
                /\ (forall a, o = Ok a -> Forall (fun ev => ~ is_failure ev) evs).

(** A string without the separator ['T']. *)
Fixpoint no_T (s : string) : Prop :=
  match s with
  | EmptyString => True
  | String c rest => Ascii.eqb c "T" = false /\ no_T rest
  end.


(** Newest first. *)
Definition newer_first (a b : Job.t) : Prop := Job.createdAt b <= Job.createdAt a.

(** What a listing entry shows of a job, the referenced records being
    looked up by [_id] in the store. *)
Definition rendered_due (d : JsDate) (shown : option string) : Prop :=
  match d with
  | NoDate => shown = None
  | InvalidDate => False
  | DateAt t => shown = Some (Iso.date_string t)
  end.

Definition entry_of (w : World) (j : Job.t) (v : JobView.t) : Prop :=
  JobView.id v = Job._id j
  /\ JobView.title v = Job.title j
  /\ JobView.currentStep v = Job.currentStep j
  /\ JobView.status v = Job.status j
  /\ JobView.progress v = Job.progress j
  /\ (exists c, populated_customer (Customers w) (Job.customerId j) = Some c
                /\ JobView.customer v = Customer.name c)
  /\ (exists p, populated_pipeline (Pipelines w) (Job.pipelineId j) = Some p
                /\ JobView.pipeline v = Pipeline.name p)
  /\ rendered_due (Job.dueDate j) (JobView.dueDate v).

Definition owned (u : ObjectId) (j : Job.t) : Prop := Job.userId j = Some u.

(** ** Concrete worlds *)

Definition empty_world : World :=
  {| Users := []; Pipelines := []; Customers := []; Jobs := [];
     nextId := 0%nat; clock := 1750000000000; ticks := []; faults := [];
     session := None; console := []; trace := [] |}.

(** After the first login. *)
Definition seeded_world : World :=
  snd (handle (POST_auth_github (Some "desivar")) empty_world).

(** A store with two users, each with a customer, a pipeline and a job. *)
Definition two_tenants : World :=
  {| Users :=
       [ {| User._id := 0%nat; User.githubId := Some "desivar-github-id";
            User.username := Some "desivar"; User.name := Some "Desivar Developer";
            User.email := Some "desivar@example.com"; User.avatar := None;
            User.createdAt := 1000 |};
         {| User._id := 10%nat; User.githubId := Some "other-github-id";
            User.username := Some "other"; User.name := Some "Other Developer";
            User.email := Some "other@example.com"; User.avatar := None;
            User.createdAt := 2000 |} ];
     Pipelines :=
       [ {| Pipeline._id := 2%nat; Pipeline.name := Some "Web Development";
            Pipeline.description := None; Pipeline.steps := ["Design"; "Build"];
            Pipeline.userId := Some 0%nat; Pipeline.createdAt := 1100 |};
         {| Pipeline._id := 12%nat; Pipeline.name := Some "Audit";
            Pipeline.description := None; Pipeline.steps := ["Plan"];
            Pipeline.userId := Some 10%nat; Pipeline.createdAt := 2100 |} ];
     Customers :=
       [ {| Customer._id := 1%nat; Customer.name := Some "ABC Corp";
            Customer.email := Some "contact@abccorp.com"; Customer.phone := None;
            Customer.userId := Some 0%nat; Customer.createdAt := 1200 |};
         {| Customer._id := 11%nat; Customer.name := Some "Other Co";
            Customer.email := Some "info@other.example"; Customer.phone := None;
            Customer.userId := Some 10%nat; Customer.createdAt := 2200 |} ];
     Jobs :=
       [ {| Job._id := 3%nat; Job.title := Some "E-commerce Website";
            Job.customerId := Some 1%nat; Job.pipelineId := Some 2%nat;
            Job.currentStep := Some "Design"; Job.status := "active";
            Job.dueDate := DateAt 1751328000000; Job.progress := 60;
            Job.userId := Some 0%nat; Job.createdAt := 1300 |};
         {| Job._id := 13%nat; Job.title := Some "Yearly audit";
            Job.customerId := Some 11%nat; Job.pipelineId := Some 12%nat;
            Job.currentStep := Some "Plan"; Job.status := "active";
            Job.dueDate := NoDate; Job.progress := 0;
            Job.userId := Some 10%nat; Job.createdAt := 2300 |} ];
     nextId := 20%nat; clock := 1750000000000; ticks := []; faults := [];
     session := None; console := []; trace := [] |}.

(** The second user creates a job that names the first user's customer and
    pipeline. *)
Definition foreign_references : JobBody.t :=
  {| JobBody.title := Some "Borrowed";
     JobBody.customerId := Some 1%nat; JobBody.pipelineId := Some 2%nat;
     JobBody.currentStep := Some "Plan"; JobBody.dueDate := None;
     JobBody.status := Some "completed"; JobBody.progress := Some 150 |}.





(** ** Dashboard statistics, as sets of jobs *)

(** The coming [n] round trips are not scheduled to fail. *)
Fixpoint no_fault_within (n : nat) (l : list (option string)) : Prop :=
  match n with
  | O => True
  | S k => hd None l = None /\ no_fault_within k (tl l)
  end.

Definition active_job_of (u : ObjectId) (j : Job.t) : bool :=
  id_is u (Job.userId j) && String.eqb (Job.status j) "active".

Definition due_between (lo hi : Z) (j : Job.t) : bool :=
  due_within (lo, hi) (Job.dueDate j).

(** The second clock read of a request. *)
Definition second_read (w : World) : Z := clock w + Z.max 0 (hd 0 (ticks w)).

(** A job due on 10000-01-01T00:00:00Z, created by the seeded user. *)
Definition far_future_job : JobBody.t :=
  {| JobBody.title := Some "Long-term archive";
     JobBody.customerId := Some 3%nat; JobBody.pipelineId := Some 1%nat;
     JobBody.currentStep := Some "Design";
     JobBody.dueDate := Some (ParsesTo 253402300800000);
     JobBody.status := None; JobBody.progress := None |}.

Definition far_future_world : World :=
  snd (handle (POST_api_jobs far_future_job) seeded_world).

(** How a listing entry renders the references and the due date of a job. *)
Definition resolved_entry (w : World) (j : Job.t) (v : JobView.t) : Prop :=
  (exists c, populated_customer (Customers w) (Job.customerId j) = Some c
             /\ JobView.customer v = Customer.name c)
  /\ (exists p, populated_pipeline (Pipelines w) (Job.pipelineId j) = Some p
                /\ JobView.pipeline v = Pipeline.name p)
  /\ match Job.dueDate j with
     | NoDate => JobView.dueDate v = None
     | InvalidDate => False
     | DateAt t =>
         JobView.dueDate v = Some (Iso.date_string t)
         /\ 1 <= Iso.MonthFromTime t <= 12 /\ 1 <= Iso.DateFromTime t <= 31
         /\ (0 <= Iso.YearFromTime t <= 9999 ->
             Iso.is_YYYY_MM_DD (Iso.date_string t) = true)
         /\ (~ 0 <= Iso.YearFromTime t <= 9999 ->
             Iso.is_YYYY_MM_DD (Iso.date_string t) = false)
     end.

(** What GET /api/jobs answers to the seeded user. *)
Definition seeded_listing : list JobView.t :=
  match json (fst (handle GET_api_jobs seeded_world)) with
  | JobsBody views => views
  | _ => []
  end.

(** ** The routes behind [requireAuth] *)

Definition authenticated (r : Request) : bool :=
  match r with
  | POST_auth_github _ | POST_auth_logout => false
  | _ => true
  end.



(** A store whose connection is reset on the next round trip. *)
Definition failing_world : World :=
  {| Users := Users seeded_world; Pipelines := Pipelines seeded_world;
     Customers := Customers seeded_world; Jobs := Jobs seeded_world;
     nextId := nextId seeded_world; clock := clock seeded_world;
     ticks := []; faults := [Some "MongoNetworkError: connection reset"];
     session := Some 0%nat; console := []; trace := [] |}.

(** ** First login *)

Definition by_username_desivar : Filter :=
  {| by_id := None; by_username := Some "desivar"; by_userId := None;
     by_customerId := None; by_pipelineId := None; by_status := None;
     by_dueDate := None |}.

(** The user record a first login constructs in world [w]. *)
Definition desivar_user (w : World) : User.t :=
  {| User._id := nextId w; User.githubId := Some "desivar-github-id";
     User.username := Some "desivar"; User.name := Some "Desivar Developer";
     User.email := Some "desivar@example.com";
     User.avatar := Some "https://avatars.githubusercontent.com/u/desivar?v=4";
     User.createdAt := clock w |}.

(** A computation that writes [line] to the console as its last step when
    it returns, and nothing when it throws. *)
Definition ends_logging {A} (line : ConsoleLine) (m : M A) : Prop :=
  forall w o w', m w = (o, w') ->
    match o with
    | Ok _ => console w' = console w ++ [line]
    | Throw _ => console w' = console w
    end.

(** A first login during which the store fails while the third sample
    customer is saved. *)
Definition flaky_world : World :=
  {| Users := []; Pipelines := []; Customers := []; Jobs := [];
     nextId := 0%nat; clock := 1750000000000; ticks := [];
     faults := [None; None; None; None; None; None; Some "MongoNetworkError: socket closed"];
     session := None; console := []; trace := [] |}.

(** The sample records, as the seeder's literals fix them. *)
Definition sample_data (userId : ObjectId) (p1 p2 : Pipeline.t)
           (c1 c2 c3 : Customer.t) (j1 j2 j3 : Job.t) : Prop :=
  map Pipeline.name [p1; p2]
  = [Some "Web Development"; Some "Mobile App Development"]
  /\ map Pipeline.steps [p1; p2]
     = [["Initial Contact"; "Requirements"; "Design"; "Development";
         "Testing"; "Deployment"];
        ["Discovery"; "Wireframes"; "UI/UX"; "Development"; "Beta Testing";
         "App Store"]]
  /\ map Customer.name [c1; c2; c3]
     = [Some "ABC Corp"; Some "Tasty Bites"; Some "Jane Smith"]
  /\ map Job.title [j1; j2; j3]
     = [Some "E-commerce Website"; Some "Restaurant App"; Some "Portfolio Site"]
  /\ map Job.progress [j1; j2; j3] = [60; 30; 85]
  /\ map Job.status [j1; j2; j3] = ["active"; "active"; "active"]
  /\ map Job.dueDate [j1; j2; j3]
     = [DateAt 1751328000000; DateAt 1752537600000; DateAt 1750377600000]
  /\ map Job.customerId [j1; j2; j3]
     = map (fun c => Some (Customer._id c)) [c1; c2; c3]
  /\ map Job.pipelineId [j1; j2; j3]
     = map (fun p => Some (Pipeline._id p)) [p1; p2; p1]
  /\ Forall (fun p => Pipeline.userId p = Some userId) [p1; p2]
  /\ Forall (fun c => Customer.userId c = Some userId) [c1; c2; c3]
  /\ Forall (fun j => Job.userId j = Some userId) [j1; j2; j3].

(** ** The progress bound *)

Definition progress_in_range (j : Job.t) : Prop := 0 <= Job.progress j <= 100.

Definition jobs_ok (w w' : World) : Prop :=
  Forall progress_in_range (Jobs w) -> Forall progress_in_range (Jobs w').

(** Between two requests everything but the store may change: the session
    the next request carries, the clock, the faults to come. *)
Definition same_store (w w' : World) : Prop :=
  Users w' = Users w /\ Pipelines w' = Pipelines w
  /\ Customers w' = Customers w /\ Jobs w' = Jobs w.

(** The worlds the server reaches from a database without jobs. *)
Inductive reachable : World -> Prop :=
| reach_start : forall w, Jobs w = [] -> reachable w
| reach_between : forall w w', reachable w -> same_store w w' -> reachable w'
| reach_request : forall w r, reachable w -> reachable (snd (handle r w)).

(** A job document carrying progress 150, as a client of the model could
    try to save it. *)
Definition overshooting_job : Job.t :=
  {| Job._id := 99%nat; Job.title := Some "Overshoot";
     Job.customerId := Some 3%nat; Job.pipelineId := Some 1%nat;
     Job.currentStep := Some "Design"; Job.status := "active";
     Job.dueDate := NoDate; Job.progress := 150; Job.userId := Some 0%nat;
     Job.createdAt := 0 |}.

(** ** Responses route by route *)





(** A computation that always returns. *)
Definition returns {A} (m : M A) : Prop :=
  forall w, exists a w', m w = (Ok a, w').

Definition is_GET (r : Request) : bool :=
  match r with
  | GET_api_user | GET_api_dashboard_stats | GET_api_jobs
  | GET_api_customers | GET_api_pipelines => true
  | _ => false
  end.

(** What the dashboard shows the first of the two users. *)
Definition two_tenants_stats : Stats.t :=
  {| Stats.activeJobs := 1; Stats.totalCustomers := 1;
     Stats.totalPipelines := 1; Stats.jobsDueThisWeek := 0 |}.

(** A job that names a customer no record has. *)
Definition dangling_job : JobBody.t :=
  {| JobBody.title := Some "Orphan";
     JobBody.customerId := Some 77%nat; JobBody.pipelineId := Some 1%nat;
     JobBody.currentStep := Some "Design"; JobBody.dueDate := None;
     JobBody.status := None; JobBody.progress := None |}.

Definition dangling_world : World :=
  snd (handle (POST_api_jobs dangling_job) seeded_world).

(** Both references of a job resolve to stored records. *)
Definition resolves (w : World) (j : Job.t) : Prop :=
  populated_customer (Customers w) (Job.customerId j) <> None
  /\ populated_pipeline (Pipelines w) (Job.pipelineId j) <> None.

(** ** Writes *)

(** A required String path holds a non-empty string. *)
Definition present (v : option string) : Prop :=
  exists s, v = Some s /\ s <> EmptyString.


Definition pipeline_of (b : PipelineBody.t) (w : World) : Pipeline.t :=
  {| Pipeline._id := nextId w; Pipeline.name := PipelineBody.name b;
     Pipeline.description := PipelineBody.description b;
     Pipeline.steps := PipelineBody.steps b;
     Pipeline.userId := session w; Pipeline.createdAt := clock w |}.

Definition job_of (b : JobBody.t) (w : World) : Job.t :=
  {| Job._id := nextId w; Job.title := JobBody.title b;
     Job.customerId := JobBody.customerId b;
     Job.pipelineId := JobBody.pipelineId b;
     Job.currentStep := JobBody.currentStep b; Job.status := "active";
     Job.dueDate := match JobBody.dueDate b with
                    | Some dueDate => new_Date dueDate
                    | None => NoDate
                    end;
     Job.progress := 0; Job.userId := session w; Job.createdAt := clock w |}.


Definition qa_pipeline : PipelineBody.t :=
  {| PipelineBody.name := Some "QA"; PipelineBody.description := Some "x";
     PipelineBody.steps := ["A"; "B"] |}.

(** ** Listings, as functions of the store *)

(** No round trip to come is scheduled to fail. *)
Definition reliable (w : World) : Prop :=
  Forall (fun outcome => outcome = None) (faults w).

(** Jobs naming a pipeline, whoever owns them. *)
Definition active_on_pipeline (p : ObjectId) (j : Job.t) : bool :=
  id_is p (Job.pipelineId j) && String.eqb (Job.status j) "active".

Definition with_customer (c : ObjectId) (j : Job.t) : bool :=
  id_is c (Job.customerId j).

Definition active_with_customer (c : ObjectId) (j : Job.t) : bool :=
  id_is c (Job.customerId j) && String.eqb (Job.status j) "active".

Definition pipeline_view (jobs : list Job.t) (p : Pipeline.t) : PipelineView.t :=
  {| PipelineView.id := Pipeline._id p;
     PipelineView.name := Pipeline.name p;
     PipelineView.description := Pipeline.description p;
     PipelineView.steps := Pipeline.steps p;
     PipelineView.jobCount :=
       List.length (filter (active_on_pipeline (Pipeline._id p)) jobs);
     PipelineView.createdAt := Iso.date_string (Pipeline.createdAt p) |}.

Definition customer_view (jobs : list Job.t) (c : Customer.t) : CustomerView.t :=
  {| CustomerView.id := Customer._id c;
     CustomerView.name := Customer.name c;
     CustomerView.email := Customer.email c;
     CustomerView.phone := Customer.phone c;
     CustomerView.activeJobs :=
       List.length (filter (active_with_customer (Customer._id c)) jobs);
     CustomerView.totalJobs :=
       List.length (filter (with_customer (Customer._id c)) jobs) |}.

(** The world a listing's sub-queries run in: the store and the session of
    [w0], no failure to come. *)
Definition listing_frame (w0 w : World) : Prop :=
  unchanged w0 w /\ reliable w.

(** A request body POST /api/jobs accepts: the four required fields are
    there and the due date, when given, is a valid date. *)
Definition accepted_job (b : JobBody.t) : Prop :=
  present (JobBody.title b)
  /\ JobBody.customerId b <> None
  /\ JobBody.pipelineId b <> None
  /\ present (JobBody.currentStep b)
  /\ (forall d, JobBody.dueDate b = Some d ->
                exists t, d = ParsesTo t /\ Z.abs t <= maxTimeValue).


(** A user collection in which another username holds the [githubId] the
    login route assigns. *)
Definition squatter_world : World :=
  {| Users :=
       [ {| User._id := 40%nat; User.githubId := Some "desivar-github-id";
            User.username := Some "someone-else";
            User.name := Some "Someone Else";
            User.email := Some "else@example.com"; User.avatar := None;
            User.createdAt := 4000 |} ];
     Pipelines := []; Customers := []; Jobs := [];
     nextId := 41%nat; clock := 1750000000000; ticks := []; faults := [];
     session := None; console := []; trace := [] |}.

(** A job for the first sample customer on the first sample pipeline. *)
Definition follow_up_job : JobBody.t :=
  {| JobBody.title := Some "Follow-up";
     JobBody.customerId := Some 3%nat; JobBody.pipelineId := Some 1%nat;
     JobBody.currentStep := Some "Requirements";
     JobBody.dueDate := Some (ParsesTo 1751328000000);
     JobBody.status := None; JobBody.progress := None |}.

(** The first sample customer and the first sample pipeline, as stored by
    the first login into [empty_world]. *)
Definition abc_corp : Customer.t :=
  {| Customer._id := 3%nat; Customer.name := Some "ABC Corp";
     Customer.email := Some "contact@abccorp.com";
     Customer.phone := Some "+1-555-0123"; Customer.userId := Some 0%nat;
     Customer.createdAt := 1750000000000 |}.

Definition web_development : Pipeline.t :=
  {| Pipeline._id := 1%nat; Pipeline.name := Some "Web Development";
     Pipeline.description := Some "Standard web development workflow";
     Pipeline.steps := ["Initial Contact"; "Requirements"; "Design";
                        "Development"; "Testing"; "Deployment"];
     Pipeline.userId := Some 0%nat; Pipeline.createdAt := 1750000000000 |}.

(** * Properties *)

(** ** Frame rules *)

Section Frames.
Variable R : World -> World -> Prop.
Hypothesis R_refl : forall w, R w w.
Hypothesis R_trans : forall a b c, R a b -> R b c -> R a c.

Lemma obeys_ret {A} (a : A) : obeys R (ret a).
Proof. intros w o w' H; inversion H; subst; apply R_refl. Qed.

Lemma obeys_throw {A} (e : Error) : obeys R (@throw A e).
Proof. intros w o w' H; inversion H; subst; apply R_refl. Qed.

Lemma obeys_get_session : obeys R get_session.
Proof. intros w o w' H; inversion H; subst; apply R_refl. Qed.

Lemma obeys_read {A} (f : World -> A) : obeys R (read f).
Proof. intros w o w' H; inversion H; subst; apply R_refl. Qed.

Lemma obeys_bind {A B} (m : M A) (k : A -> M B) :
  obeys R m -> (forall a, obeys R (k a)) -> obeys R (bind m k).
Proof.
  intros Hm Hk w o w' H. unfold bind in H.
  destruct (m w) as [[a | e] w1] eqn:E.
  - eapply R_trans; [eapply Hm; eauto | eapply Hk; eauto].
  - inversion H; subst. eapply Hm; eauto.
Qed.

Lemma obeys_try_catch {A} (m : M A) (h : Error -> M A) :
  obeys R m -> (forall e, obeys R (h e)) -> obeys R (try_catch m h).
Proof.
  intros Hm Hh w o w' H. unfold try_catch in H.
  destruct (m w) as [[a | e] w1] eqn:E.
  - inversion H; subst. eapply Hm; eauto.
  - eapply R_trans; [eapply Hm; eauto | eapply Hh; eauto].
Qed.

Lemma obeys_Promise_all {A} (ms : list (M A)) :
  Forall (obeys R) ms -> obeys R (Promise_all ms).
Proof.
  induction 1 as [| m ms Hm _ IH]; intros w o w' H; simpl in H.
  - inversion H; subst; apply R_refl.
  - destruct (m w) as [o1 w1] eqn:E1.
    destruct (Promise_all ms w1) as [o2 w2] eqn:E2.
    assert (w' = w2) by (destruct o1, o2; inversion H; reflexivity).
    subst. eapply R_trans; [eapply Hm; eauto | eapply IH; eauto].
Qed.

Lemma obeys_Promise_all_map {A B} (f : A -> M B) (l : list A) :
  (forall a, obeys R (f a)) -> obeys R (Promise_all (map f l)).
Proof.
  intros Hf. apply obeys_Promise_all. apply Forall_forall.
  intros m Hin. apply in_map_iff in Hin as [a [<- _]]. apply Hf.
Qed.

Lemma obeys_Array_map {A B} (f : A -> M B) (l : list A) :
  (forall a, obeys R (f a)) -> obeys R (Array_map f l).
Proof.
  intros Hf. induction l as [| a l IH]; simpl.
  - apply obeys_ret.
  - apply obeys_bind; [apply Hf | intros b].
    apply obeys_bind; [apply IH | intros bs]. apply obeys_ret.
Qed.
End Frames.

Lemma unchanged_refl w : unchanged w w.
Proof. unfold unchanged; intuition. Qed.

Lemma unchanged_trans a b c : unchanged a b -> unchanged b c -> unchanged a c.
Proof. unfold unchanged; intuition congruence. Qed.

Lemma quiet_refl w : quiet w w.
Proof. reflexivity. Qed.

Lemma quiet_trans a b c : quiet a b -> quiet b c -> quiet a c.
Proof. unfold quiet; congruence. Qed.

Lemma extends_refl P w : extends P w w.
Proof. exists []; split; [now rewrite app_nil_r | constructor]. Qed.

Lemma extends_trans P a b c : extends P a b -> extends P b c -> extends P a c.
Proof.
  intros [e1 [H1 F1]] [e2 [H2 F2]]. exists (e1 ++ e2). split.
  - rewrite H2, H1. now rewrite app_assoc.
  - apply Forall_app; auto.
Qed.

Lemma session_kept_refl w : session_kept w w.
Proof. split; [reflexivity | apply extends_refl]. Qed.

Lemma session_kept_trans a b c :
  session_kept a b -> session_kept b c -> session_kept a c.
Proof.
  intros [H1 E1] [H2 E2]. split; [congruence | eapply extends_trans; eauto].
Qed.

(** Running a primitive: unfold it, split on the next scheduled fault where
    it makes a round trip, and read the resulting world off. *)
Ltac run_prim H :=
  cbv [emit fail_store round_trip Date_now new_ObjectId console_write
       console_error console_log get_session session_assign set_session
       put_Users put_Pipelines put_Customers put_Jobs read validate
       bind ret throw] in H;
  repeat match type of H with
         | context [match faults ?w with _ => _ end] =>
             destruct (faults w) as [| [?d |] ?rest] eqn:?Hfaults
         | context [match ?l with [] => _ | _ :: _ => _ end] => destruct l
         end;
  inversion H; subst; clear H; simpl.

Lemma emit_trace ev w o w' :
  emit ev w = (o, w') -> o = Ok tt /\ trace w' = trace w ++ [ev]
                         /\ unchanged w w' /\ faults w' = faults w
                         /\ clock w' = clock w /\ ticks w' = ticks w.
Proof. intros H; run_prim H; unfold unchanged; intuition. Qed.

Lemma round_trip_cases w o w' :
  round_trip w = (o, w') ->
  unchanged w w' /\ clock w' = clock w /\ ticks w' = ticks w
  /\ faults w' = tl (faults w)
  /\ ((o = Ok tt /\ trace w' = trace w /\ hd None (faults w) = None)
      \/ (exists d, o = Throw (StorageError d)
                    /\ trace w' = trace w ++ [EvFailure (StorageError d)]
                    /\ hd None (faults w) = Some d)).
Proof.
  intros H; run_prim H; unfold unchanged; rewrite ?Hfaults; simpl.
  all: (repeat match goal with |- _ /\ _ => split end); auto.
  right; eexists; eauto.
Qed.

Create HintDb frame.

Lemma jobs_ok_refl w : jobs_ok w w.
Proof. intros H; exact H. Qed.

Lemma jobs_ok_trans a b c : jobs_ok a b -> jobs_ok b c -> jobs_ok a c.
Proof. unfold jobs_ok; auto. Qed.

Ltac preorder :=
  first [ exact unchanged_refl | exact unchanged_trans
        | exact quiet_refl | exact quiet_trans
        | exact session_kept_refl | exact session_kept_trans
        | exact jobs_ok_refl | exact jobs_ok_trans ].

(** One step of a frame proof: follow the structure of the computation and
    leave the primitives to the hint database. *)
Ltac frame_step :=
  first
    [ preorder
    | solve [auto with frame]
    | match goal with
      | |- forall _, _ => intro
      | |- obeys _ (bind _ _) => apply obeys_bind
      | |- obeys _ (try_catch _ _) => apply obeys_try_catch
      | |- obeys _ (ret _) => apply obeys_ret
      | |- obeys _ (res_json _) => apply obeys_ret
      | |- obeys _ (res_status_json _ _) => apply obeys_ret
      | |- obeys _ (throw _) => apply obeys_throw
      | |- obeys _ get_session => apply obeys_get_session
      | |- obeys _ (read _) => apply obeys_read
      | |- obeys _ (Promise_all (map _ _)) => apply obeys_Promise_all_map
      | |- obeys _ (Promise_all _) =>
          apply obeys_Promise_all;
          repeat first [apply Forall_nil | apply Forall_cons]
      | |- obeys _ (Array_map _ _) => apply obeys_Array_map
      | |- obeys _ (match ?x with _ => _ end) => destruct x
      end ].

Ltac frame := repeat frame_step.

Lemma obeys_unchanged_emit ev : obeys unchanged (emit ev).
Proof. intros w o w' H; apply emit_trace in H; tauto. Qed.

Lemma obeys_unchanged_round_trip : obeys unchanged round_trip.
Proof. intros w o w' H; apply round_trip_cases in H; tauto. Qed.

Lemma obeys_unchanged_Date_now : obeys unchanged Date_now.
Proof. intros w o w' H; run_prim H; unfold unchanged; intuition. Qed.

#[local] Hint Resolve obeys_unchanged_emit obeys_unchanged_round_trip
  obeys_unchanged_Date_now : frame.

Lemma obeys_unchanged_query {A} c f (rd : World -> A) :
  obeys unchanged (query c f rd).
Proof.
  unfold query. frame.
Qed.

#[local] Hint Resolve obeys_unchanged_query : frame.

(** A successful query answers from the store as it stands. *)
Lemma query_Ok {A} c f (rd : World -> A) w a w' :
  query c f rd w = (Ok a, w') -> a = rd w' /\ unchanged w w'.
Proof.
  intros H. split; [| eapply obeys_unchanged_query; eauto].
  unfold query, bind in H.
  destruct (emit (EvRead c f) w) as [[[] | e] w1]; [| discriminate].
  destruct (round_trip w1) as [[[] | e] w2]; [| discriminate].
  now inversion H.
Qed.

(** A query whose round trip is not scheduled to fail succeeds. *)
Lemma query_run {A} c f (rd : World -> A) w :
  hd None (faults w) = None ->
  exists w', query c f rd w = (Ok (rd w'), w') /\ unchanged w w'
             /\ faults w' = tl (faults w) /\ clock w' = clock w
             /\ ticks w' = ticks w
             /\ trace w' = trace w ++ [EvRead c f].
Proof.
  intros Hf. unfold query, bind, emit, round_trip, read; simpl.
  destruct (faults w) as [| [d |] rest]; simpl in *; try discriminate;
    eexists; (split; [reflexivity |]); unfold unchanged; simpl; intuition.
Qed.

(** ** The date part of an ISO string *)

Example toISOString_epoch :
  Iso.toISOString 0 = "1970-01-01T00:00:00.000Z".
Proof. reflexivity. Qed.

Example toISOString_seed_job :
  Iso.toISOString 1751328000000 = "2025-07-01T00:00:00.000Z".
Proof. reflexivity. Qed.

Example toISOString_leap_day :
  Iso.toISOString 951868799999 = "2000-02-29T23:59:59.999Z".
Proof. reflexivity. Qed.

Example toISOString_before_epoch :
  Iso.toISOString (-1) = "1969-12-31T23:59:59.999Z".
Proof. reflexivity. Qed.

Example toISOString_last_four_digit_day :
  Iso.toISOString 253402300799999 = "9999-12-31T23:59:59.999Z".
Proof. reflexivity. Qed.

Example toISOString_year_10000 :
  Iso.toISOString 253402300800000 = "+010000-01-01T00:00:00.000Z".
Proof. reflexivity. Qed.

Example toISOString_year_minus_1 :
  Iso.toISOString (-62198755200000) = "-000001-01-01T00:00:00.000Z".
Proof. reflexivity. Qed.


Lemma is_digit_digit v : Iso.is_digit (Iso.digit v) = true.
Proof.
  unfold Iso.is_digit, Iso.digit.
  assert (Hk : (Z.to_nat (v mod 10) < 10)%nat).
  { pose proof (Z.mod_pos_bound v 10 ltac:(lia)). lia. }
  rewrite nat_ascii_embedding by lia.
  apply andb_true_intro; split; apply Nat.leb_le; lia.
Qed.

Lemma digit_not_T v : Ascii.eqb (Iso.digit v) "T" = false.
Proof.
  apply Ascii.eqb_neq. intros E.
  pose proof (is_digit_digit v) as H. rewrite E in H. discriminate.
Qed.

Lemma no_T_append s1 s2 : no_T s1 -> no_T s2 -> no_T (s1 ++ s2)%string.
Proof. induction s1; simpl; intuition. Qed.

Lemma no_T_pad n v : no_T (Iso.pad n v).
Proof.
  revert v; induction n as [| n IH]; intros v; [exact I |].
  change (Iso.pad (S n) v)
    with (Iso.pad n (v / 10) ++ String (Iso.digit v) EmptyString)%string.
  apply no_T_append; [apply IH |].
  split; [apply digit_not_T | exact I].
Qed.

Lemma no_T_year_string y : no_T (Iso.year_string y).
Proof.
  unfold Iso.year_string.
  destruct ((0 <=? y) && (y <=? 9999)); [apply no_T_pad |].
  destruct (y <? 0);
    (apply no_T_append; [split; [reflexivity | exact I] | apply no_T_pad]).
Qed.

Lemma no_T_hyphen : no_T "-".
Proof. split; [reflexivity | exact I]. Qed.

Lemma no_T_date_string t : no_T (Iso.date_string t).
Proof.
  unfold Iso.date_string.
  apply no_T_append; [apply no_T_year_string |].
  apply no_T_append; [apply no_T_hyphen |].
  apply no_T_append; [apply no_T_pad |].
  apply no_T_append; [apply no_T_hyphen | apply no_T_pad].
Qed.

Lemma before_T_append s r :
  no_T s -> Iso.before_T (s ++ String "T" r)%string = s.
Proof.
  induction s as [| c s IH]; intros H.
  - reflexivity.
  - destruct H as [Hc Hs].
    change (Iso.before_T (String c s ++ String "T" r)%string)
      with (if Ascii.eqb c "T" then EmptyString
            else String c (Iso.before_T (s ++ String "T" r)%string)).
    rewrite Hc. now rewrite IH.
Qed.

(** [toISOString().split('T')[0]] is the date part. *)
Lemma date_part t : Iso.before_T (Iso.toISOString t) = Iso.date_string t.
Proof.
  unfold Iso.toISOString.
  change ("T" ++ Iso.time_string t ++ "Z")%string
    with (String "T" (Iso.time_string t ++ "Z")%string).
  apply before_T_append, no_T_date_string.
Qed.

Lemma date_string_four_digit_year t :
  0 <= Iso.YearFromTime t <= 9999 ->
  Iso.is_YYYY_MM_DD (Iso.date_string t) = true.
Proof.
  intros [H0 H1]. unfold Iso.date_string, Iso.year_string.
  apply Z.leb_le in H0, H1. rewrite H0, H1.
  cbv [andb Iso.pad String.append Iso.is_YYYY_MM_DD].
  rewrite !is_digit_digit. reflexivity.
Qed.

Lemma length_append s1 s2 :
  String.length (s1 ++ s2)%string = (String.length s1 + String.length s2)%nat.
Proof. induction s1 as [| c s1 IH]; simpl; [reflexivity | now rewrite IH]. Qed.

Lemma length_pad n v : String.length (Iso.pad n v) = n.
Proof.
  revert v; induction n as [| n IH]; intros v; [reflexivity |].
  change (Iso.pad (S n) v)
    with (Iso.pad n (v / 10) ++ String (Iso.digit v) EmptyString)%string.
  rewrite length_append, IH. simpl. lia.
Qed.

Lemma date_string_expanded_year t :
  ~ 0 <= Iso.YearFromTime t <= 9999 ->
  Iso.is_YYYY_MM_DD (Iso.date_string t) = false
  /\ String.length (Iso.date_string t) = 13%nat.
Proof.
  intros H. unfold Iso.date_string, Iso.year_string.
  destruct ((0 <=? Iso.YearFromTime t) && (Iso.YearFromTime t <=? 9999)) eqn:E.
  { apply andb_prop in E as [E0 E1]. apply Z.leb_le in E0, E1. lia. }
  split.
  - destruct (Iso.YearFromTime t <? 0);
      cbv [Iso.pad String.append Iso.is_YYYY_MM_DD]; reflexivity.
  - rewrite !length_append, !length_pad.
    destruct (Iso.YearFromTime t <? 0); reflexivity.
Qed.

(** The month and the day of the month are calendar values. *)
Lemma calendar_bounds t :
  1 <= Iso.MonthFromTime t <= 12 /\ 1 <= Iso.DateFromTime t <= 31.
Proof.
  unfold Iso.MonthFromTime, Iso.DateFromTime, Iso.MonthFromDay, Iso.DateFromDay,
    Iso.mp, Iso.doy, Iso.yoe, Iso.doe.
  generalize (Iso.Day t); intros day.
  pose proof (Z.mod_pos_bound (day + 719468) 146097 ltac:(lia)) as He.
  set (e := (day + 719468) mod 146097) in *. clearbody e.
  assert (Hy : 0 <= (e - e / 1460 + e / 36524 - e / 146096) / 365 <= 399
               /\ 0 <= e - (365 * ((e - e / 1460 + e / 36524 - e / 146096) / 365)
                             + (e - e / 1460 + e / 36524 - e / 146096) / 365 / 4
                             - (e - e / 1460 + e / 36524 - e / 146096) / 365 / 100)
                  <= 365)
    by (Z.div_mod_to_equations; lia).
  set (d := e - (365 * ((e - e / 1460 + e / 36524 - e / 146096) / 365)
                 + (e - e / 1460 + e / 36524 - e / 146096) / 365 / 4
                 - (e - e / 1460 + e / 36524 - e / 146096) / 365 / 100)) in *.
  destruct Hy as [_ Hd]. clearbody d.
  destruct ((5 * d + 2) / 153 <? 10) eqn:E;
    [apply Z.ltb_lt in E | apply Z.ltb_ge in E];
    Z.div_mod_to_equations; lia.
Qed.

(** ** Inversion of runs *)

Lemma bind_Ok {A B} (m : M A) (k : A -> M B) w b w' :
  bind m k w = (Ok b, w') ->
  exists a w1, m w = (Ok a, w1) /\ k a w1 = (Ok b, w').
Proof.
  unfold bind. destruct (m w) as [[a | e] w1]; [eauto | discriminate].
Qed.

(** ** Sorting by creation time *)

Lemma insert_desc_perm j l : Permutation (insert_desc j l) (j :: l).
Proof.
  induction l as [| k l IH]; simpl.
  - apply Permutation_refl.
  - destruct (Job.createdAt k <=? Job.createdAt j).
    + apply Permutation_refl.
    + eapply Permutation_trans; [apply perm_skip, IH | apply perm_swap].
Qed.

Lemma sort_createdAt_desc_perm l : Permutation (sort_createdAt_desc l) l.
Proof.
  induction l as [| j l IH]; simpl.
  - constructor.
  - eapply Permutation_trans; [apply insert_desc_perm | now apply perm_skip].
Qed.

Lemma insert_desc_sorted j l :
  StronglySorted newer_first l -> StronglySorted newer_first (insert_desc j l).
Proof.
  induction 1 as [| k l Hs IH Hk]; simpl.
  - repeat constructor.
  - destruct (Job.createdAt k <=? Job.createdAt j) eqn:E.
    + apply Z.leb_le in E. constructor; [constructor; assumption |].
      constructor; [exact E |].
      eapply Forall_impl; [| exact Hk]. unfold newer_first. intros; lia.
    + apply Z.leb_gt in E. constructor; [exact IH |].
      eapply Permutation_Forall;
        [apply Permutation_sym, insert_desc_perm |].
      constructor; [unfold newer_first; lia | exact Hk].
Qed.

Lemma sort_createdAt_desc_sorted l :
  StronglySorted newer_first (sort_createdAt_desc l).
Proof.
  induction l as [| j l IH]; simpl; [constructor | now apply insert_desc_sorted].
Qed.

(** ** GET /api/jobs *)

Lemma find_filter {A} (p q : A -> bool) l :
  (forall x, p x = true -> q x = true) -> find p (filter q l) = find p l.
Proof.
  intros H. induction l as [| a l IH]; simpl; [reflexivity |].
  destruct (q a) eqn:Q; simpl.
  - destruct (p a); [reflexivity | exact IH].
  - destruct (p a) eqn:Pa; [| exact IH].
    apply H in Pa. congruence.
Qed.

Lemma In_ids_of i l : In (Some i) l -> In i (ids_of l).
Proof.
  unfold ids_of. intros H. apply in_flat_map.
  exists (Some i). split; [assumption | now left].
Qed.

Lemma populated_customer_in_ids docs ids ref :
  (forall i, ref = Some i -> In i ids) ->
  populated_customer (filter (Customer_matches (in_ids ids)) docs) ref
  = populated_customer docs ref.
Proof.
  intros H. destruct ref as [i |]; simpl; [| reflexivity].
  apply find_filter. intros c Hc. apply Nat.eqb_eq in Hc.
  unfold Customer_matches; simpl. rewrite andb_true_r.
  apply existsb_exists. exists i. split; [now apply H | now apply Nat.eqb_eq].
Qed.

Lemma populated_pipeline_in_ids docs ids ref :
  (forall i, ref = Some i -> In i ids) ->
  populated_pipeline (filter (Pipeline_matches (in_ids ids)) docs) ref
  = populated_pipeline docs ref.
Proof.
  intros H. destruct ref as [i |]; simpl; [| reflexivity].
  apply find_filter. intros c Hc. apply Nat.eqb_eq in Hc.
  unfold Pipeline_matches; simpl. rewrite andb_true_r.
  apply existsb_exists. exists i. split; [now apply H | now apply Nat.eqb_eq].
Qed.

Lemma format_job_Ok customers pipelines job w v w' :
  format_job customers pipelines job w = (Ok v, w') ->
  w' = w
  /\ JobView.id v = Job._id job
  /\ JobView.title v = Job.title job
  /\ JobView.currentStep v = Job.currentStep job
  /\ JobView.status v = Job.status job
  /\ JobView.progress v = Job.progress job
  /\ (exists c, populated_customer customers (Job.customerId job) = Some c
                /\ JobView.customer v = Customer.name c)
  /\ (exists p, populated_pipeline pipelines (Job.pipelineId job) = Some p
                /\ JobView.pipeline v = Pipeline.name p)
  /\ rendered_due (Job.dueDate job) (JobView.dueDate v).
Proof.
  unfold format_job, calendar_date, bind, ret, throw, rendered_due.
  destruct (populated_customer customers (Job.customerId job)) as [c |];
    [| discriminate].
  destruct (populated_pipeline pipelines (Job.pipelineId job)) as [p |];
    [| discriminate].
  destruct (Job.dueDate job) as [| | t]; try discriminate;
    intros H; inversion H; subst; simpl; rewrite ?date_part;
    repeat split; eauto.
Qed.

Lemma requireAuth_session next w u :
  session w = Some u -> requireAuth next w = next w.
Proof. intros H. unfold requireAuth, bind, get_session. now rewrite H. Qed.

(** A handler guarded by [try]/[catch] answers with the handler's response
    exactly when its body returns. *)
Lemma guarded_200 (body : M Response) msg w res w' code :
  try_catch body (fun _ => res_status_json 500 (ErrorBody msg)) w = (Ok res, w') ->
  statusCode res = code -> code <> 500%nat ->
  body w = (Ok res, w').
Proof.
  unfold try_catch. destruct (body w) as [[r | e] w1]; intros H Hc Hn.
  - exact H.
  - inversion H; subst. simpl in Hn. congruence.
Qed.

Lemma In_sorted_filter f l j :
  In j (sort_createdAt_desc (filter (Job_matches f) l)) ->
  In j l /\ Job_matches f j = true.
Proof.
  intros H. apply filter_In.
  eapply Permutation_in; [apply sort_createdAt_desc_perm | exact H].
Qed.

Lemma format_all_Ok w0 jobs :
  forall l x bs x',
    incl l jobs ->
    Array_map
      (format_job
         (filter (Customer_matches (in_ids (ids_of (map Job.customerId jobs))))
                 (Customers w0))
         (filter (Pipeline_matches (in_ids (ids_of (map Job.pipelineId jobs))))
                 (Pipelines w0))) l x = (Ok bs, x') ->
    x' = x /\ Forall2 (entry_of w0) l bs.
Proof.
  induction l as [| j l IH]; simpl; intros x bs x' Hin Hrun.
  - inversion Hrun; subst. split; [reflexivity | constructor].
  - apply bind_Ok in Hrun as (b & wa & Ha & Hrun).
    apply bind_Ok in Hrun as (bs' & wb & Hb & Hrun).
    inversion Hrun; subst.
    apply format_job_Ok in Ha as (-> & Hv).
    apply IH in Hb as [-> Hbs]; [| intros y Hy; apply Hin; now right].
    split; [reflexivity |]. constructor; [| exact Hbs].
    assert (Hj : In j jobs) by (apply Hin; now left).
    rewrite populated_customer_in_ids in Hv
      by (intros i Hi; apply In_ids_of; rewrite <- Hi; now apply in_map).
    rewrite populated_pipeline_in_ids in Hv
      by (intros i Hi; apply In_ids_of; rewrite <- Hi; now apply in_map).
    exact Hv.
Qed.

Lemma get_jobs_body_Ok w res w' :
  get_jobs_body w = (Ok res, w') ->
  unchanged w w'
  /\ exists views,
      res = {| statusCode := 200; json := JobsBody views |}
      /\ Forall2 (entry_of w)
           (sort_createdAt_desc
              (filter (Job_matches (owned_by (session w))) (Jobs w)))
           views.
Proof.
  unfold get_jobs_body. intros H.
  apply bind_Ok in H as (userId & w0 & H0 & H).
  assert (userId = session w /\ w0 = w) as [-> ->]
    by (unfold get_session in H0; now inversion H0).
  clear H0.
  apply bind_Ok in H as (jobs & w1 & H1 & H).
  apply bind_Ok in H as (customers & w2 & H2 & H).
  apply bind_Ok in H as (pipelines & w3 & H3 & H).
  apply bind_Ok in H as (formatted & w4 & H4 & H).
  unfold res_json, res_status_json, ret in H.
  assert (res = {| statusCode := 200; json := JobsBody formatted |} /\ w4 = w')
    as [-> ->] by now inversion H.
  clear H.
  apply query_Ok in H1 as [-> U1].
  apply query_Ok in H2 as [-> U2].
  apply query_Ok in H3 as [-> U3].
  pose proof (unchanged_trans _ _ _ U1 U2) as U12.
  pose proof (unchanged_trans _ _ _ U12 U3) as U13.
  destruct U1 as (_ & _ & _ & J1 & _).
  destruct U12 as (_ & _ & C2 & _).
  pose proof U13 as (_ & P3 & _).
  rewrite J1, C2, P3 in H4.
  apply format_all_Ok in H4 as [-> HF]; [| apply incl_refl].
  split; [assumption | eauto].
Qed.

Lemma get_jobs_200 w u views w' :
  session w = Some u ->
  handle GET_api_jobs w = ({| statusCode := 200; json := JobsBody views |}, w') ->
  unchanged w w'
  /\ Forall2 (entry_of w)
       (sort_createdAt_desc (filter (Job_matches (owned_by (Some u))) (Jobs w)))
       views.
Proof.
  intros Hs H. unfold handle in H. simpl in H. unfold get_jobs in H.
  rewrite (requireAuth_session _ _ _ Hs) in H.
  destruct (try_catch get_jobs_body _ w) as [[res | e] w1] eqn:E.
  - inversion H; subst.
    eapply guarded_200 in E; [| reflexivity | discriminate].
    apply get_jobs_body_Ok in E as (U & vs & Hvs & HF).
    inversion Hvs; subst. rewrite Hs in HF. now split.
  - unfold console_write in H. inversion H.
Qed.

Lemma owned_by_matches u j :
  Job_matches (owned_by (Some u)) j = true <-> owned u j.
Proof.
  unfold Job_matches, owned_by, owned, id_is, opt_eqb; simpl.
  rewrite !andb_true_r.
  destruct (Job.userId j) as [i |]; [| split; discriminate].
  rewrite Nat.eqb_eq. split; congruence.
Qed.

Lemma NoDup_map_injective {A B} (f : A -> B) l x y :
  NoDup (map f l) -> In x l -> In y l -> f x = f y -> x = y.
Proof.
  induction l as [| a l IH]; simpl; intros Hnd Hx Hy E; [contradiction |].
  inversion Hnd as [| b bs Hnotin Hnd']; subst.
  destruct Hx as [Hx | Hx], Hy as [Hy | Hy]; subst; auto.
  - exfalso. apply Hnotin. rewrite E. now apply in_map.
  - exfalso. apply Hnotin. rewrite <- E. now apply in_map.
Qed.

(** C2.  GET /api/jobs lists exactly the jobs whose owner reference is the
    session user: every listed job is a stored job owned by that user, and
    no job owned by another user is listed; with distinct job ids, no entry
    carries the id of another user's job. *)
Theorem jobs_listing_owner_only :
  forall w u views w',
    session w = Some u ->
    handle GET_api_jobs w
    = ({| statusCode := 200; json := JobsBody views |}, w') ->
    exists listed,
      Forall2 (entry_of w) listed views
      /\ (forall j, In j listed <-> In j (Jobs w) /\ owned u j)
      /\ (forall u' j, u' <> u -> owned u' j -> ~ In j listed)
      /\ (NoDup (map Job._id (Jobs w)) ->
          forall u' j v, u' <> u -> In j (Jobs w) -> owned u' j ->
                         In v views -> JobView.id v <> Job._id j).
Proof.
  intros w u views w' Hs H.
  apply get_jobs_200 with (u := u) in H as [_ HF]; [| exact Hs].
  set (listed := sort_createdAt_desc
                   (filter (Job_matches (owned_by (Some u))) (Jobs w))) in *.
  assert (Hl : forall j, In j listed <-> In j (Jobs w) /\ owned u j).
  { intros j. unfold listed. rewrite <- owned_by_matches, <- filter_In.
    split; apply Permutation_in;
      [| apply Permutation_sym]; apply sort_createdAt_desc_perm. }
  exists listed. split; [exact HF |]. split; [exact Hl |]. split.
  - intros u' j Hu Ho Hin. apply Hl in Hin as [_ Ho']. unfold owned in *.
    congruence.
  - intros Hnd u' j v Hu Hj Ho Hv Heq.
    assert (Hex : exists k, In k listed /\ JobView.id v = Job._id k).
    { clear - HF Hv. induction HF as [| k v' l vs Hkv _ IH]; [contradiction |].
      destruct Hv as [-> | Hv].
      - exists k. split; [now left | apply Hkv].
      - destruct (IH Hv) as (k' & Hk' & E). exists k'. split; [now right | exact E]. }
    destruct Hex as (k & Hk & Ek). apply Hl in Hk as [Hk Hok].
    assert (k = j)
      by (eapply NoDup_map_injective; eauto; congruence).
    subst. unfold owned in *. congruence.
Qed.

Lemma jobs_listing_owner_only_witness :
  exists listed,
    Forall2 (entry_of (set_session (Some 0%nat) two_tenants)) listed
      [ {| JobView.id := 3%nat; JobView.title := Some "E-commerce Website";
           JobView.customer := Some "ABC Corp";
           JobView.pipeline := Some "Web Development";
           JobView.currentStep := Some "Design"; JobView.status := "active";
           JobView.dueDate := Some "2025-07-01"; JobView.progress := 60 |} ]
    /\ (forall j, In j listed
                  <-> In j (Jobs (set_session (Some 0%nat) two_tenants))
                      /\ owned 0%nat j)
    /\ (forall u' j, u' <> 0%nat -> owned u' j -> ~ In j listed)
    /\ (NoDup (map Job._id (Jobs (set_session (Some 0%nat) two_tenants))) ->
        forall u' j v, u' <> 0%nat ->
                       In j (Jobs (set_session (Some 0%nat) two_tenants)) ->
                       owned u' j ->
                       In v [ {| JobView.id := 3%nat;
                                 JobView.title := Some "E-commerce Website";
                                 JobView.customer := Some "ABC Corp";
                                 JobView.pipeline := Some "Web Development";
                                 JobView.currentStep := Some "Design";
                                 JobView.status := "active";
                                 JobView.dueDate := Some "2025-07-01";
                                 JobView.progress := 60 |} ] ->
                       JobView.id v <> Job._id j).
Proof.
  apply (jobs_listing_owner_only
           (set_session (Some 0%nat) two_tenants) 0%nat _
           (snd (handle GET_api_jobs (set_session (Some 0%nat) two_tenants))));
    reflexivity.
Defined.

(** ** Writing a job *)

Lemma Job_save_run j w :
  Job_invalid j = [] -> hd None (faults w) = None ->
  exists w',
    Job_save j w = (Ok tt, w')
    /\ Jobs w' = Jobs w ++ [j]
    /\ Users w' = Users w /\ Pipelines w' = Pipelines w
    /\ Customers w' = Customers w
    /\ session w' = session w /\ console w' = console w
    /\ trace w' = trace w ++ [EvInsert CJobs (Job._id j)]
    /\ faults w' = tl (faults w).
Proof.
  intros Hv Hf. unfold Job_save. rewrite Hv.
  cbv [validate bind ret round_trip read put_Jobs emit].
  destruct (faults w) as [| [d |] rest] eqn:Ef; simpl in *; try discriminate;
    eexists; (split; [reflexivity |]); simpl; rewrite ?Ef; intuition.
Qed.

Lemma missing_string_present path s :
  s <> EmptyString -> missing_string path (Some s) = [].
Proof.
  intros H. unfold missing_string.
  destruct (String.eqb s EmptyString) eqn:E; [| reflexivity].
  apply String.eqb_eq in E. contradiction.
Qed.

(** C10.  POST /api/jobs stores the references of the request body as they
    are, whatever customer or pipeline they name and whoever owns it; only
    the job's own owner is the session user, and the job starts active at
    progress 0, whatever [status] and [progress] the body carries. *)
Theorem post_jobs_keeps_references :
  forall w u b title step c p,
    session w = Some u ->
    JobBody.title b = Some title -> title <> EmptyString ->
    JobBody.currentStep b = Some step -> step <> EmptyString ->
    JobBody.customerId b = Some c ->
    JobBody.pipelineId b = Some p ->
    (forall d, JobBody.dueDate b = Some d -> new_Date d <> InvalidDate) ->
    hd None (faults w) = None ->
    exists job w',
      handle (POST_api_jobs b) w
      = ({| statusCode := 201; json := JobCreated (Job._id job) |}, w')
      /\ Jobs w' = Jobs w ++ [job]
      /\ Customers w' = Customers w /\ Pipelines w' = Pipelines w
      /\ Job.customerId job = Some c
      /\ Job.pipelineId job = Some p
      /\ Job.userId job = Some u
      /\ Job.status job = "active"
      /\ Job.progress job = 0.
Proof.
  intros w u b title step c p Hs Ht Htne Hst Hstne Hc Hp Hd Hf.
  set (job := {| Job._id := nextId w; Job.title := JobBody.title b;
                 Job.customerId := JobBody.customerId b;
                 Job.pipelineId := JobBody.pipelineId b;
                 Job.currentStep := JobBody.currentStep b;
                 Job.status := "active";
                 Job.dueDate := match JobBody.dueDate b with
                                | Some dueDate => new_Date dueDate
                                | None => NoDate
                                end;
                 Job.progress := 0; Job.userId := Some u;
                 Job.createdAt := clock w |}).
  assert (Hvalid : Job_invalid job = []).
  { unfold Job_invalid, job; simpl. rewrite Ht, Hst, Hc, Hp.
    rewrite !missing_string_present by assumption. simpl.
    destruct (JobBody.dueDate b) as [d |] eqn:E; [| reflexivity].
    specialize (Hd d eq_refl). destruct (new_Date d); try reflexivity.
    contradiction. }
  unfold handle. simpl. unfold post_jobs.
  rewrite (requireAuth_session _ _ _ Hs).
  unfold try_catch, post_jobs_body.
  unfold bind at 1. unfold get_session at 1. rewrite Hs.
  unfold bind at 1. unfold new_Job at 1.
  cbv [bind new_ObjectId Date_now ret or_default].
  cbn [Users Pipelines Customers Jobs nextId clock ticks faults session
       console trace].
  fold job.
  match goal with
  | |- context [Job_save job ?w1] =>
      destruct (Job_save_run job w1 Hvalid) as (w' & Hrun & HJ & _ & HP & HC & _);
        [exact Hf |]
  end.
  rewrite Hrun. exists job, w'. unfold res_status_json, ret.
  split; [reflexivity |]. simpl in HJ, HP, HC.
  rewrite <- Hc, <- Hp. repeat split; assumption || reflexivity.
Qed.

Lemma post_jobs_keeps_references_witness :
  exists job w',
    handle (POST_api_jobs foreign_references) (set_session (Some 10%nat) two_tenants)
    = ({| statusCode := 201; json := JobCreated (Job._id job) |}, w')
    /\ Jobs w' = Jobs (set_session (Some 10%nat) two_tenants) ++ [job]
    /\ Customers w' = Customers (set_session (Some 10%nat) two_tenants)
    /\ Pipelines w' = Pipelines (set_session (Some 10%nat) two_tenants)
    /\ Job.customerId job = Some 1%nat
    /\ Job.pipelineId job = Some 2%nat
    /\ Job.userId job = Some 10%nat
    /\ Job.status job = "active"
    /\ Job.progress job = 0.
Proof.
  apply (post_jobs_keeps_references
           (set_session (Some 10%nat) two_tenants) 10%nat foreign_references
           "Borrowed" "Plan" 1%nat 2%nat);
    try reflexivity; try discriminate.
Defined.

(** ** Owner filters of the nested counts *)


(** ** The unique index of the User schema *)

Lemma User_save_run u w :
  User_invalid u = [] -> hd None (faults w) = None ->
  githubId_taken u (Users w) = false ->
  exists w',
    User_save u w = (Ok tt, w')
    /\ Users w' = Users w ++ [u]
    /\ Pipelines w' = Pipelines w /\ Customers w' = Customers w
    /\ Jobs w' = Jobs w /\ session w' = session w /\ console w' = console w
    /\ nextId w' = nextId w /\ clock w' = clock w /\ ticks w' = ticks w
    /\ faults w' = tl (faults w)
    /\ trace w' = trace w ++ [EvInsert CUsers (User._id u)].
Proof.
  intros Hv Hf Hg. unfold User_save. rewrite Hv.
  cbv [validate bind ret round_trip read put_Users emit].
  destruct (faults w) as [| [d |] rest] eqn:Ef; simpl in *; try discriminate;
    rewrite Hg; eexists; (split; [reflexivity |]); simpl; rewrite ?Ef;
    intuition.
Qed.




(** ** GET /api/dashboard/stats *)

Lemma Promise_all_cons_Ok {A} (m : M A) ms w l w' :
  Promise_all (m :: ms) w = (Ok l, w') ->
  exists a l' w1,
    m w = (Ok a, w1) /\ Promise_all ms w1 = (Ok l', w') /\ l = a :: l'.
Proof.
  simpl. destruct (m w) as [o1 w1] eqn:E1.
  destruct (Promise_all ms w1) as [o2 w2] eqn:E2.
  destruct o1 as [a | e], o2 as [l' | e']; intros H; inversion H; subst.
  exists a, l', w1. repeat split; assumption.
Qed.

Lemma Promise_all_nil_Ok {A} w (l : list A) w' :
  Promise_all [] w = (Ok l, w') -> l = [] /\ w' = w.
Proof. simpl. intros H; inversion H; auto. Qed.

Lemma active_filter_matches u j :
  Job_matches
    {| by_id := None; by_username := None; by_userId := Some u;
       by_customerId := None; by_pipelineId := None;
       by_status := Some "active"; by_dueDate := None |} j
  = active_job_of u j.
Proof.
  unfold Job_matches, active_job_of; simpl. now rewrite !andb_true_r.
Qed.

Lemma due_filter_matches u lo hi j :
  Job_matches
    {| by_id := None; by_username := None; by_userId := Some u;
       by_customerId := None; by_pipelineId := None;
       by_status := Some "active"; by_dueDate := Some (lo, hi) |} j
  = active_job_of u j && due_between lo hi j.
Proof.
  unfold Job_matches, active_job_of, due_between; simpl.
  now rewrite !andb_true_r.
Qed.



Lemma filter_length_mono {A} (p q : A -> bool) l :
  (forall x, p x = true -> q x = true) ->
  (List.length (filter p l) <= List.length (filter q l))%nat.
Proof.
  intros H. induction l as [| a l IH]; simpl; [lia |].
  destruct (p a) eqn:P.
  - rewrite (H a P). simpl. lia.
  - destruct (q a); simpl; lia.
Qed.

Lemma Date_now_run w :
  exists w1, Date_now w = (Ok (clock w), w1)
             /\ unchanged w w1 /\ clock w1 = second_read w
             /\ ticks w1 = tl (ticks w) /\ faults w1 = faults w
             /\ trace w1 = trace w.
Proof.
  eexists. split; [reflexivity |]. unfold unchanged, second_read; simpl.
  intuition.
Qed.

Lemma dashboard_stats_body_Ok w u res w' :
  session w = Some u ->
  dashboard_stats_body w = (Ok res, w') ->
  res = {| statusCode := 200;
           json :=
             StatsBody
               {| Stats.activeJobs :=
                    List.length (filter (active_job_of u) (Jobs w));
                  Stats.totalCustomers :=
                    List.length (filter (Customer_matches (owned_by (Some u)))
                                        (Customers w));
                  Stats.totalPipelines :=
                    List.length (filter (Pipeline_matches (owned_by (Some u)))
                                        (Pipelines w));
                  Stats.jobsDueThisWeek :=
                    List.length
                      (filter (fun j => active_job_of u j
                                        && due_between (clock w)
                                             (second_read w + week) j)
                              (Jobs w)) |} |}
  /\ unchanged w w'.
Proof.
  intros Hs H. unfold dashboard_stats_body in H.
  apply bind_Ok in H as (userId & w0 & H0 & H).
  assert (userId = Some u /\ w0 = w) as [-> ->]
    by (unfold get_session in H0; rewrite Hs in H0; now inversion H0).
  clear H0.
  apply bind_Ok in H as (gte & w1 & H1 & H).
  destruct (Date_now_run w) as (w1' & R1 & U1 & C1 & _).
  rewrite R1 in H1. inversion H1; subst gte w1'; clear H1.
  apply bind_Ok in H as (now & w2 & H2 & H).
  destruct (Date_now_run w1) as (w2' & R2 & U2 & _).
  rewrite R2 in H2. inversion H2; subst now w2'; clear H2.
  apply bind_Ok in H as (counts & w3 & H3 & H).
  apply Promise_all_cons_Ok in H3 as (a1 & l1 & x1 & Q1 & H3 & ->).
  apply Promise_all_cons_Ok in H3 as (a2 & l2 & x2 & Q2 & H3 & ->).
  apply Promise_all_cons_Ok in H3 as (a3 & l3 & x3 & Q3 & H3 & ->).
  apply Promise_all_cons_Ok in H3 as (a4 & l4 & x4 & Q4 & H3 & ->).
  apply Promise_all_nil_Ok in H3 as [-> ->].
  apply query_Ok in Q1 as [-> V1].
  apply query_Ok in Q2 as [-> V2].
  apply query_Ok in Q3 as [-> V3].
  apply query_Ok in Q4 as [-> V4].
  pose proof (unchanged_trans _ _ _ U1 U2) as T2.
  pose proof (unchanged_trans _ _ _ T2 V1) as T3.
  pose proof (unchanged_trans _ _ _ T3 V2) as T4.
  pose proof (unchanged_trans _ _ _ T4 V3) as T5.
  pose proof (unchanged_trans _ _ _ T5 V4) as T6.
  unfold res_json, res_status_json, ret in H. inversion H; subst res w'.
  split; [| exact T6]. simpl.
  destruct T3 as (_ & _ & _ & J3 & _).
  destruct T4 as (_ & _ & K4 & _).
  destruct T5 as (_ & P5 & _).
  pose proof T6 as (_ & _ & _ & J6 & _).
  rewrite J3, K4, P5, J6, C1.
  rewrite (filter_ext _ _ (active_filter_matches u)).
  rewrite (filter_ext _ _ (due_filter_matches u (clock w) (second_read w + week))).
  reflexivity.
Qed.

Lemma Promise_all_cons_run {A} (m : M A) ms w a w1 l w2 :
  m w = (Ok a, w1) -> Promise_all ms w1 = (Ok l, w2) ->
  Promise_all (m :: ms) w = (Ok (a :: l), w2).
Proof. intros H1 H2. simpl. now rewrite H1, H2. Qed.




(** ** The job listing: order, references, due dates *)

(** C8 as the claim states it fails: a job due in the year 10000 is listed
    with the expanded-year date of [toISOString], which is not of the form
    YYYY-MM-DD. *)
Lemma due_date_beyond_year_9999 :
  (exists views v,
      fst (handle GET_api_jobs far_future_world)
      = {| statusCode := 200; json := JobsBody views |}
      /\ In v views
      /\ JobView.title v = Some "Long-term archive"
      /\ JobView.dueDate v = Some "+010000-01-01")
  /\ Iso.is_YYYY_MM_DD "+010000-01-01" = false.
Proof.
  split; [| reflexivity].
  eexists. eexists. split; [vm_compute; reflexivity |].
  split; [right; right; right; left; reflexivity |].
  split; reflexivity.
Qed.

(** C8 (amended).  The listing is the session user's jobs sorted by creation
    time, newest first; each entry's customer and pipeline are the names of
    the records the job references; the due date is null when unset and
    otherwise the UTC date part of the ISO string, which has the form
    YYYY-MM-DD exactly when the year lies in 0..9999. *)
Theorem jobs_listing_sorted_and_resolved :
  forall w u views w',
    session w = Some u ->
    handle GET_api_jobs w
    = ({| statusCode := 200; json := JobsBody views |}, w') ->
    exists listed,
      Permutation listed (filter (Job_matches (owned_by (Some u))) (Jobs w))
      /\ StronglySorted newer_first listed
      /\ map Job._id listed = map JobView.id views
      /\ Forall2 (resolved_entry w) listed views.
Proof.
  intros w u views w' Hs H.
  apply get_jobs_200 with (u := u) in H as [_ HF]; [| exact Hs].
  eexists. split; [apply sort_createdAt_desc_perm |].
  split; [apply sort_createdAt_desc_sorted |].
  split.
  - induction HF as [| j v l vs Hjv _ IH]; [reflexivity |].
    simpl. rewrite IH. f_equal. symmetry. apply Hjv.
  - eapply Forall2_impl; [| exact HF].
    intros j v (_ & _ & _ & _ & _ & Hc & Hp & Hd).
    unfold resolved_entry. split; [exact Hc |]. split; [exact Hp |].
    unfold rendered_due in Hd. destruct (Job.dueDate j) as [| | t]; auto.
    split; [exact Hd |].
    pose proof (calendar_bounds t) as [Hm Hday].
    split; [exact Hm |]. split; [exact Hday |].
    split; [apply date_string_four_digit_year |].
    intros Hy. now apply date_string_expanded_year.
Qed.

Lemma jobs_listing_sorted_and_resolved_witness :
  session seeded_world = Some 0%nat
  /\ exists listed,
      Permutation listed
        (filter (Job_matches (owned_by (Some 0%nat))) (Jobs seeded_world))
      /\ StronglySorted newer_first listed
      /\ map Job._id listed = map JobView.id seeded_listing
      /\ Forall2 (resolved_entry seeded_world) listed seeded_listing.
Proof.
  split; [reflexivity |].
  apply (jobs_listing_sorted_and_resolved seeded_world 0%nat seeded_listing
           (snd (handle GET_api_jobs seeded_world)));
    [reflexivity | vm_compute; reflexivity].
Defined.

(** ** Failures are not swallowed, and not logged, by the guarded routes *)

Lemma failfast_pure {A} (m : M A) :
  (forall w, exists o, m w = (o, w)) -> failfast m.
Proof.
  intros Hm w o w' H. destruct (Hm w) as [o' E]. rewrite E in H.
  inversion H; subst. exists []. split; [now rewrite app_nil_r | constructor].
Qed.

Lemma failfast_ret {A} (a : A) : failfast (ret a).
Proof. apply failfast_pure. intros w. eexists. reflexivity. Qed.

Lemma failfast_throw {A} e : failfast (@throw A e).
Proof. apply failfast_pure. intros w. eexists. reflexivity. Qed.

Lemma failfast_get_session : failfast get_session.
Proof. apply failfast_pure. intros w. eexists. reflexivity. Qed.

Lemma failfast_read {A} (f : World -> A) : failfast (read f).
Proof. apply failfast_pure. intros w. eexists. reflexivity. Qed.

Lemma failfast_silent {A} (m : M A) :
  (forall w o w', m w = (o, w') -> trace w' = trace w) -> failfast m.
Proof.
  intros Hm w o w' H. apply Hm in H. exists [].
  split; [now rewrite app_nil_r | constructor].
Qed.

Lemma failfast_Date_now : failfast Date_now.
Proof. apply failfast_silent. intros w o w' H. now run_prim H. Qed.

Lemma failfast_new_ObjectId : failfast new_ObjectId.
Proof. apply failfast_silent. intros w o w' H. now run_prim H. Qed.

Lemma failfast_put_Users l : failfast (put_Users l).
Proof. apply failfast_silent. intros w o w' H. now run_prim H. Qed.

Lemma failfast_put_Pipelines l : failfast (put_Pipelines l).
Proof. apply failfast_silent. intros w o w' H. now run_prim H. Qed.

Lemma failfast_put_Customers l : failfast (put_Customers l).
Proof. apply failfast_silent. intros w o w' H. now run_prim H. Qed.

Lemma failfast_put_Jobs l : failfast (put_Jobs l).
Proof. apply failfast_silent. intros w o w' H. now run_prim H. Qed.

Lemma failfast_emit ev : ~ is_failure ev -> failfast (emit ev).
Proof.
  intros Hev w o w' H. apply emit_trace in H as (_ & Ht & _).
  exists [ev]. split; [exact Ht | intros; constructor; auto].
Qed.

Lemma failfast_fail_store {A} e : failfast (@fail_store A e).
Proof.
  intros w o w' H. run_prim H. eexists. split; [reflexivity |].
  intros a Ha. discriminate.
Qed.

Lemma failfast_round_trip : failfast round_trip.
Proof.
  intros w o w' H. apply round_trip_cases in H as (_ & _ & _ & _ & H).
  destruct H as [(-> & Ht & _) | (d & -> & Ht & _)].
  - exists []. split; [now rewrite app_nil_r | constructor].
  - eexists. split; [exact Ht |]. intros a Ha. discriminate.
Qed.

Lemma failfast_bind {A B} (m : M A) (k : A -> M B) :
  failfast m -> (forall a, failfast (k a)) -> failfast (bind m k).
Proof.
  intros Hm Hk w o w' H. unfold bind in H.
  destruct (m w) as [[a | e] w1] eqn:E.
  - destruct (Hm _ _ _ E) as (e1 & T1 & C1).
    destruct (Hk a _ _ _ H) as (e2 & T2 & C2).
    exists (e1 ++ e2). split; [rewrite T2, T1; now rewrite app_assoc |].
    intros b Hb. apply Forall_app. split; [eapply C1; eauto | eapply C2; eauto].
  - inversion H; subst. destruct (Hm _ _ _ E) as (e1 & T1 & _).
    exists e1. split; [exact T1 |]. intros b Hb. discriminate.
Qed.

Lemma failfast_Promise_all {A} (ms : list (M A)) :
  Forall failfast ms -> failfast (Promise_all ms).
Proof.
  induction 1 as [| m ms Hm _ IH]; intros w o w' H; simpl in H.
  - inversion H; subst. exists []. split; [now rewrite app_nil_r | constructor].
  - destruct (m w) as [o1 w1] eqn:E1.
    destruct (Promise_all ms w1) as [o2 w2] eqn:E2.
    destruct (Hm _ _ _ E1) as (e1 & T1 & C1).
    destruct (IH _ _ _ E2) as (e2 & T2 & C2).
    assert (w' = w2) by (destruct o1, o2; inversion H; reflexivity). subst w'.
    exists (e1 ++ e2). split; [rewrite T2, T1; now rewrite app_assoc |].
    intros l Hl. destruct o1 as [a |], o2 as [l' |]; subst; try discriminate.
    apply Forall_app. split; [eapply C1; eauto | eapply C2; eauto].
Qed.

Lemma failfast_Promise_all_map {A B} (f : A -> M B) (l : list A) :
  (forall a, failfast (f a)) -> failfast (Promise_all (map f l)).
Proof.
  intros Hf. apply failfast_Promise_all. apply Forall_forall.
  intros m Hin. apply in_map_iff in Hin as [a [<- _]]. apply Hf.
Qed.

Lemma failfast_Array_map {A B} (f : A -> M B) (l : list A) :
  (forall a, failfast (f a)) -> failfast (Array_map f l).
Proof.
  intros Hf. induction l as [| a l IH]; simpl.
  - apply failfast_ret.
  - apply failfast_bind; [apply Hf | intros b].
    apply failfast_bind; [apply IH | intros bs]. apply failfast_ret.
Qed.

Create HintDb failfast.

#[local] Hint Resolve failfast_Date_now failfast_new_ObjectId failfast_put_Users
  failfast_put_Pipelines failfast_put_Customers failfast_put_Jobs
  failfast_fail_store failfast_round_trip failfast_get_session : failfast.

Ltac ff_step :=
  first
    [ solve [auto with failfast]
    | match goal with
      | |- forall _, _ => intro
      | |- failfast (bind _ _) => apply failfast_bind
      | |- failfast (ret _) => apply failfast_ret
      | |- failfast (res_json _) => apply failfast_ret
      | |- failfast (res_status_json _ _) => apply failfast_ret
      | |- failfast (throw _) => apply failfast_throw
      | |- failfast (read _) => apply failfast_read
      | |- failfast (emit _) => apply failfast_emit; simpl; tauto
      | |- failfast (Promise_all (map _ _)) => apply failfast_Promise_all_map
      | |- failfast (Promise_all _) =>
          apply failfast_Promise_all;
          repeat first [apply Forall_nil | apply Forall_cons]
      | |- failfast (Array_map _ _) => apply failfast_Array_map
      | |- failfast (match ?x with _ => _ end) => destruct x
      end ].

Ltac ff := repeat ff_step.

Lemma failfast_query {A} c f (rd : World -> A) : failfast (query c f rd).
Proof. unfold query. ff. Qed.

Lemma failfast_validate paths : failfast (validate paths).
Proof. unfold validate. ff. Qed.

#[local] Hint Resolve failfast_query failfast_validate : failfast.

Lemma failfast_Job_save j : failfast (Job_save j).
Proof. unfold Job_save. ff. Qed.

Lemma failfast_Customer_save c : failfast (Customer_save c).
Proof. unfold Customer_save. ff. Qed.

Lemma failfast_Pipeline_save p : failfast (Pipeline_save p).
Proof. unfold Pipeline_save. ff. Qed.

Lemma failfast_User_save u : failfast (User_save u).
Proof. unfold User_save. ff. Qed.

#[local] Hint Resolve failfast_Job_save failfast_Customer_save
  failfast_Pipeline_save failfast_User_save : failfast.

Lemma obeys_quiet_emit ev : obeys quiet (emit ev).
Proof. intros w o w' H. now run_prim H. Qed.

Lemma obeys_quiet_fail_store {A} e : obeys quiet (@fail_store A e).
Proof. intros w o w' H. now run_prim H. Qed.

Lemma obeys_quiet_round_trip : obeys quiet round_trip.
Proof.
  intros w o w' H. apply round_trip_cases in H as (U & _). apply U.
Qed.

Lemma obeys_quiet_Date_now : obeys quiet Date_now.
Proof. intros w o w' H. now run_prim H. Qed.

Lemma obeys_quiet_new_ObjectId : obeys quiet new_ObjectId.
Proof. intros w o w' H. now run_prim H. Qed.

Lemma obeys_quiet_put_Users l : obeys quiet (put_Users l).
Proof. intros w o w' H. now run_prim H. Qed.

Lemma obeys_quiet_put_Pipelines l : obeys quiet (put_Pipelines l).
Proof. intros w o w' H. now run_prim H. Qed.

Lemma obeys_quiet_put_Customers l : obeys quiet (put_Customers l).
Proof. intros w o w' H. now run_prim H. Qed.

Lemma obeys_quiet_put_Jobs l : obeys quiet (put_Jobs l).
Proof. intros w o w' H. now run_prim H. Qed.

#[local] Hint Resolve obeys_quiet_emit obeys_quiet_fail_store
  obeys_quiet_round_trip obeys_quiet_Date_now obeys_quiet_new_ObjectId
  obeys_quiet_put_Users obeys_quiet_put_Pipelines obeys_quiet_put_Customers
  obeys_quiet_put_Jobs : frame.

Lemma obeys_quiet_query {A} c f (rd : World -> A) : obeys quiet (query c f rd).
Proof. unfold query. frame. Qed.

Lemma obeys_quiet_validate paths : obeys quiet (validate paths).
Proof. unfold validate. frame. Qed.

#[local] Hint Resolve obeys_quiet_query obeys_quiet_validate : frame.







(** ** The seeder and the login *)

Lemma obeys_session_kept_emit ev :
  not_session_event ev -> obeys session_kept (emit ev).
Proof.
  intros Hev w o w' H. apply emit_trace in H as (_ & Ht & U & _).
  split; [apply U |]. exists [ev]. split; [exact Ht | now constructor].
Qed.

Lemma session_kept_silent {A} (m : M A) :
  (forall w o w', m w = (o, w') -> session w' = session w /\ trace w' = trace w) ->
  obeys session_kept m.
Proof.
  intros Hm w o w' H. apply Hm in H as [Hs Ht]. split; [exact Hs |].
  exists []. split; [now rewrite app_nil_r | constructor].
Qed.

Lemma obeys_session_kept_fail_store {A} e : obeys session_kept (@fail_store A e).
Proof.
  intros w o w' H. run_prim H. split; [reflexivity |].
  eexists. split; [reflexivity | repeat constructor].
Qed.

Lemma obeys_session_kept_round_trip : obeys session_kept round_trip.
Proof.
  intros w o w' H. apply round_trip_cases in H as (U & _ & _ & _ & H).
  split; [apply U |].
  destruct H as [(_ & Ht & _) | (d & _ & Ht & _)].
  - exists []. split; [now rewrite app_nil_r | constructor].
  - eexists. split; [exact Ht | repeat constructor].
Qed.

Lemma obeys_session_kept_Date_now : obeys session_kept Date_now.
Proof. apply session_kept_silent. intros w o w' H. now run_prim H. Qed.

Lemma obeys_session_kept_new_ObjectId : obeys session_kept new_ObjectId.
Proof. apply session_kept_silent. intros w o w' H. now run_prim H. Qed.

Lemma obeys_session_kept_console_write l : obeys session_kept (console_write l).
Proof. apply session_kept_silent. intros w o w' H. now run_prim H. Qed.

Lemma obeys_session_kept_put_Users l : obeys session_kept (put_Users l).
Proof. apply session_kept_silent. intros w o w' H. now run_prim H. Qed.

Lemma obeys_session_kept_put_Pipelines l : obeys session_kept (put_Pipelines l).
Proof. apply session_kept_silent. intros w o w' H. now run_prim H. Qed.

Lemma obeys_session_kept_put_Customers l : obeys session_kept (put_Customers l).
Proof. apply session_kept_silent. intros w o w' H. now run_prim H. Qed.

Lemma obeys_session_kept_put_Jobs l : obeys session_kept (put_Jobs l).
Proof. apply session_kept_silent. intros w o w' H. now run_prim H. Qed.

#[local] Hint Resolve obeys_session_kept_emit obeys_session_kept_fail_store
  obeys_session_kept_round_trip obeys_session_kept_Date_now
  obeys_session_kept_new_ObjectId obeys_session_kept_console_write
  obeys_session_kept_put_Users obeys_session_kept_put_Pipelines
  obeys_session_kept_put_Customers obeys_session_kept_put_Jobs : frame.

#[local] Hint Extern 1 (not_session_event _) => exact I : frame.

Lemma obeys_session_kept_validate paths : obeys session_kept (validate paths).
Proof. unfold validate. frame. Qed.

#[local] Hint Resolve obeys_session_kept_validate : frame.

Lemma createSampleData_session_kept userId :
  obeys session_kept (createSampleData userId).
Proof.
  unfold createSampleData, sample_job, new_Pipeline, new_Customer, new_Job,
    Pipeline_save, Customer_save, Job_save, console_log, console_error.
  simpl map. frame.
Qed.

Lemma ends_logging_bind {A B} line (m : M A) (k : A -> M B) :
  obeys quiet m -> (forall a, ends_logging line (k a)) ->
  ends_logging line (bind m k).
Proof.
  intros Hm Hk w o w' H. unfold bind in H.
  destruct (m w) as [[a | e] w1] eqn:E.
  - apply Hm in E. apply Hk in H. unfold quiet in E. now rewrite E in H.
  - inversion H; subst. eapply Hm; eauto.
Qed.

Lemma ends_logging_console_write line : ends_logging line (console_write line).
Proof. intros w o w' H. now run_prim H. Qed.

(** The seeder never throws, leaves the session alone, and ends with one
    console line: the success line when every save went through, the error
    line otherwise. *)
Lemma createSampleData_spec userId w o w' :
  createSampleData userId w = (o, w') ->
  o = Ok tt
  /\ session w' = session w
  /\ exists evs,
      trace w' = trace w ++ evs
      /\ Forall not_session_event evs
      /\ ((Forall (fun ev => ~ is_failure ev) evs
           /\ console w'
              = console w ++ [{| stream := Stdout;
                                 text := "Sample data created for user:";
                                 arg := LogId userId |}])
          \/ (exists e,
                 console w'
                 = console w ++ [{| stream := Stderr;
                                    text := "Error creating sample data:";
                                    arg := LogError e |}])).
Proof.
  intros H.
  pose proof (createSampleData_session_kept userId _ _ _ H) as [Hs (evs & Ht & Hev)].
  unfold createSampleData in H.
  match type of H with
  | try_catch ?b _ _ = _ => set (body := b) in H
  end.
  assert (Hff : failfast body).
  { subst body.
    unfold sample_job, new_Pipeline, new_Customer, new_Job, console_log,
      console_write.
    simpl map. ff.
    apply failfast_silent. intros x ox x' Hx. now inversion Hx. }
  assert (Hlog : ends_logging {| stream := Stdout;
                                 text := "Sample data created for user:";
                                 arg := LogId userId |} body).
  { subst body.
    unfold sample_job, new_Pipeline, new_Customer, new_Job, Pipeline_save,
      Customer_save, Job_save, console_log.
    simpl map.
    repeat (apply ends_logging_bind; [solve [frame] | intro]).
    apply ends_logging_console_write. }
  unfold try_catch in H. destruct (body w) as [[[] | e] w1] eqn:E.
  - inversion H; subst. split; [reflexivity |]. split; [exact Hs |].
    exists evs. split; [exact Ht |]. split; [exact Hev |]. left.
    destruct (Hff _ _ _ E) as (evs' & Ht' & Hc).
    rewrite Ht in Ht'. apply app_inv_head in Ht'. subst evs'.
    split; [exact (Hc tt eq_refl) | exact (Hlog _ _ _ E)].
  - unfold console_error in H. run_prim H.
    split; [reflexivity |]. split; [exact Hs |].
    exists evs. split; [exact Ht |]. split; [exact Hev |]. right.
    exists e. simpl in Hs, Ht |- *. now rewrite (Hlog _ _ _ E).
Qed.

Lemma new_User_run g u n e a w :
  exists w1,
    new_User g u n e a w
    = (Ok {| User._id := nextId w; User.githubId := g; User.username := u;
             User.name := n; User.email := e; User.avatar := a;
             User.createdAt := clock w |}, w1)
    /\ Users w1 = Users w /\ Pipelines w1 = Pipelines w
    /\ Customers w1 = Customers w /\ Jobs w1 = Jobs w
    /\ session w1 = session w /\ console w1 = console w
    /\ nextId w1 = S (nextId w) /\ faults w1 = faults w
    /\ trace w1 = trace w.
Proof. eexists. split; [reflexivity |]. simpl. intuition. Qed.

Lemma first_login_run w :
  find (User_matches by_username_desivar) (Users w) = None ->
  githubId_taken (desivar_user w) (Users w) = false ->
  no_fault_within 2 (faults w) ->
  exists w2 o w3,
    createSampleData (nextId w) w2 = (o, w3)
    /\ Users w2 = Users w ++ [desivar_user w]
    /\ Pipelines w2 = Pipelines w /\ Customers w2 = Customers w
    /\ Jobs w2 = Jobs w
    /\ session w2 = session w /\ console w2 = console w
    /\ nextId w2 = S (nextId w)
    /\ faults w2 = tl (tl (faults w))
    /\ trace w2 = trace w ++ [EvRead CUsers by_username_desivar;
                              EvInsert CUsers (nextId w)]
    /\ handle (POST_auth_github (Some "desivar")) w
       = ({| statusCode := 200;
             json := LoginBody (view_of_user (desivar_user w)) |},
          snd (session_assign (nextId w) w3)).
Proof.
  intros Hfind Hgid (F1 & F2 & _).
  destruct (query_run CUsers by_username_desivar
              (fun x => find (User_matches by_username_desivar) (Users x))
              w F1) as (w1 & Q & U1 & G1 & C1 & _ & T1).
  destruct U1 as (HU1 & HP1 & HC1 & HJ1 & HS1 & HK1 & HN1).
  rewrite HU1, Hfind in Q.
  destruct (new_User_run (Some "desivar-github-id") (Some "desivar")
              (Some "Desivar Developer") (Some "desivar@example.com")
              (Some "https://avatars.githubusercontent.com/u/desivar?v=4") w1)
    as (w1a & N & HUa & HPa & HCa & HJa & HSa & HKa & HNa & HFa & HTa).
  rewrite HN1, C1 in N. fold (desivar_user w) in N.
  assert (Hvalid : User_invalid (desivar_user w) = []) by reflexivity.
  assert (F2' : hd None (faults w1a) = None) by (now rewrite HFa, G1).
  assert (Hgid' : githubId_taken (desivar_user w) (Users w1a) = false)
    by (now rewrite HUa, HU1).
  destruct (User_save_run (desivar_user w) w1a Hvalid F2' Hgid')
    as (w2 & Sv & HU2 & HP2 & HC2 & HJ2 & HS2 & HK2 & HN2 & _ & _ & HF2 & HT2).
  destruct (createSampleData (nextId w) w2) as [o w3] eqn:Seed.
  exists w2, o, w3. split; [exact Seed |].
  split; [now rewrite HU2, HUa, HU1 |].
  split; [now rewrite HP2, HPa, HP1 |].
  split; [now rewrite HC2, HCa, HC1 |].
  split; [now rewrite HJ2, HJa, HJ1 |].
  split; [now rewrite HS2, HSa, HS1 |].
  split; [now rewrite HK2, HKa, HK1 |].
  split; [now rewrite HN2, HNa, HN1 |].
  split; [now rewrite HF2, HFa, G1 |].
  split; [rewrite HT2, HTa, T1, <- app_assoc; reflexivity |].
  apply createSampleData_spec in Seed as Hspec. destruct Hspec as (-> & _).
  unfold handle. simpl route. unfold auth_github, try_catch.
  change (negb (opt_eqb String.eqb (Some "desivar") (Some "desivar")))
    with false.
  cbv iota.
  unfold bind at 1. fold by_username_desivar. unfold User_findOne. rewrite Q.
  unfold bind at 1. unfold bind at 1. rewrite N.
  unfold bind at 1. rewrite Sv.
  unfold bind at 1. simpl User._id. rewrite Seed.
  unfold ret at 1. unfold bind at 1.
  change (User._id (desivar_user w)) with (nextId w).
  destruct (session_assign (nextId w) w3) as [[[] | e] w4] eqn:A.
  - reflexivity.
  - unfold session_assign in A. run_prim A.
Qed.

(** C7 as the claim states it fails: in a first login the session's user id
    is assigned last, after every write of the seeder. *)
Lemma session_assigned_after_seeding :
  trace (snd (handle (POST_auth_github (Some "desivar")) empty_world))
  = [EvRead CUsers by_username_desivar; EvInsert CUsers 0%nat;
     EvInsert CPipelines 1%nat; EvInsert CPipelines 2%nat;
     EvInsert CCustomers 3%nat; EvInsert CCustomers 4%nat;
     EvInsert CCustomers 5%nat;
     EvInsert CJobs 6%nat; EvInsert CJobs 7%nat; EvInsert CJobs 8%nat;
     EvSessionSet 0%nat]
  /\ ~ In (EvSessionSet 0%nat)
         (firstn 10 (trace (snd (handle (POST_auth_github (Some "desivar"))
                                        empty_world)))).
Proof.
  split; [vm_compute; reflexivity |].
  vm_compute. intros H.
  repeat (destruct H as [H | H]; [discriminate |]). exact H.
Qed.

(** C7 (amended).  In a first login the seeder runs to its end before the
    session's user id is assigned.  A failure of the store during seeding is
    caught and logged by the seeder: the login still answers 200 and the
    session is established. *)
Theorem first_login_seeds_before_session :
  forall w res w',
    find (User_matches by_username_desivar) (Users w) = None ->
    githubId_taken (desivar_user w) (Users w) = false ->
    no_fault_within 2 (faults w) ->
    handle (POST_auth_github (Some "desivar")) w = (res, w') ->
    res = {| statusCode := 200;
             json := LoginBody (view_of_user (desivar_user w)) |}
    /\ session w' = Some (nextId w)
    /\ exists seeding,
        trace w' = trace w
                   ++ [EvRead CUsers by_username_desivar;
                       EvInsert CUsers (nextId w)]
                   ++ seeding ++ [EvSessionSet (nextId w)]
        /\ Forall not_session_event seeding
        /\ (Exists is_failure seeding ->
            exists e,
              In {| stream := Stderr; text := "Error creating sample data:";
                    arg := LogError e |} (console w')).
Proof.
  intros w res w' Hfind Hgid Hf H.
  destruct (first_login_run w Hfind Hgid Hf)
    as (w2 & o & w3 & Seed & _ & _ & _ & _ & _ & _ & _ & _ & HT2 & Hrun).
  rewrite Hrun in H. inversion H; subst res w'. clear H.
  apply createSampleData_spec in Seed
    as (_ & _ & seeding & HT3 & Hns & Hlog).
  split; [reflexivity |]. split; [reflexivity |].
  exists seeding. split; [| split].
  - cbv [session_assign bind emit set_session]. simpl.
    rewrite HT3, HT2. now rewrite <- !app_assoc.
  - exact Hns.
  - intros Hex. cbv [session_assign bind emit set_session]. simpl.
    destruct Hlog as [[Hclean _] | [e He]].
    + apply Exists_exists in Hex as (ev & Hin & Hev).
      rewrite Forall_forall in Hclean. exfalso. exact (Hclean ev Hin Hev).
    + exists e. rewrite He. apply in_or_app. right. now left.
Qed.

Lemma first_login_seeds_before_session_witness :
  fst (handle (POST_auth_github (Some "desivar")) flaky_world)
  = {| statusCode := 200;
       json := LoginBody (view_of_user (desivar_user flaky_world)) |}
  /\ session (snd (handle (POST_auth_github (Some "desivar")) flaky_world))
     = Some (nextId flaky_world)
  /\ exists seeding,
      trace (snd (handle (POST_auth_github (Some "desivar")) flaky_world))
      = trace flaky_world
        ++ [EvRead CUsers by_username_desivar;
            EvInsert CUsers (nextId flaky_world)]
        ++ seeding ++ [EvSessionSet (nextId flaky_world)]
      /\ Forall not_session_event seeding
      /\ (Exists is_failure seeding ->
          exists e,
            In {| stream := Stderr; text := "Error creating sample data:";
                  arg := LogError e |}
               (console (snd (handle (POST_auth_github (Some "desivar"))
                                     flaky_world)))).
Proof.
  apply (first_login_seeds_before_session flaky_world);
    [reflexivity | reflexivity | vm_compute; tauto | apply surjective_pairing].
Defined.

(** ** What a first login stores *)

Lemma app_two {A} (l : list A) a b : (l ++ [a]) ++ [b] = l ++ [a; b].
Proof. now rewrite <- app_assoc. Qed.

Lemma app_three {A} (l : list A) a b c :
  ((l ++ [a]) ++ [b]) ++ [c] = l ++ [a; b; c].
Proof. now rewrite <- !app_assoc. Qed.

(** Case analysis on the coming faults, [n] round trips deep. *)
Ltac by_faults n Hf f k :=
  lazymatch n with
  | O => k
  | S ?m =>
      destruct f as [| [?d |] f];
      [ k
      | exfalso; simpl in Hf; destruct Hf as [Hf _]; discriminate Hf
      | simpl in Hf; destruct Hf as [_ Hf]; by_faults m Hf f k ]
  end.

Lemma createSampleData_run userId w :
  no_fault_within 8 (faults w) ->
  exists w' p1 p2 c1 c2 c3 j1 j2 j3,
    createSampleData userId w = (Ok tt, w')
    /\ Users w' = Users w
    /\ Pipelines w' = Pipelines w ++ [p1; p2]
    /\ Customers w' = Customers w ++ [c1; c2; c3]
    /\ Jobs w' = Jobs w ++ [j1; j2; j3]
    /\ session w' = session w
    /\ sample_data userId p1 p2 c1 c2 c3 j1 j2 j3.
Proof.
  intros Hf. destruct w as [us ps cs js n c t f s k tr].
  cbn [faults Users Pipelines Customers Jobs session] in *.
  by_faults 8%nat Hf f
    ltac:(cbv -[Z.add Z.max];
          do 9 eexists;
          split; [reflexivity |];
          split; [reflexivity |];
          split; [apply app_two |];
          split; [apply app_three |];
          split; [apply app_three |];
          split; [reflexivity |];
          repeat split; repeat constructor).
Qed.

Lemma no_fault_within_le n m l :
  (m <= n)%nat -> no_fault_within n l -> no_fault_within m l.
Proof.
  revert m l. induction n as [| n IH]; intros m l Hle H.
  - assert (m = 0%nat) by lia. subst. exact I.
  - destruct m as [| m]; [exact I |]. destruct H as [H1 H2].
    split; [exact H1 | apply IH; [lia | exact H2]].
Qed.

(** A first login whose [githubId] is already stored under another
    username is refused with the generic 500 and stores nothing. *)
Lemma first_login_duplicate_githubId w :
  find (User_matches by_username_desivar) (Users w) = None ->
  githubId_taken (desivar_user w) (Users w) = true ->
  no_fault_within 2 (faults w) ->
  exists w',
    handle (POST_auth_github (Some "desivar")) w
    = ({| statusCode := 500; json := ErrorBody "Authentication failed" |}, w')
    /\ Users w' = Users w /\ Pipelines w' = Pipelines w
    /\ Customers w' = Customers w /\ Jobs w' = Jobs w
    /\ session w' = session w
    /\ console w'
       = console w ++ [{| stream := Stderr; text := "Auth error:";
                          arg := LogError (DuplicateKeyError "githubId") |}].
Proof.
  intros Hfind Hgid Hf. destruct w as [us ps cs js n c t f s k tr].
  cbn [faults Users Pipelines Customers Jobs session console] in *.
  unfold handle. cbn [route]. unfold auth_github, try_catch.
  change (negb (opt_eqb String.eqb (Some "desivar") (Some "desivar")))
    with false.
  cbv iota. fold by_username_desivar.
  unfold desivar_user in Hgid. cbn [nextId clock] in Hgid.
  by_faults 2%nat Hf f
    ltac:(cbv [bind User_findOne query emit round_trip read fail_store throw
               new_User new_ObjectId Date_now ret User_save validate put_Users
               console_error console_write res_status_json
               Users Pipelines Customers Jobs nextId clock ticks faults
               session console trace];
          rewrite Hfind;
          change (User_invalid _) with (@nil string); cbv iota;
          cbv [Users Pipelines Customers Jobs nextId clock ticks faults
               session console trace];
          rewrite Hgid;
          eexists; split; [reflexivity |]; repeat split).
Qed.

(** A login of a user who already has a record creates nothing. *)
Lemma login_existing_user w u res w' :
  find (User_matches by_username_desivar) (Users w) = Some u ->
  handle (POST_auth_github (Some "desivar")) w = (res, w') ->
  Users w' = Users w /\ Pipelines w' = Pipelines w
  /\ Customers w' = Customers w /\ Jobs w' = Jobs w
  /\ nextId w' = nextId w
  /\ (hd None (faults w) = None ->
      res = {| statusCode := 200; json := LoginBody (view_of_user u) |}
      /\ session w' = Some (User._id u)).
Proof.
  intros Hfind H. unfold handle in H. cbn [route] in H.
  unfold auth_github, try_catch in H.
  change (negb (opt_eqb String.eqb (Some "desivar") (Some "desivar")))
    with false in H.
  cbv iota in H. fold by_username_desivar in H.
  unfold bind at 1 in H. unfold User_findOne in H.
  destruct (query CUsers by_username_desivar
              (fun x => find (User_matches by_username_desivar) (Users x)) w)
    as [[found | e] w1] eqn:Q.
  - apply query_Ok in Q as [-> U].
    pose proof U as (HU & HP & HC & HJ & HS & HK & HN).
    rewrite HU, Hfind in H.
    cbv [bind ret session_assign emit set_session res_json res_status_json
         Users Pipelines Customers Jobs nextId clock ticks faults session
         console trace] in H.
    inversion H; subst res w'; clear H. cbn.
    repeat split; auto.
  - pose proof (obeys_unchanged_query _ _ _ _ _ _ Q)
      as (HU & HP & HC & HJ & HS & HK & HN).
    cbv [bind console_error console_write res_status_json ret] in H.
    inversion H; subst res w'; clear H. cbn.
    split; [exact HU |]. split; [exact HP |]. split; [exact HC |].
    split; [exact HJ |]. split; [exact HN |].
    intros Hf. exfalso.
    destruct (query_run CUsers by_username_desivar
                (fun x => find (User_matches by_username_desivar) (Users x))
                w Hf) as (x & Q' & _).
    rewrite Q in Q'. discriminate.
Qed.

Lemma find_app_last {A} (p : A -> bool) l a :
  find p l = None -> p a = true -> find p (l ++ [a]) = Some a.
Proof.
  induction l as [| b l IH]; simpl; intros Hn Ha.
  - now rewrite Ha.
  - destruct (p b); [discriminate | now apply IH].
Qed.

(** C4.  A first login (no user record for the username, the login answers
    200, the store does not fail) appends exactly two pipelines, three
    customers and three jobs, all owned by the new user, each job naming one
    of the new customers and one of the new pipelines.  Any later login
    against that user collection creates no record. *)
Theorem first_login_seeds_once :
  forall w res w',
    find (User_matches by_username_desivar) (Users w) = None ->
    no_fault_within 10 (faults w) ->
    handle (POST_auth_github (Some "desivar")) w = (res, w') ->
    statusCode res = 200%nat ->
    (exists p1 p2 c1 c2 c3 j1 j2 j3,
        Users w' = Users w ++ [desivar_user w]
        /\ Pipelines w' = Pipelines w ++ [p1; p2]
        /\ Customers w' = Customers w ++ [c1; c2; c3]
        /\ Jobs w' = Jobs w ++ [j1; j2; j3]
        /\ sample_data (User._id (desivar_user w)) p1 p2 c1 c2 c3 j1 j2 j3)
    /\ (forall again res2 after,
           Users again = Users w' ->
           handle (POST_auth_github (Some "desivar")) again = (res2, after) ->
           Users after = Users again /\ Pipelines after = Pipelines again
           /\ Customers after = Customers again /\ Jobs after = Jobs again).
Proof.
  intros w res w' Hfind Hf H H200.
  assert (Hf2 : no_fault_within 2 (faults w))
    by (eapply no_fault_within_le; [| exact Hf]; lia).
  destruct (githubId_taken (desivar_user w) (Users w)) eqn:Hgid.
  { destruct (first_login_duplicate_githubId w Hfind Hgid Hf2) as (x & E & _).
    rewrite E in H. inversion H; subst. discriminate. }
  destruct (first_login_run w Hfind Hgid Hf2)
    as (w2 & o & w3 & Seed & HU2 & HP2 & HC2 & HJ2 & _ & _ & _ & HF2 & _ & Hrun).
  rewrite Hrun in H. inversion H; subst res w'. clear H.
  assert (Hf8 : no_fault_within 8 (faults w2)).
  { rewrite HF2. destruct Hf as (_ & _ & Hf). exact Hf. }
  destruct (createSampleData_run (nextId w) w2 Hf8)
    as (x & p1 & p2 & c1 & c2 & c3 & j1 & j2 & j3
        & Seed' & HU3 & HP3 & HC3 & HJ3 & _ & Hdata).
  rewrite Seed in Seed'. inversion Seed'; subst o x. clear Seed'.
  assert (HUfinal : Users (snd (session_assign (nextId w) w3))
                    = Users w ++ [desivar_user w])
    by (cbn; now rewrite HU3, HU2).
  split.
  - exists p1, p2, c1, c2, c3, j1, j2, j3.
    split; [exact HUfinal |].
    split; [cbn; now rewrite HP3, HP2 |].
    split; [cbn; now rewrite HC3, HC2 |].
    split; [cbn; now rewrite HJ3, HJ2 |].
    exact Hdata.
  - intros again res2 after HUa Hagain.
    assert (Hfound : find (User_matches by_username_desivar) (Users again)
                     = Some (desivar_user w)).
    { assert (HUb : Users again = Users w ++ [desivar_user w])
        by (rewrite HUa; cbn; now rewrite HU3, HU2).
      rewrite HUb. now apply find_app_last. }
    destruct (login_existing_user _ _ _ _ Hfound Hagain)
      as (A1 & A2 & A3 & A4 & _).
    repeat split; assumption.
Qed.

Lemma first_login_seeds_once_witness :
  (exists p1 p2 c1 c2 c3 j1 j2 j3,
      Users seeded_world = Users empty_world ++ [desivar_user empty_world]
      /\ Pipelines seeded_world = Pipelines empty_world ++ [p1; p2]
      /\ Customers seeded_world = Customers empty_world ++ [c1; c2; c3]
      /\ Jobs seeded_world = Jobs empty_world ++ [j1; j2; j3]
      /\ sample_data (User._id (desivar_user empty_world))
           p1 p2 c1 c2 c3 j1 j2 j3)
  /\ (forall again res2 after,
         Users again = Users seeded_world ->
         handle (POST_auth_github (Some "desivar")) again = (res2, after) ->
         Users after = Users again /\ Pipelines after = Pipelines again
         /\ Customers after = Customers again /\ Jobs after = Jobs again).
Proof.
  apply (first_login_seeds_once empty_world
           (fst (handle (POST_auth_github (Some "desivar")) empty_world))
           seeded_world);
    [reflexivity | vm_compute; tauto | apply surjective_pairing | reflexivity].
Defined.

(** ** Progress stays within 0..100 *)

Lemma jobs_ok_kept {A} (m : M A) :
  (forall w o w', m w = (o, w') -> Jobs w' = Jobs w) -> obeys jobs_ok m.
Proof. intros Hm w o w' H Hj. now rewrite (Hm _ _ _ H). Qed.

Lemma obeys_jobs_ok_emit ev : obeys jobs_ok (emit ev).
Proof. apply jobs_ok_kept. intros w o w' H. now run_prim H. Qed.

Lemma obeys_jobs_ok_fail_store {A} e : obeys jobs_ok (@fail_store A e).
Proof. apply jobs_ok_kept. intros w o w' H. now run_prim H. Qed.

Lemma obeys_jobs_ok_round_trip : obeys jobs_ok round_trip.
Proof.
  apply jobs_ok_kept. intros w o w' H.
  apply round_trip_cases in H as (U & _). apply U.
Qed.

Lemma obeys_jobs_ok_Date_now : obeys jobs_ok Date_now.
Proof. apply jobs_ok_kept. intros w o w' H. now run_prim H. Qed.

Lemma obeys_jobs_ok_new_ObjectId : obeys jobs_ok new_ObjectId.
Proof. apply jobs_ok_kept. intros w o w' H. now run_prim H. Qed.

Lemma obeys_jobs_ok_console_write l : obeys jobs_ok (console_write l).
Proof. apply jobs_ok_kept. intros w o w' H. now run_prim H. Qed.

Lemma obeys_jobs_ok_put_Users l : obeys jobs_ok (put_Users l).
Proof. apply jobs_ok_kept. intros w o w' H. now run_prim H. Qed.

Lemma obeys_jobs_ok_put_Pipelines l : obeys jobs_ok (put_Pipelines l).
Proof. apply jobs_ok_kept. intros w o w' H. now run_prim H. Qed.

Lemma obeys_jobs_ok_put_Customers l : obeys jobs_ok (put_Customers l).
Proof. apply jobs_ok_kept. intros w o w' H. now run_prim H. Qed.

Lemma obeys_jobs_ok_session_assign u : obeys jobs_ok (session_assign u).
Proof. apply jobs_ok_kept. intros w o w' H. now run_prim H. Qed.

#[local] Hint Resolve obeys_jobs_ok_emit obeys_jobs_ok_fail_store
  obeys_jobs_ok_round_trip obeys_jobs_ok_Date_now obeys_jobs_ok_new_ObjectId
  obeys_jobs_ok_console_write obeys_jobs_ok_put_Users
  obeys_jobs_ok_put_Pipelines obeys_jobs_ok_put_Customers
  obeys_jobs_ok_session_assign : frame.

Lemma obeys_jobs_ok_query {A} c f (rd : World -> A) : obeys jobs_ok (query c f rd).
Proof. unfold query. frame. Qed.

Lemma obeys_jobs_ok_validate paths : obeys jobs_ok (validate paths).
Proof. unfold validate. frame. Qed.

#[local] Hint Resolve obeys_jobs_ok_query obeys_jobs_ok_validate : frame.

Lemma app_eq_nil_parts {A} (l1 l2 : list A) :
  l1 ++ l2 = [] -> l1 = [] /\ l2 = [].
Proof. destruct l1; simpl; [auto | discriminate]. Qed.

(** A job document that passes validation has its progress within 0..100
    and its status in the enum. *)
Lemma Job_invalid_nil j :
  Job_invalid j = [] ->
  progress_in_range j /\ In (Job.status j) status_enum
  /\ Job.dueDate j <> InvalidDate.
Proof.
  unfold Job_invalid. intros H.
  repeat (apply app_eq_nil_parts in H as [? H]).
  split; [| split].
  - unfold bad_progress in *. unfold progress_in_range.
    destruct ((0 <=? Job.progress j) && (Job.progress j <=? 100)) eqn:E;
      [| discriminate].
    apply andb_prop in E as [E1 E2]. apply Z.leb_le in E1, E2. lia.
  - unfold bad_status in *.
    destruct (existsb (String.eqb (Job.status j)) status_enum) eqn:E;
      [| discriminate].
    apply existsb_exists in E as (s & Hin & Hs). apply String.eqb_eq in Hs.
    now subst.
  - unfold bad_date in *. destruct (Job.dueDate j); congruence.
Qed.

(** [save] either stores nothing or appends the validated document. *)
Lemma Job_save_cases j w o w' :
  Job_save j w = (o, w') ->
  (Jobs w' = Jobs w /\ exists e, o = Throw e)
  \/ (Job_invalid j = [] /\ o = Ok tt /\ Jobs w' = Jobs w ++ [j]).
Proof.
  unfold Job_save. destruct (Job_invalid j) as [| p ps]; intros H.
  - cbv [validate bind ret round_trip read put_Jobs emit fail_store throw] in H.
    destruct (faults w) as [| [d |] rest]; inversion H; subst; simpl; eauto.
  - cbv [validate bind fail_store emit throw] in H.
    inversion H; subst; simpl. eauto.
Qed.

Lemma obeys_jobs_ok_Job_save j : obeys jobs_ok (Job_save j).
Proof.
  intros w o w' H Hj.
  apply Job_save_cases in H as [[E _] | (Hv & _ & E)]; rewrite E.
  - exact Hj.
  - apply Forall_app. split; [exact Hj |].
    constructor; [| constructor]. now apply Job_invalid_nil in Hv.
Qed.

#[local] Hint Resolve obeys_jobs_ok_Job_save : frame.

Lemma route_jobs_ok r : obeys jobs_ok (route r).
Proof.
  destruct r; cbn [route].
  - unfold auth_github, User_findOne, new_User, User_save, createSampleData,
      sample_job, new_Pipeline, new_Customer, new_Job, Pipeline_save,
      Customer_save, console_log, console_error.
    simpl map. frame.
  - unfold auth_logout. frame.
    apply jobs_ok_kept. intros x o x' H. now inversion H.
  - unfold api_user, requireAuth, api_user_body, User_findById. frame.
  - unfold dashboard_stats, requireAuth, dashboard_stats_body,
      Job_countDocuments, Customer_countDocuments, Pipeline_countDocuments.
    frame.
  - unfold get_jobs, requireAuth, get_jobs_body, Job_find_sorted,
      Customer_find, Pipeline_find, format_job, calendar_date. frame.
  - unfold post_jobs, requireAuth, post_jobs_body, new_Job. frame.
  - unfold get_customers, requireAuth, get_customers_body,
      customer_with_job_counts, Customer_find, Job_countDocuments. frame.
  - unfold post_customers, requireAuth, post_customers_body, new_Customer,
      Customer_save. frame.
  - unfold get_pipelines, requireAuth, get_pipelines_body,
      pipeline_with_job_count, Pipeline_find, Job_countDocuments. frame.
  - unfold post_pipelines, requireAuth, post_pipelines_body, new_Pipeline,
      Pipeline_save. frame.
Qed.

(** Every request keeps the bound on the stored jobs. *)
Lemma handle_jobs_ok r w : jobs_ok w (snd (handle r w)).
Proof.
  unfold handle. destruct (route r w) as [[res | e] w'] eqn:E.
  - exact (route_jobs_ok r _ _ _ E).
  - simpl. intros Hj. exact (route_jobs_ok r _ _ _ E Hj).
Qed.

Lemma reachable_progress w :
  reachable w -> Forall progress_in_range (Jobs w).
Proof.
  induction 1 as [w H0 | w w' _ IH (_ & _ & _ & HJ) | w r _ IH].
  - rewrite H0. constructor.
  - now rewrite HJ.
  - now apply handle_jobs_ok.
Qed.

Lemma Forall2_progress w listed views :
  Forall2 (entry_of w) listed views ->
  Forall progress_in_range listed ->
  Forall (fun v => 0 <= JobView.progress v <= 100) views.
Proof.
  induction 1 as [| j v l vs Hjv _ IH]; intros Hl; [constructor |].
  inversion Hl; subst. constructor; [| now apply IH].
  destruct Hjv as (_ & _ & _ & _ & Hp & _). rewrite Hp. assumption.
Qed.

Lemma get_jobs_progress w views :
  Forall progress_in_range (Jobs w) ->
  json (fst (handle GET_api_jobs w)) = JobsBody views ->
  Forall (fun v => 0 <= JobView.progress v <= 100) views.
Proof.
  intros Hj H. unfold handle in H. cbn [route] in H.
  unfold get_jobs, requireAuth in H. unfold bind at 1 in H.
  unfold get_session at 1 in H.
  destruct (session w) as [u |] eqn:Hs; [| discriminate].
  unfold try_catch in H.
  destruct (get_jobs_body w) as [[res | e] w1] eqn:E; [| discriminate].
  apply get_jobs_body_Ok in E as (_ & vs & -> & HF).
  simpl in H. inversion H; subst vs.
  eapply Forall2_progress; [exact HF |].
  rewrite Forall_forall in Hj |- *. intros j Hin.
  apply In_sorted_filter in Hin as [Hin _]. now apply Hj.
Qed.

(** POST /api/jobs either stores nothing and answers with an error, or
    stores one job, active at progress 0 and owned by the session user. *)
Lemma post_jobs_cases b w res w' :
  handle (POST_api_jobs b) w = (res, w') ->
  (Jobs w' = Jobs w
   /\ exists msg code,
       res = {| statusCode := code; json := ErrorBody msg |}
       /\ (code = 401%nat \/ code = 500%nat))
  \/ (exists job,
         res = {| statusCode := 201; json := JobCreated (Job._id job) |}
         /\ Jobs w' = Jobs w ++ [job]
         /\ Job.progress job = 0 /\ Job.status job = "active"
         /\ Job.userId job = session w
         /\ Job.customerId job = JobBody.customerId b
         /\ Job.pipelineId job = JobBody.pipelineId b).
Proof.
  unfold handle. cbn [route]. unfold post_jobs, requireAuth.
  unfold bind at 1. unfold get_session at 1.
  destruct (session w) as [u |] eqn:Hs.
  - unfold try_catch, post_jobs_body.
    unfold bind at 1. unfold get_session at 1. rewrite Hs.
    unfold bind at 1. unfold new_Job.
    cbv [bind new_ObjectId Date_now ret or_default].
    match goal with
    | |- context [Job_save ?j ?x] =>
        destruct (Job_save j x) as [o x'] eqn:E;
          apply Job_save_cases in E as [[HJ [e ->]] | (_ & -> & HJ)]
    end.
    + intros H. cbv [res_status_json ret] in H. inversion H; subst res w'.
      left. simpl in HJ. split; [exact HJ |].
      exists "Failed to create job", 500%nat. split; [reflexivity | now right].
    + intros H. cbv [res_status_json ret] in H. inversion H; subst res w'.
      right. simpl in HJ.
      match type of HJ with _ = _ ++ [?j] => exists j end.
      split; [reflexivity |]. split; [exact HJ |]. repeat split.
  - intros H. cbv [res_status_json ret] in H. inversion H; subst res w'.
    left. split; [reflexivity |].
    exists "Authentication required", 401%nat. split; [reflexivity | now left].
Qed.

Lemma Job_save_rejects_out_of_range j w :
  ~ progress_in_range j ->
  exists path,
    fst (Job_save j w) = Throw (ValidationError path)
    /\ Jobs (snd (Job_save j w)) = Jobs w.
Proof.
  intros Hp. unfold Job_save.
  destruct (Job_invalid j) as [| p ps] eqn:E.
  - apply Job_invalid_nil in E as [Hr _]. contradiction.
  - exists p. split; reflexivity.
Qed.

(** C5.  In every world the server reaches from a database without jobs,
    every stored job has its progress within 0..100, so has every entry of
    a GET /api/jobs response; a POST /api/jobs carrying progress 150 is
    either answered with an error, nothing stored, or stored with progress
    0 (the body's value is not read); a job document whose progress lies
    outside 0..100 is rejected by [save] with a validation error. *)
Theorem progress_always_in_range :
  forall w,
    reachable w ->
    Forall progress_in_range (Jobs w)
    /\ (forall views,
           json (fst (handle GET_api_jobs w)) = JobsBody views ->
           Forall (fun v => 0 <= JobView.progress v <= 100) views)
    /\ (forall b res w',
           JobBody.progress b = Some 150 ->
           handle (POST_api_jobs b) w = (res, w') ->
           (Jobs w' = Jobs w
            /\ exists msg code,
                res = {| statusCode := code; json := ErrorBody msg |}
                /\ (code = 401%nat \/ code = 500%nat))
           \/ (exists job,
                  res = {| statusCode := 201; json := JobCreated (Job._id job) |}
                  /\ Jobs w' = Jobs w ++ [job]
                  /\ Job.progress job = 0))
    /\ (forall j,
           ~ progress_in_range j ->
           exists path,
             fst (Job_save j w) = Throw (ValidationError path)
             /\ Jobs (snd (Job_save j w)) = Jobs w).
Proof.
  intros w Hr. pose proof (reachable_progress w Hr) as Hj.
  split; [exact Hj |]. split; [| split].
  - intros views. now apply get_jobs_progress.
  - intros b res w' _ H.
    destruct (post_jobs_cases b w res w' H) as [H' | (job & H1 & H2 & H3 & _)].
    + left. exact H'.
    + right. exists job. auto.
  - intros j. apply Job_save_rejects_out_of_range.
Qed.

Lemma progress_always_in_range_witness :
  Forall progress_in_range (Jobs seeded_world)
  /\ (forall views,
         json (fst (handle GET_api_jobs seeded_world)) = JobsBody views ->
         Forall (fun v => 0 <= JobView.progress v <= 100) views)
  /\ (forall b res w',
         JobBody.progress b = Some 150 ->
         handle (POST_api_jobs b) seeded_world = (res, w') ->
         (Jobs w' = Jobs seeded_world
          /\ exists msg code,
              res = {| statusCode := code; json := ErrorBody msg |}
              /\ (code = 401%nat \/ code = 500%nat))
         \/ (exists job,
                res = {| statusCode := 201; json := JobCreated (Job._id job) |}
                /\ Jobs w' = Jobs seeded_world ++ [job]
                /\ Job.progress job = 0))
  /\ (forall j,
         ~ progress_in_range j ->
         exists path,
           fst (Job_save j seeded_world) = Throw (ValidationError path)
           /\ Jobs (snd (Job_save j seeded_world)) = Jobs seeded_world).
Proof.
  apply (progress_always_in_range seeded_world).
  unfold seeded_world. apply reach_request. apply reach_start. reflexivity.
Defined.

(** * Further properties of the routes *)

(** ** The guard *)

(** X1.  Without a session user, a route behind [requireAuth] answers 401 and
    does nothing else: no query is sent, nothing is stored or logged. *)
Theorem requireAuth_rejects_without_session :
  forall r w,
    authenticated r = true ->
    session w = None ->
    handle r w
    = ({| statusCode := 401; json := ErrorBody "Authentication required" |}, w).
Proof.
  intros r w Ha Hs.
  destruct r; try discriminate; unfold handle; cbn [route];
    unfold api_user, dashboard_stats, get_jobs, post_jobs, get_customers,
      post_customers, get_pipelines, post_pipelines;
    unfold requireAuth, bind, get_session; rewrite Hs; reflexivity.
Qed.

Lemma requireAuth_rejects_without_session_witness :
  handle GET_api_jobs empty_world
  = ({| statusCode := 401; json := ErrorBody "Authentication required" |},
     empty_world).
Proof.
  apply (requireAuth_rejects_without_session GET_api_jobs empty_world);
    reflexivity.
Defined.

(** X2.  Any username but "desivar", also a missing one, is refused with 401;
    no query is sent and no session is established. *)
Theorem login_refuses_other_usernames :
  forall username w,
    username <> Some "desivar" ->
    handle (POST_auth_github username) w
    = ({| statusCode := 401; json := ErrorBody "Invalid username" |}, w).
Proof.
  intros username w Hn. unfold handle. cbn [route].
  unfold auth_github, try_catch.
  assert (E : opt_eqb String.eqb username (Some "desivar") = false).
  { destruct username as [s |]; [| reflexivity]. simpl.
    apply String.eqb_neq. congruence. }
  rewrite E. reflexivity.
Qed.

Lemma login_refuses_other_usernames_witness :
  handle (POST_auth_github (Some "Desivar")) seeded_world
  = ({| statusCode := 401; json := ErrorBody "Invalid username" |},
     seeded_world).
Proof.
  apply (login_refuses_other_usernames (Some "Desivar") seeded_world).
  discriminate.
Defined.

(** ** No error escapes a handler, and every answer is one of three kinds *)








Lemma returns_ret {A} (a : A) : returns (ret a).
Proof. intros w. eexists. eexists. reflexivity. Qed.

Lemma returns_bind {A B} (m : M A) (k : A -> M B) :
  returns m -> (forall a, returns (k a)) -> returns (bind m k).
Proof.
  intros Hm Hk w. destruct (Hm w) as (a & w1 & E).
  destruct (Hk a w1) as (b & w2 & E'). exists b, w2.
  unfold bind. now rewrite E.
Qed.

Lemma returns_try_catch {A} (m : M A) h :
  (forall e, returns (h e)) -> returns (try_catch m h).
Proof.
  intros Hh w. unfold try_catch. destruct (m w) as [[a | e] w1].
  - eexists. eexists. reflexivity.
  - apply Hh.
Qed.

Lemma returns_console_error msg e : returns (console_error msg e).
Proof. intros w. eexists. eexists. reflexivity. Qed.

Lemma returns_requireAuth next : returns next -> returns (requireAuth next).
Proof.
  intros Hn w. unfold requireAuth, bind, get_session.
  destruct (session w); [apply Hn | apply returns_ret].
Qed.

Lemma route_returns r : returns (route r).
Proof.
  destruct r; cbn [route];
    unfold auth_github, auth_logout, api_user, dashboard_stats, get_jobs,
      post_jobs, get_customers, post_customers, get_pipelines, post_pipelines;
    try apply returns_requireAuth;
    apply returns_try_catch; intros e;
    try apply returns_ret;
    (apply returns_bind; [apply returns_console_error | intros _; apply returns_ret]).
Qed.


(** ** What the routes leave alone *)

Lemma handle_obeys R r :
  obeys R (route r) -> forall w, returns (route r) -> R w (snd (handle r w)).
Proof.
  intros Hr w Hret. destruct (Hret w) as (res & w' & E).
  unfold handle. rewrite E. cbn [snd]. eapply Hr; eauto.
Qed.

(** X4.  A GET route changes neither the four collections nor the session, the
    console or the id generator, whether the store fails or not. *)
Theorem GET_routes_are_read_only :
  forall r w,
    is_GET r = true ->
    unchanged w (snd (handle r w)).
Proof.
  intros r w Hg. apply handle_obeys; [| apply route_returns].
  destruct r; try discriminate; cbn [route].
  - unfold api_user, requireAuth, api_user_body, User_findById. frame.
  - unfold dashboard_stats, requireAuth, dashboard_stats_body,
      Job_countDocuments, Customer_countDocuments, Pipeline_countDocuments.
    frame.
  - unfold get_jobs, requireAuth, get_jobs_body, Job_find_sorted,
      Customer_find, Pipeline_find, format_job, calendar_date. frame.
  - unfold get_customers, requireAuth, get_customers_body,
      customer_with_job_counts, Customer_find, Job_countDocuments. frame.
  - unfold get_pipelines, requireAuth, get_pipelines_body,
      pipeline_with_job_count, Pipeline_find, Job_countDocuments. frame.
Qed.

Lemma GET_routes_are_read_only_witness :
  unchanged failing_world (snd (handle GET_api_customers failing_world)).
Proof.
  apply (GET_routes_are_read_only GET_api_customers failing_world).
  reflexivity.
Defined.

(** X5.  Only the login and the logout touch the session: a route behind
    [requireAuth] leaves it as it is and records no session event. *)
Theorem guarded_routes_keep_the_session :
  forall r w,
    authenticated r = true ->
    session (snd (handle r w)) = session w
    /\ exists evs,
        trace (snd (handle r w)) = trace w ++ evs
        /\ Forall not_session_event evs.
Proof.
  intros r w Ha.
  assert (H : session_kept w (snd (handle r w))).
  { apply handle_obeys; [| apply route_returns].
    destruct r; try discriminate; cbn [route].
    - unfold api_user, requireAuth, api_user_body, User_findById, query. frame.
    - unfold dashboard_stats, requireAuth, dashboard_stats_body,
        Job_countDocuments, Customer_countDocuments, Pipeline_countDocuments,
        query.
      frame.
    - unfold get_jobs, requireAuth, get_jobs_body, Job_find_sorted,
        Customer_find, Pipeline_find, format_job, calendar_date, query. frame.
    - unfold post_jobs, requireAuth, post_jobs_body, new_Job, Job_save. frame.
    - unfold get_customers, requireAuth, get_customers_body,
        customer_with_job_counts, Customer_find, Job_countDocuments, query.
      frame.
    - unfold post_customers, requireAuth, post_customers_body, new_Customer,
        Customer_save. frame.
    - unfold get_pipelines, requireAuth, get_pipelines_body,
        pipeline_with_job_count, Pipeline_find, Job_countDocuments, query.
      frame.
    - unfold post_pipelines, requireAuth, post_pipelines_body, new_Pipeline,
        Pipeline_save. frame. }
  exact H.
Qed.

Lemma guarded_routes_keep_the_session_witness :
  session (snd (handle (POST_api_jobs far_future_job) seeded_world))
  = session seeded_world
  /\ exists evs,
      trace (snd (handle (POST_api_jobs far_future_job) seeded_world))
      = trace seeded_world ++ evs
      /\ Forall not_session_event evs.
Proof.
  apply (guarded_routes_keep_the_session (POST_api_jobs far_future_job)
           seeded_world).
  reflexivity.
Defined.

(** ** Logging in again, logging out *)

(** X6.  A login of a user who already has a record creates nothing.  When the
    lookup succeeds the session is set to that user and the answer carries
    the stored profile; when the lookup fails the answer is the generic 500,
    the error is logged and the session stays as it was. *)
Theorem login_of_existing_user :
  forall w u res w',
    find (User_matches by_username_desivar) (Users w) = Some u ->
    handle (POST_auth_github (Some "desivar")) w = (res, w') ->
    Users w' = Users w /\ Pipelines w' = Pipelines w
    /\ Customers w' = Customers w /\ Jobs w' = Jobs w
    /\ match hd None (faults w) with
       | None =>
           res = {| statusCode := 200; json := LoginBody (view_of_user u) |}
           /\ session w' = Some (User._id u)
           /\ console w' = console w
       | Some detail =>
           res = {| statusCode := 500;
                    json := ErrorBody "Authentication failed" |}
           /\ session w' = session w
           /\ console w'
              = console w ++ [{| stream := Stderr; text := "Auth error:";
                                 arg := LogError (StorageError detail) |}]
       end.
Proof.
  intros w u res w' Hfind H.
  destruct w as [us ps cs js n c t f s k tr].
  cbn [faults Users Pipelines Customers Jobs session console] in *.
  unfold handle in H. cbn [route] in H. unfold auth_github, try_catch in H.
  change (negb (opt_eqb String.eqb (Some "desivar") (Some "desivar")))
    with false in H.
  cbv iota in H. fold by_username_desivar in H.
  destruct f as [| [d |] f];
    cbv [bind User_findOne query emit round_trip read fail_store throw ret
         session_assign set_session res_json res_status_json console_error
         console_write
         Users Pipelines Customers Jobs nextId clock ticks faults
         session console trace] in H;
    rewrite ?Hfind in H;
    cbv [bind ret session_assign emit set_session res_json res_status_json
         Users Pipelines Customers Jobs nextId clock ticks faults
         session console trace] in H;
    inversion H; subst res w'; cbn; repeat split; reflexivity.
Qed.

Lemma login_of_existing_user_witness :
  Users (snd (handle (POST_auth_github (Some "desivar")) failing_world))
  = Users failing_world
  /\ Pipelines (snd (handle (POST_auth_github (Some "desivar")) failing_world))
     = Pipelines failing_world
  /\ Customers (snd (handle (POST_auth_github (Some "desivar")) failing_world))
     = Customers failing_world
  /\ Jobs (snd (handle (POST_auth_github (Some "desivar")) failing_world))
     = Jobs failing_world
  /\ match hd None (faults failing_world) with
     | None =>
         fst (handle (POST_auth_github (Some "desivar")) failing_world)
         = {| statusCode := 200;
              json := LoginBody (view_of_user (desivar_user empty_world)) |}
         /\ session (snd (handle (POST_auth_github (Some "desivar"))
                                 failing_world))
            = Some (User._id (desivar_user empty_world))
         /\ console (snd (handle (POST_auth_github (Some "desivar"))
                                 failing_world))
            = console failing_world
     | Some detail =>
         fst (handle (POST_auth_github (Some "desivar")) failing_world)
         = {| statusCode := 500; json := ErrorBody "Authentication failed" |}
         /\ session (snd (handle (POST_auth_github (Some "desivar"))
                                 failing_world))
            = session failing_world
         /\ console (snd (handle (POST_auth_github (Some "desivar"))
                                 failing_world))
            = console failing_world
              ++ [{| stream := Stderr; text := "Auth error:";
                     arg := LogError (StorageError detail) |}]
     end.
Proof.
  apply (login_of_existing_user failing_world (desivar_user empty_world));
    [reflexivity | apply surjective_pairing].
Defined.

(** X7.  Logging out clears the session; when the session store fails, the
    answer is a 500 and the session stays.  No session is needed to call it,
    and the four collections are never touched. *)
Theorem logout_clears_the_session :
  forall w res w',
    handle POST_auth_logout w = (res, w') ->
    same_store w w'
    /\ match hd None (faults w) with
       | None =>
           res = {| statusCode := 200; json := SuccessBody |}
           /\ session w' = None
           /\ trace w' = trace w ++ [EvSessionDestroy]
       | Some detail =>
           res = {| statusCode := 500; json := ErrorBody "Could not log out" |}
           /\ session w' = session w
       end.
Proof.
  intros w res w' H.
  destruct w as [us ps cs js n c t f s k tr].
  unfold handle in H. cbn [route] in H. unfold auth_logout, try_catch in H.
  destruct f as [| [d |] f];
    cbv [bind emit round_trip fail_store throw ret set_session res_json
         res_status_json
         Users Pipelines Customers Jobs nextId clock ticks faults
         session console trace] in H;
    inversion H; subst res w'; unfold same_store; cbn; repeat split;
    reflexivity.
Qed.

Lemma logout_clears_the_session_witness :
  same_store seeded_world (snd (handle POST_auth_logout seeded_world))
  /\ match hd None (faults seeded_world) with
     | None =>
         fst (handle POST_auth_logout seeded_world)
         = {| statusCode := 200; json := SuccessBody |}
         /\ session (snd (handle POST_auth_logout seeded_world)) = None
         /\ trace (snd (handle POST_auth_logout seeded_world))
            = trace seeded_world ++ [EvSessionDestroy]
     | Some detail =>
         fst (handle POST_auth_logout seeded_world)
         = {| statusCode := 500; json := ErrorBody "Could not log out" |}
         /\ session (snd (handle POST_auth_logout seeded_world))
            = session seeded_world
     end.
Proof.
  apply (logout_clears_the_session seeded_world). apply surjective_pairing.
Defined.

(** ** GET /api/user *)

Lemma find_ext {A} (p q : A -> bool) l :
  (forall x, p x = q x) -> find p l = find q l.
Proof.
  intros H. induction l as [| a l IH]; simpl; [reflexivity |].
  rewrite H. destruct (q a); [reflexivity | exact IH].
Qed.

(** X8.  The profile route answers with the stored record of the session user;
    when that record is gone (a stale session), reading the missing record
    throws and the answer is the generic 500. *)
Theorem api_user_profile :
  forall w u res w',
    session w = Some u ->
    hd None (faults w) = None ->
    handle GET_api_user w = (res, w') ->
    match find (fun user => Nat.eqb (User._id user) u) (Users w) with
    | Some user =>
        res = {| statusCode := 200; json := UserBody (view_of_user user) |}
    | None =>
        res = {| statusCode := 500; json := ErrorBody "Failed to fetch user" |}
    end.
Proof.
  intros w u res w' Hs Hf H.
  unfold handle in H. cbn [route] in H. unfold api_user in H.
  rewrite (requireAuth_session _ _ _ Hs) in H.
  unfold try_catch, api_user_body in H.
  unfold bind at 1 in H. unfold get_session at 1 in H. rewrite Hs in H.
  unfold bind at 1 in H. unfold User_findById in H. cbn [option_map] in H.
  match type of H with
  | context [query CUsers ?f ?rd w] =>
      destruct (query_run CUsers f rd w Hf) as (w1 & Q & U & _);
        rewrite Q in H
  end.
  destruct U as (HU & _). rewrite HU in H.
  rewrite (find_ext _ (fun user => Nat.eqb (User._id user) u)) in H.
  - destruct (find (fun user => Nat.eqb (User._id user) u) (Users w));
      cbv [res_json res_status_json ret throw] in H; now inversion H.
  - intros x. unfold User_matches; simpl.
    now rewrite orb_false_r, andb_true_r.
Qed.

Lemma api_user_profile_witness :
  match find (fun user => Nat.eqb (User._id user) 0%nat) (Users seeded_world) with
  | Some user =>
      fst (handle GET_api_user seeded_world)
      = {| statusCode := 200; json := UserBody (view_of_user user) |}
  | None =>
      fst (handle GET_api_user seeded_world)
      = {| statusCode := 500; json := ErrorBody "Failed to fetch user" |}
  end.
Proof.
  apply (api_user_profile seeded_world 0%nat _
           (snd (handle GET_api_user seeded_world)));
    [reflexivity | reflexivity | apply surjective_pairing].
Defined.

(** ** The dashboard's totals *)

Lemma owned_customer_matches u c :
  Customer_matches (owned_by (Some u)) c = true <-> Customer.userId c = Some u.
Proof.
  unfold Customer_matches, owned_by, id_is, opt_eqb; simpl.
  destruct (Customer.userId c) as [i |]; [| split; discriminate].
  rewrite Nat.eqb_eq. split; congruence.
Qed.

Lemma owned_pipeline_matches u p :
  Pipeline_matches (owned_by (Some u)) p = true <-> Pipeline.userId p = Some u.
Proof.
  unfold Pipeline_matches, owned_by, id_is, opt_eqb; simpl.
  destruct (Pipeline.userId p) as [i |]; [| split; discriminate].
  rewrite Nat.eqb_eq. split; congruence.
Qed.

(** X9.  On the dashboard, [totalCustomers] and [totalPipelines] count the
    customers and the pipelines owned by the session user, and nothing is
    counted twice: no total exceeds the size of its collection. *)
Theorem dashboard_totals :
  forall w u stats w',
    session w = Some u ->
    handle GET_api_dashboard_stats w
    = ({| statusCode := 200; json := StatsBody stats |}, w') ->
    Stats.totalCustomers stats
    = List.length (filter (Customer_matches (owned_by (Some u))) (Customers w))
    /\ Stats.totalPipelines stats
       = List.length (filter (Pipeline_matches (owned_by (Some u))) (Pipelines w))
    /\ (forall c, Customer_matches (owned_by (Some u)) c = true
                  <-> Customer.userId c = Some u)
    /\ (forall p, Pipeline_matches (owned_by (Some u)) p = true
                  <-> Pipeline.userId p = Some u)
    /\ (Stats.totalCustomers stats <= List.length (Customers w))%nat
    /\ (Stats.totalPipelines stats <= List.length (Pipelines w))%nat
    /\ (Stats.activeJobs stats <= List.length (Jobs w))%nat.
Proof.
  intros w u stats w' Hs H.
  unfold handle in H. cbn [route] in H. unfold dashboard_stats in H.
  rewrite (requireAuth_session _ _ _ Hs) in H. unfold try_catch in H.
  destruct (dashboard_stats_body w) as [[res | e] w1] eqn:E;
    [| cbv [res_status_json ret] in H; inversion H].
  apply dashboard_stats_body_Ok with (u := u) in E as [-> _]; [| exact Hs].
  inversion H; subst stats w1. cbn.
  split; [reflexivity |]. split; [reflexivity |].
  split; [apply owned_customer_matches |].
  split; [apply owned_pipeline_matches |].
  repeat split; apply List.filter_length_le.
Qed.

Lemma dashboard_totals_witness :
  Stats.totalCustomers two_tenants_stats
  = List.length (filter (Customer_matches (owned_by (Some 0%nat)))
                        (Customers (set_session (Some 0%nat) two_tenants)))
  /\ Stats.totalPipelines two_tenants_stats
     = List.length (filter (Pipeline_matches (owned_by (Some 0%nat)))
                           (Pipelines (set_session (Some 0%nat) two_tenants))).
Proof.
  assert (H1 : session (set_session (Some 0%nat) two_tenants) = Some 0%nat)
    by reflexivity.
  assert (H2 : handle GET_api_dashboard_stats
                 (set_session (Some 0%nat) two_tenants)
               = ({| statusCode := 200; json := StatsBody two_tenants_stats |},
                  snd (handle GET_api_dashboard_stats
                              (set_session (Some 0%nat) two_tenants))))
    by (vm_compute; reflexivity).
  destruct (dashboard_totals _ _ _ _ H1 H2) as (Hc & Hp & _).
  split; [exact Hc | exact Hp].
Defined.

(** ** Dangling references in the job listing *)

Lemma Forall2_In_left {A B} (R : A -> B -> Prop) l l' x :
  Forall2 R l l' -> In x l -> exists y, In y l' /\ R x y.
Proof.
  induction 1 as [| a b l l' Hab _ IH]; intros Hin; [contradiction |].
  destruct Hin as [-> | Hin].
  - exists b. split; [now left | exact Hab].
  - destruct (IH Hin) as (y & Hy & Hr). exists y. split; [now right | exact Hr].
Qed.

Lemma Array_map_run {A B} (f : A -> M B) l :
  Forall (fun a => exists b, forall w, f a w = (Ok b, w)) l ->
  exists bs, forall w, Array_map f l w = (Ok bs, w).
Proof.
  induction 1 as [| a l (b & Hb) _ (bs & Hbs)]; simpl.
  - exists []. reflexivity.
  - exists (b :: bs). intros w. unfold bind. rewrite Hb, Hbs. reflexivity.
Qed.

Lemma format_job_run customers pipelines job :
  populated_customer customers (Job.customerId job) <> None ->
  populated_pipeline pipelines (Job.pipelineId job) <> None ->
  Job.dueDate job <> InvalidDate ->
  exists v, forall w, format_job customers pipelines job w = (Ok v, w).
Proof.
  intros Hc Hp Hd. unfold format_job, calendar_date.
  destruct (populated_customer customers (Job.customerId job)); [| congruence].
  destruct (populated_pipeline pipelines (Job.pipelineId job)); [| congruence].
  destruct (Job.dueDate job); [| congruence |]; eexists; intros w; reflexivity.
Qed.

Lemma get_jobs_body_run w u :
  session w = Some u ->
  no_fault_within 3 (faults w) ->
  (forall j, In j (Jobs w) -> owned u j ->
             resolves w j /\ Job.dueDate j <> InvalidDate) ->
  exists res w', get_jobs_body w = (Ok res, w').
Proof.
  intros Hs (F1 & F2 & F3 & _) Hall. unfold get_jobs_body.
  unfold bind at 1. unfold get_session at 1. rewrite Hs.
  unfold bind at 1. unfold Job_find_sorted.
  match goal with
  | |- context [query CJobs ?f ?rd w] =>
      destruct (query_run CJobs f rd w F1) as (w1 & Q1 & U1 & G1 & _)
  end.
  rewrite Q1. rewrite <- G1 in F2, F3.
  unfold bind at 1. unfold Customer_find.
  match goal with
  | |- context [query CCustomers ?f ?rd w1] =>
      destruct (query_run CCustomers f rd w1 F2) as (w2 & Q2 & U2 & G2 & _)
  end.
  rewrite Q2. rewrite <- G2 in F3.
  unfold bind at 1. unfold Pipeline_find.
  match goal with
  | |- context [query CPipelines ?f ?rd w2] =>
      destruct (query_run CPipelines f rd w2 F3) as (w3 & Q3 & U3 & _)
  end.
  rewrite Q3.
  pose proof (unchanged_trans _ _ _ U1 U2) as U12.
  pose proof (unchanged_trans _ _ _ U12 U3) as U13.
  destruct U1 as (_ & _ & _ & J1 & _).
  destruct U12 as (_ & _ & C2 & _).
  destruct U13 as (_ & P3 & _).
  rewrite J1, C2, P3.
  set (jobs := sort_createdAt_desc
                 (filter (Job_matches (owned_by (Some u))) (Jobs w))).
  assert (Hrun : exists vs, forall x,
             Array_map
               (format_job
                  (filter (Customer_matches (in_ids (ids_of (map Job.customerId jobs))))
                          (Customers w))
                  (filter (Pipeline_matches (in_ids (ids_of (map Job.pipelineId jobs))))
                          (Pipelines w))) jobs x = (Ok vs, x)).
  { apply Array_map_run. apply Forall_forall. intros j Hj.
    pose proof Hj as Hj'. apply In_sorted_filter in Hj' as [Hin Hm].
    apply owned_by_matches in Hm.
    destruct (Hall j Hin Hm) as ((Hc & Hp) & Hd).
    apply format_job_run; [| | exact Hd].
    - rewrite populated_customer_in_ids; [exact Hc |].
      intros i Hi. apply In_ids_of. rewrite <- Hi. now apply in_map.
    - rewrite populated_pipeline_in_ids; [exact Hp |].
      intros i Hi. apply In_ids_of. rewrite <- Hi. now apply in_map. }
  destruct Hrun as (vs & Hvs). unfold bind at 1. rewrite Hvs.
  eexists. eexists. reflexivity.
Qed.

(** X10.  With a store that does not fail and no invalid date stored, the job
    listing answers 200 exactly when every job of the session user names a
    stored customer and a stored pipeline; one dangling reference turns the
    whole listing into the generic 500. *)
Theorem jobs_listing_needs_resolving_references :
  forall w u,
    session w = Some u ->
    no_fault_within 3 (faults w) ->
    (forall j, In j (Jobs w) -> Job.dueDate j <> InvalidDate) ->
    (statusCode (fst (handle GET_api_jobs w)) = 200%nat
     <-> forall j, In j (Jobs w) -> owned u j -> resolves w j)
    /\ (statusCode (fst (handle GET_api_jobs w)) <> 200%nat ->
        fst (handle GET_api_jobs w)
        = {| statusCode := 500; json := ErrorBody "Failed to fetch jobs" |}).
Proof.
  intros w u Hs Hf Hd.
  unfold handle. cbn [route]. unfold get_jobs.
  rewrite (requireAuth_session _ _ _ Hs). unfold try_catch.
  destruct (get_jobs_body w) as [[res | e] w1] eqn:E.
  - apply get_jobs_body_Ok in E as (_ & views & -> & HF). rewrite Hs in HF.
    cbn. split; [| congruence]. split; [| reflexivity].
    intros _ j Hin Ho.
    assert (Hl : In j (sort_createdAt_desc
                         (filter (Job_matches (owned_by (Some u))) (Jobs w)))).
    { eapply Permutation_in;
        [apply Permutation_sym, sort_createdAt_desc_perm |].
      apply filter_In. split; [exact Hin | now apply owned_by_matches]. }
    destruct (Forall2_In_left _ _ _ _ HF Hl)
      as (v & _ & (_ & _ & _ & _ & _ & (c & Hc & _) & (p & Hp & _) & _)).
    split; congruence.
  - cbn. split; [| reflexivity]. split; [discriminate |].
    intros Hall. exfalso.
    destruct (get_jobs_body_run w u Hs Hf) as (res & w' & E').
    + intros j Hin Ho. split; [now apply Hall | now apply Hd].
    + rewrite E in E'. discriminate.
Qed.

Lemma jobs_listing_needs_resolving_references_witness :
  (statusCode (fst (handle GET_api_jobs dangling_world)) = 200%nat
   <-> forall j, In j (Jobs dangling_world) -> owned 0%nat j ->
                 resolves dangling_world j)
  /\ (statusCode (fst (handle GET_api_jobs dangling_world)) <> 200%nat ->
      fst (handle GET_api_jobs dangling_world)
      = {| statusCode := 500; json := ErrorBody "Failed to fetch jobs" |}).
Proof.
  apply (jobs_listing_needs_resolving_references dangling_world 0%nat).
  - reflexivity.
  - vm_compute. tauto.
  - apply Forall_forall. vm_compute.
    repeat (apply Forall_cons; [discriminate |]). apply Forall_nil.
Defined.

(** ** What the POST routes store *)

Lemma missing_string_nil path v : missing_string path v = [] <-> present v.
Proof.
  unfold missing_string, present. destruct v as [s |].
  - destruct (String.eqb s EmptyString) eqn:E.
    + apply String.eqb_eq in E. subst. split; [discriminate |].
      intros (s & Hs & Hne). inversion Hs; subst. contradiction.
    + apply String.eqb_neq in E. split; [eauto | reflexivity].
  - split; [discriminate | intros (s & Hs & _); discriminate].
Qed.

Lemma missing_id_nil path v : missing_id path v = [] <-> v <> None.
Proof.
  unfold missing_id. destruct v; split; congruence.
Qed.


Lemma Pipeline_save_cases p w o w' :
  Pipeline_save p w = (o, w') ->
  Users w' = Users w /\ Customers w' = Customers w /\ Jobs w' = Jobs w
  /\ ((Pipeline_invalid p = [] /\ hd None (faults w) = None
       /\ o = Ok tt /\ Pipelines w' = Pipelines w ++ [p])
      \/ ((Pipeline_invalid p <> [] \/ hd None (faults w) <> None)
          /\ (exists e, o = Throw e) /\ Pipelines w' = Pipelines w)).
Proof.
  unfold Pipeline_save. destruct (Pipeline_invalid p) as [| q qs]; intros H.
  - cbv [validate bind ret round_trip read put_Pipelines emit fail_store throw]
      in H.
    destruct (faults w) as [| [d |] rest] eqn:Ef; inversion H; subst; simpl;
      (split; [reflexivity |]); (split; [reflexivity |]);
      (split; [reflexivity |]).
    + left. repeat split; reflexivity.
    + right. split; [right; discriminate |]. split; [eauto | reflexivity].
    + left. repeat split; reflexivity.
  - cbv [validate bind fail_store emit throw] in H.
    inversion H; subst; simpl.
    (split; [reflexivity |]); (split; [reflexivity |]);
      (split; [reflexivity |]).
    right. split; [left; discriminate |]. split; [eauto | reflexivity].
Qed.



(** ** The customer and pipeline listings *)

Lemma reliable_hd w : reliable w -> hd None (faults w) = None.
Proof.
  unfold reliable. destruct (faults w) as [| f l]; [reflexivity |].
  intros H. inversion H; subst. reflexivity.
Qed.

Lemma reliable_tl w w' : reliable w -> faults w' = tl (faults w) -> reliable w'.
Proof.
  unfold reliable. intros H ->. destruct (faults w) as [| f l]; [exact H |].
  inversion H; subst. assumption.
Qed.

Lemma query_frame {A} c f (rd : World -> A) w0 w :
  listing_frame w0 w ->
  exists w', query c f rd w = (Ok (rd w'), w') /\ listing_frame w0 w'.
Proof.
  intros [U R].
  destruct (query_run c f rd w (reliable_hd w R)) as (w' & Q & U' & G & _).
  exists w'. split; [exact Q |]. split.
  - eapply unchanged_trans; eauto.
  - eapply reliable_tl; eauto.
Qed.

Lemma Promise_all_map_frame {A B} (f : A -> M B) (g : A -> B) w0 :
  (forall a w, listing_frame w0 w ->
               exists w', f a w = (Ok (g a), w') /\ listing_frame w0 w') ->
  forall l w, listing_frame w0 w ->
              exists w', Promise_all (map f l) w = (Ok (map g l), w')
                         /\ listing_frame w0 w'.
Proof.
  intros Hf. induction l as [| a l IH]; intros w Hw; simpl map.
  - exists w. split; [reflexivity | exact Hw].
  - destruct (Hf a w Hw) as (w1 & E1 & H1).
    destruct (IH w1 H1) as (w2 & E2 & H2).
    exists w2. split; [| exact H2].
    now apply Promise_all_cons_run with (w1 := w1).
Qed.

Lemma pipeline_with_job_count_frame w0 p w :
  listing_frame w0 w ->
  exists w', pipeline_with_job_count p w = (Ok (pipeline_view (Jobs w0) p), w')
             /\ listing_frame w0 w'.
Proof.
  intros Hw. unfold pipeline_with_job_count, Job_countDocuments.
  match goal with
  | |- context [query CJobs ?f ?rd] =>
      destruct (query_frame CJobs f rd w0 w Hw) as (w' & Q & Hw')
  end.
  exists w'. split; [| exact Hw'].
  unfold bind. rewrite Q. unfold ret, pipeline_view.
  destruct Hw' as [(_ & _ & _ & HJ & _) _]. rewrite HJ, date_part.
  do 2 f_equal. f_equal. f_equal. apply filter_ext. intros j.
  unfold Job_matches, active_on_pipeline; simpl. now rewrite !andb_true_r.
Qed.

Lemma customer_with_job_counts_frame w0 c w :
  listing_frame w0 w ->
  exists w', customer_with_job_counts c w = (Ok (customer_view (Jobs w0) c), w')
             /\ listing_frame w0 w'.
Proof.
  intros Hw. unfold customer_with_job_counts, Job_countDocuments.
  match goal with
  | |- context [bind (query CJobs ?f ?rd) _] =>
      destruct (query_frame CJobs f rd w0 w Hw) as (w1 & Q1 & Hw1)
  end.
  unfold bind at 1. rewrite Q1.
  match goal with
  | |- context [bind (query CJobs ?f ?rd) _] =>
      destruct (query_frame CJobs f rd w0 w1 Hw1) as (w2 & Q2 & Hw2)
  end.
  exists w2. split; [| exact Hw2].
  unfold bind. rewrite Q2. unfold ret, customer_view.
  destruct Hw1 as [(_ & _ & _ & HJ1 & _) _].
  destruct Hw2 as [(_ & _ & _ & HJ2 & _) _]. rewrite HJ1, HJ2.
  do 2 f_equal. f_equal.
  - f_equal. apply filter_ext. intros j.
    unfold Job_matches, active_with_customer; simpl. now rewrite !andb_true_r.
  - f_equal. apply filter_ext. intros j.
    unfold Job_matches, with_customer; simpl. now rewrite !andb_true_r.
Qed.

Lemma get_pipelines_run w u :
  session w = Some u -> reliable w ->
  exists w',
    handle GET_api_pipelines w
    = ({| statusCode := 200;
          json := PipelinesBody
                    (map (pipeline_view (Jobs w))
                         (filter (Pipeline_matches (owned_by (Some u)))
                                 (Pipelines w))) |}, w').
Proof.
  intros Hs Hr. unfold handle. cbn [route]. unfold get_pipelines.
  rewrite (requireAuth_session _ _ _ Hs). unfold try_catch, get_pipelines_body.
  unfold bind at 1. unfold get_session at 1. rewrite Hs.
  unfold bind at 1. unfold Pipeline_find.
  assert (H0 : listing_frame w w) by (split; [apply unchanged_refl | exact Hr]).
  match goal with
  | |- context [query CPipelines ?f ?rd w] =>
      destruct (query_frame CPipelines f rd w w H0) as (w1 & Q & H1)
  end.
  rewrite Q. pose proof H1 as [(_ & HP & _) _]. rewrite HP.
  destruct (Promise_all_map_frame pipeline_with_job_count
              (pipeline_view (Jobs w)) w
              (pipeline_with_job_count_frame w)
              (filter (Pipeline_matches (owned_by (Some u))) (Pipelines w))
              w1 H1) as (w2 & P & _).
  unfold bind at 1. rewrite P. eexists. reflexivity.
Qed.

Lemma get_customers_run w u :
  session w = Some u -> reliable w ->
  exists w',
    handle GET_api_customers w
    = ({| statusCode := 200;
          json := CustomersBody
                    (map (customer_view (Jobs w))
                         (filter (Customer_matches (owned_by (Some u)))
                                 (Customers w))) |}, w').
Proof.
  intros Hs Hr. unfold handle. cbn [route]. unfold get_customers.
  rewrite (requireAuth_session _ _ _ Hs). unfold try_catch, get_customers_body.
  unfold bind at 1. unfold get_session at 1. rewrite Hs.
  unfold bind at 1. unfold Customer_find.
  assert (H0 : listing_frame w w) by (split; [apply unchanged_refl | exact Hr]).
  match goal with
  | |- context [query CCustomers ?f ?rd w] =>
      destruct (query_frame CCustomers f rd w w H0) as (w1 & Q & H1)
  end.
  rewrite Q. pose proof H1 as [(_ & _ & HC & _) _]. rewrite HC.
  destruct (Promise_all_map_frame customer_with_job_counts
              (customer_view (Jobs w)) w
              (customer_with_job_counts_frame w)
              (filter (Customer_matches (owned_by (Some u))) (Customers w))
              w1 H1) as (w2 & P & _).
  unfold bind at 1. rewrite P. eexists. reflexivity.
Qed.

Lemma id_is_spec i o : id_is i o = true <-> o = Some i.
Proof.
  unfold id_is, opt_eqb. destruct o as [k |]; [| split; discriminate].
  rewrite Nat.eqb_eq. split; congruence.
Qed.

(** X12.  With a store that does not fail, GET /api/customers lists the session
    user's customers in store order, each with the number of jobs naming it
    ([totalJobs]) and of those with status "active" ([activeJobs]), so that
    [activeJobs] never exceeds [totalJobs]. *)
Theorem customers_listing :
  forall w u,
    session w = Some u ->
    reliable w ->
    fst (handle GET_api_customers w)
    = {| statusCode := 200;
         json := CustomersBody
                   (map (customer_view (Jobs w))
                        (filter (Customer_matches (owned_by (Some u)))
                                (Customers w))) |}
    /\ (forall c, Customer_matches (owned_by (Some u)) c = true
                  <-> Customer.userId c = Some u)
    /\ (forall c j, with_customer c j = true <-> Job.customerId j = Some c)
    /\ (forall c j, active_with_customer c j = true
                    <-> Job.customerId j = Some c /\ Job.status j = "active")
    /\ (forall c, (CustomerView.activeJobs (customer_view (Jobs w) c)
                   <= CustomerView.totalJobs (customer_view (Jobs w) c))%nat).
Proof.
  intros w u Hs Hr. destruct (get_customers_run w u Hs Hr) as (w' & ->).
  split; [reflexivity |]. split; [apply owned_customer_matches |].
  split; [intros c j; apply id_is_spec |]. split.
  - intros c j. unfold active_with_customer.
    now rewrite andb_true_iff, id_is_spec, String.eqb_eq.
  - intros c. cbn. apply filter_length_mono. intros j Hj.
    unfold active_with_customer in Hj. now apply andb_prop in Hj as [Hj _].
Qed.

Lemma customers_listing_witness :
  fst (handle GET_api_customers seeded_world)
  = {| statusCode := 200;
       json := CustomersBody
                 (map (customer_view (Jobs seeded_world))
                      (filter (Customer_matches (owned_by (Some 0%nat)))
                              (Customers seeded_world))) |}.
Proof.
  apply (customers_listing seeded_world 0%nat); [reflexivity |].
  vm_compute. constructor.
Defined.

(** X13.  With a store that does not fail, GET /api/pipelines lists the session
    user's pipelines in store order with their steps as stored, each with
    the number of active jobs naming it and its creation date, which reads
    YYYY-MM-DD for years 0..9999. *)
Theorem pipelines_listing :
  forall w u,
    session w = Some u ->
    reliable w ->
    fst (handle GET_api_pipelines w)
    = {| statusCode := 200;
         json := PipelinesBody
                   (map (pipeline_view (Jobs w))
                        (filter (Pipeline_matches (owned_by (Some u)))
                                (Pipelines w))) |}
    /\ (forall p, Pipeline_matches (owned_by (Some u)) p = true
                  <-> Pipeline.userId p = Some u)
    /\ (forall p j, active_on_pipeline p j = true
                    <-> Job.pipelineId j = Some p /\ Job.status j = "active")
    /\ (forall p, 0 <= Iso.YearFromTime (Pipeline.createdAt p) <= 9999 ->
                  Iso.is_YYYY_MM_DD
                    (PipelineView.createdAt (pipeline_view (Jobs w) p)) = true).
Proof.
  intros w u Hs Hr. destruct (get_pipelines_run w u Hs Hr) as (w' & ->).
  split; [reflexivity |]. split; [apply owned_pipeline_matches |]. split.
  - intros p j. unfold active_on_pipeline.
    now rewrite andb_true_iff, id_is_spec, String.eqb_eq.
  - intros p Hy. cbn. now apply date_string_four_digit_year.
Qed.

Lemma pipelines_listing_witness :
  fst (handle GET_api_pipelines seeded_world)
  = {| statusCode := 200;
       json := PipelinesBody
                 (map (pipeline_view (Jobs seeded_world))
                      (filter (Pipeline_matches (owned_by (Some 0%nat)))
                              (Pipelines seeded_world))) |}.
Proof.
  apply (pipelines_listing seeded_world 0%nat); [reflexivity |].
  vm_compute. constructor.
Defined.

(** ** Creating a pipeline and listing it *)

Lemma post_pipelines_cases w u b res w' :
  session w = Some u ->
  handle (POST_api_pipelines b) w = (res, w') ->
  Users w' = Users w /\ Customers w' = Customers w /\ Jobs w' = Jobs w
  /\ session w' = session w
  /\ (faults w' = faults w \/ faults w' = tl (faults w))
  /\ ((present (PipelineBody.name b) /\ hd None (faults w) = None
       /\ res = {| statusCode := 201; json := PipelineCreated (nextId w) |}
       /\ Pipelines w' = Pipelines w ++ [pipeline_of b w])
      \/ (~ (present (PipelineBody.name b) /\ hd None (faults w) = None)
          /\ res = {| statusCode := 500;
                      json := ErrorBody "Failed to create pipeline" |}
          /\ Pipelines w' = Pipelines w)).
Proof.
  intros Hs H. destruct w as [us ps cs js n c t f s k tr].
  cbn [session] in Hs. subst s.
  unfold handle in H. cbn [route] in H.
  unfold post_pipelines, requireAuth, try_catch, post_pipelines_body in H.
  cbv [bind get_session new_Pipeline new_ObjectId Date_now ret
       Users Pipelines Customers Jobs nextId clock ticks faults session
       console trace] in H.
  unfold Pipeline_save, pipeline_of in *.
  cbn [Users Pipelines Customers Jobs nextId clock ticks faults session
       console trace] in *.
  unfold Pipeline_invalid in H. cbn [Pipeline.name Pipeline.userId] in H.
  cbn [missing_id app] in H. rewrite app_nil_r in H.
  destruct (missing_string "name" (PipelineBody.name b)) as [| q qs] eqn:Hn.
  - apply missing_string_nil in Hn.
    destruct f as [| [d |] f];
      cbv [validate bind ret round_trip read put_Pipelines emit fail_store
           throw res_status_json
           Users Pipelines Customers Jobs nextId clock ticks faults session
           console trace] in H;
      inversion H; subst res w'; cbn;
      (split; [reflexivity |]); (split; [reflexivity |]);
      (split; [reflexivity |]); (split; [reflexivity |]).
    + split; [now left |]. left. repeat split; auto.
    + split; [now right |]. right.
      split; [intros [_ Hf]; discriminate | split; reflexivity].
    + split; [now right |]. left. repeat split; auto.
  - assert (Hnot : ~ present (PipelineBody.name b)).
    { intros Hp. apply (proj2 (missing_string_nil "name" _)) in Hp.
      congruence. }
    cbv [validate bind ret round_trip read put_Pipelines emit fail_store
         throw res_status_json
         Users Pipelines Customers Jobs nextId clock ticks faults session
         console trace] in H.
    inversion H; subst res w'; cbn.
    (split; [reflexivity |]); (split; [reflexivity |]);
      (split; [reflexivity |]); (split; [reflexivity |]).
    split; [now left |]. right.
    split; [intros [Hp _]; contradiction | split; reflexivity].
Qed.



Lemma filter_nil_when_none {A} (p : A -> bool) l :
  (forall x, In x l -> p x = false) -> filter p l = [].
Proof.
  induction l as [| a l IH]; intros H; simpl; [reflexivity |].
  rewrite (H a (or_introl eq_refl)). apply IH. intros x Hx. apply H. now right.
Qed.

(** X15.  A pipeline created with POST /api/pipelines is the last entry of the
    next GET /api/pipelines of the same user, with the steps of the request
    body in their order; its job count is 0 when no stored job names the
    new id. *)
Theorem created_pipeline_is_listed :
  forall w u b res w',
    session w = Some u ->
    reliable w ->
    present (PipelineBody.name b) ->
    handle (POST_api_pipelines b) w = (res, w') ->
    res = {| statusCode := 201; json := PipelineCreated (nextId w) |}
    /\ fst (handle GET_api_pipelines w')
       = {| statusCode := 200;
            json := PipelinesBody
                      (map (pipeline_view (Jobs w))
                           (filter (Pipeline_matches (owned_by (Some u)))
                                   (Pipelines w))
                       ++ [pipeline_view (Jobs w) (pipeline_of b w)]) |}
    /\ PipelineView.steps (pipeline_view (Jobs w) (pipeline_of b w))
       = PipelineBody.steps b
    /\ ((forall j, In j (Jobs w) -> Job.pipelineId j <> Some (nextId w)) ->
        PipelineView.jobCount (pipeline_view (Jobs w) (pipeline_of b w))
        = 0%nat).
Proof.
  intros w u b res w' Hs Hr Hp H.
  destruct (post_pipelines_cases w u b res w' Hs H)
    as (_ & _ & HJ & HS & HF & [(_ & _ & Hres & HP) | (Hbad & _)]);
    [| exfalso; apply Hbad; split; [exact Hp | now apply reliable_hd]].
  split; [exact Hres |].
  assert (Hr' : reliable w').
  { destruct HF as [HF | HF]; [unfold reliable; now rewrite HF |].
    eapply reliable_tl; eauto. }
  assert (Hs' : session w' = Some u) by congruence.
  destruct (get_pipelines_run w' u Hs' Hr') as (x & ->). cbn [fst].
  rewrite HP, HJ, filter_app, map_app. cbn [filter].
  assert (Hown : Pipeline_matches (owned_by (Some u)) (pipeline_of b w) = true).
  { apply owned_pipeline_matches. cbn. exact Hs. }
  rewrite Hown. cbn [map].
  split; [reflexivity |]. split; [reflexivity |].
  intros Hfresh. cbn. rewrite filter_nil_when_none; [reflexivity |].
  intros j Hin. unfold active_on_pipeline.
  destruct (id_is (nextId w) (Job.pipelineId j)) eqn:E; [| reflexivity].
  apply id_is_spec in E. exfalso. exact (Hfresh j Hin E).
Qed.

Lemma created_pipeline_is_listed_witness :
  fst (handle (POST_api_pipelines qa_pipeline) seeded_world)
  = {| statusCode := 201; json := PipelineCreated (nextId seeded_world) |}
  /\ fst (handle GET_api_pipelines
                 (snd (handle (POST_api_pipelines qa_pipeline) seeded_world)))
     = {| statusCode := 200;
          json := PipelinesBody
                    (map (pipeline_view (Jobs seeded_world))
                         (filter (Pipeline_matches (owned_by (Some 0%nat)))
                                 (Pipelines seeded_world))
                     ++ [pipeline_view (Jobs seeded_world)
                           (pipeline_of qa_pipeline seeded_world)]) |}.
Proof.
  assert (Hr : reliable seeded_world) by (vm_compute; constructor).
  assert (Hp : present (PipelineBody.name qa_pipeline))
    by (exists "QA"; split; [reflexivity | discriminate]).
  destruct (created_pipeline_is_listed seeded_world 0%nat qa_pipeline _ _
              eq_refl Hr Hp (surjective_pairing _)) as (H1 & H2 & _).
  split; [exact H1 | exact H2].
Defined.

(** ** Which job requests are accepted *)

Lemma new_Date_valid d :
  new_Date d <> InvalidDate
  <-> exists t, d = ParsesTo t /\ Z.abs t <= maxTimeValue.
Proof.
  unfold new_Date. destruct d as [| t].
  - split; [congruence | intros (t & Ht & _); discriminate].
  - destruct (Z.abs t <=? maxTimeValue) eqn:E.
    + apply Z.leb_le in E. split; [eauto | discriminate].
    + apply Z.leb_gt in E. split; [congruence |].
      intros (t' & Ht & Hle). inversion Ht; subst. lia.
Qed.

Lemma bad_date_nil path d : bad_date path d = [] <-> d <> InvalidDate.
Proof. unfold bad_date. destruct d; split; congruence. Qed.

Lemma app_nil_iff {A} (l1 l2 : list A) : l1 ++ l2 = [] <-> l1 = [] /\ l2 = [].
Proof.
  split; [apply app_eq_nil_parts | intros [-> ->]; reflexivity].
Qed.

Lemma job_of_valid b w u :
  session w = Some u ->
  Job_invalid (job_of b w) = [] <-> accepted_job b.
Proof.
  intros Hs. unfold Job_invalid, accepted_job, job_of. cbn. rewrite Hs. cbn.
  rewrite !app_nil_iff, !missing_string_nil, !missing_id_nil, bad_date_nil.
  split.
  - intros (Ht & Hc & Hp & Hstep & Hd & _).
    repeat split; try assumption.
    intros d Hdue. rewrite Hdue in Hd. now apply new_Date_valid.
  - intros (Ht & Hc & Hp & Hstep & Hd).
    repeat split; try assumption.
    destruct (JobBody.dueDate b) as [d |]; [| discriminate].
    apply new_Date_valid. now apply Hd.
Qed.



(** ** Failures around the first login *)

(** X17.  A first login whose fixed [githubId] is already stored under another
    username runs into the unique index: the answer is the generic 500, the
    duplicate-key error is logged, no record is stored and no session is
    established. *)
Theorem first_login_with_taken_githubId :
  forall w,
    find (User_matches by_username_desivar) (Users w) = None ->
    (exists v, In v (Users w) /\ User.githubId v = Some "desivar-github-id") ->
    no_fault_within 2 (faults w) ->
    exists w',
      handle (POST_auth_github (Some "desivar")) w
      = ({| statusCode := 500; json := ErrorBody "Authentication failed" |}, w')
      /\ same_store w w'
      /\ session w' = session w
      /\ console w'
         = console w ++ [{| stream := Stderr; text := "Auth error:";
                            arg := LogError (DuplicateKeyError "githubId") |}].
Proof.
  intros w Hfind (v & Hin & Hv) Hf.
  assert (Hgid : githubId_taken (desivar_user w) (Users w) = true).
  { unfold githubId_taken. apply existsb_exists. exists v.
    split; [exact Hin |]. rewrite Hv. reflexivity. }
  destruct (first_login_duplicate_githubId w Hfind Hgid Hf)
    as (w' & E & HU & HP & HC & HJ & HS & HK).
  exists w'. unfold same_store. repeat split; assumption.
Qed.

Lemma first_login_with_taken_githubId_witness :
  exists w',
    handle (POST_auth_github (Some "desivar")) squatter_world
    = ({| statusCode := 500; json := ErrorBody "Authentication failed" |}, w')
    /\ same_store squatter_world w'
    /\ session w' = session squatter_world
    /\ console w'
       = console squatter_world
         ++ [{| stream := Stderr; text := "Auth error:";
                arg := LogError (DuplicateKeyError "githubId") |}].
Proof.
  apply (first_login_with_taken_githubId squatter_world).
  - reflexivity.
  - eexists. split; [left; reflexivity | reflexivity].
  - vm_compute. tauto.
Defined.

(** Case analysis on the coming faults, all outcomes, [n] round trips deep. *)
Ltac all_faults n f k :=
  lazymatch n with
  | O => k
  | S ?m =>
      destruct f as [| [?d |] f];
      [ k | all_faults m f k | all_faults m f k ]
  end.

(** X18.  When the store fails while the sample pipelines or customers are
    saved, the seeder still returns normally and logs the error, and it
    stores no job; when it is a pipeline that fails to be saved, it stores
    no customer either. *)
Theorem seeding_failure_leaves_no_jobs :
  forall userId w,
    ~ no_fault_within 5 (faults w) ->
    exists e w',
      createSampleData userId w = (Ok tt, w')
      /\ Users w' = Users w
      /\ Jobs w' = Jobs w
      /\ session w' = session w
      /\ console w'
         = console w ++ [{| stream := Stderr;
                            text := "Error creating sample data:";
                            arg := LogError (StorageError e) |}]
      /\ (~ no_fault_within 2 (faults w) -> Customers w' = Customers w).
Proof.
  intros userId w Hn. destruct w as [us ps cs js n c t f s k tr].
  cbn [faults Users Pipelines Customers Jobs session console] in *.
  all_faults 5%nat f
    ltac:(first
            [ exfalso; apply Hn; cbn; tauto
            | cbv -[Z.add Z.max];
              do 2 eexists;
              split; [reflexivity |];
              split; [reflexivity |];
              split; [reflexivity |];
              split; [reflexivity |];
              split; [reflexivity |];
              first [ intros _; reflexivity
                    | intros H; exfalso; apply H; repeat split ] ]).
Qed.

Lemma seeding_failure_leaves_no_jobs_witness :
  exists e w',
    createSampleData 0%nat failing_world = (Ok tt, w')
    /\ Users w' = Users failing_world
    /\ Jobs w' = Jobs failing_world
    /\ session w' = session failing_world
    /\ console w'
       = console failing_world
         ++ [{| stream := Stderr; text := "Error creating sample data:";
                arg := LogError (StorageError e) |}]
    /\ (~ no_fault_within 2 (faults failing_world) ->
        Customers w' = Customers failing_world).
Proof.
  apply (seeding_failure_leaves_no_jobs 0%nat failing_world).
  vm_compute. intros (H & _). discriminate.
Defined.

(** ** Creating a job and listing it *)

Lemma post_jobs_accepted_run w u b :
  session w = Some u -> accepted_job b -> hd None (faults w) = None ->
  exists w',
    handle (POST_api_jobs b) w
    = ({| statusCode := 201; json := JobCreated (nextId w) |}, w')
    /\ Jobs w' = Jobs w ++ [job_of b w]
    /\ Users w' = Users w /\ Pipelines w' = Pipelines w
    /\ Customers w' = Customers w /\ session w' = session w
    /\ faults w' = tl (faults w).
Proof.
  intros Hs Ha Hf.
  assert (Hvalid : Job_invalid (job_of b w) = [])
    by (now apply (job_of_valid b w u Hs)).
  unfold handle. cbn [route]. unfold post_jobs.
  rewrite (requireAuth_session _ _ _ Hs).
  unfold try_catch, post_jobs_body.
  unfold bind at 1. unfold get_session at 1.
  unfold bind at 1. unfold new_Job.
  cbv [bind new_ObjectId Date_now ret or_default].
  cbn [Users Pipelines Customers Jobs nextId clock ticks faults session
       console trace].
  fold (job_of b w).
  match goal with
  | |- context [Job_save (job_of b w) ?x] =>
      destruct (Job_save_run (job_of b w) x Hvalid Hf)
        as (w' & Hrun & HJ & HU & HP & HC & HS & _ & _ & HF)
  end.
  rewrite Hrun. exists w'. cbv [res_status_json ret].
  cbn in HJ, HU, HP, HC, HS, HF. repeat split; assumption.
Qed.

(** X19.  A job created with POST /api/jobs for a stored customer and a stored
    pipeline appears in the next GET /api/jobs of the same user, under the
    new id, with the names of that customer and that pipeline, status
    "active", progress 0, and its due date as a date string or null. *)
Theorem created_job_is_listed :
  forall w u b customer pipeline,
    session w = Some u ->
    no_fault_within 4 (faults w) ->
    accepted_job b ->
    populated_customer (Customers w) (JobBody.customerId b) = Some customer ->
    populated_pipeline (Pipelines w) (JobBody.pipelineId b) = Some pipeline ->
    (forall j, In j (Jobs w) -> owned u j ->
               resolves w j /\ Job.dueDate j <> InvalidDate) ->
    exists w' views v,
      handle (POST_api_jobs b) w
      = ({| statusCode := 201; json := JobCreated (nextId w) |}, w')
      /\ fst (handle GET_api_jobs w')
         = {| statusCode := 200; json := JobsBody views |}
      /\ In v views
      /\ JobView.id v = nextId w
      /\ JobView.title v = JobBody.title b
      /\ JobView.customer v = Customer.name customer
      /\ JobView.pipeline v = Pipeline.name pipeline
      /\ JobView.currentStep v = JobBody.currentStep b
      /\ JobView.status v = "active"
      /\ JobView.progress v = 0
      /\ match JobBody.dueDate b with
         | None => JobView.dueDate v = None
         | Some (ParsesTo t) => JobView.dueDate v = Some (Iso.date_string t)
         | Some Unparseable => False
         end.
Proof.
  intros w u b customer pipeline Hs (F1 & Hf3) Ha Hc Hp Hall.
  destruct (post_jobs_accepted_run w u b Hs Ha F1)
    as (w' & Hpost & HJ & HU & HP & HC & HS & HF).
  assert (Hs' : session w' = Some u) by congruence.
  assert (Hf' : no_fault_within 3 (faults w')) by (now rewrite HF).
  assert (Hnew : resolves w' (job_of b w)
                 /\ Job.dueDate (job_of b w) <> InvalidDate).
  { unfold resolves. rewrite HC, HP. cbn. rewrite Hc, Hp.
    split; [split; discriminate |].
    destruct Ha as (_ & _ & _ & _ & Hd).
    destruct (JobBody.dueDate b) as [d |]; [| discriminate].
    apply new_Date_valid. now apply Hd. }
  assert (Hall' : forall j, In j (Jobs w') -> owned u j ->
                            resolves w' j /\ Job.dueDate j <> InvalidDate).
  { intros j Hin Ho. rewrite HJ in Hin. apply in_app_or in Hin as [Hin | Hin].
    - unfold resolves. rewrite HC, HP. now apply Hall.
    - destruct Hin as [<- | []]. exact Hnew. }
  destruct (get_jobs_body_run w' u Hs' Hf' Hall') as (res & w'' & Hget).
  pose proof Hget as Hok.
  apply get_jobs_body_Ok in Hok as (_ & views & -> & HF2). rewrite Hs' in HF2.
  assert (Hlisted : In (job_of b w)
                       (sort_createdAt_desc
                          (filter (Job_matches (owned_by (Some u))) (Jobs w')))).
  { eapply Permutation_in;
      [apply Permutation_sym, sort_createdAt_desc_perm |].
    apply filter_In. split.
    - rewrite HJ. apply in_or_app. right. now left.
    - apply owned_by_matches. unfold owned. cbn. exact Hs. }
  destruct (Forall2_In_left _ _ _ _ HF2 Hlisted)
    as (v & Hv & (Hid & Ht & Hstep & Hst & Hpr & (c' & Hc' & Hcn)
                  & (p' & Hp' & Hpn) & Hdue)).
  exists w', views, v. split; [exact Hpost |]. split.
  - unfold handle. cbn [route]. unfold get_jobs.
    rewrite (requireAuth_session _ _ _ Hs'). unfold try_catch.
    rewrite Hget. reflexivity.
  - split; [exact Hv |]. cbn in Hid, Ht, Hstep, Hst, Hpr, Hc', Hp', Hdue.
    rewrite HC, Hc in Hc'. rewrite HP, Hp in Hp'.
    inversion Hc'; subst c'. inversion Hp'; subst p'.
    repeat (split; [assumption |]).
    unfold rendered_due in Hdue.
    destruct (JobBody.dueDate b) as [[| t] |]; cbn in Hdue.
    + exact Hdue.
    + destruct (Z.abs t <=? maxTimeValue); [exact Hdue | contradiction].
    + exact Hdue.
Qed.

Lemma created_job_is_listed_witness :
  exists w' views v,
    handle (POST_api_jobs follow_up_job) seeded_world
    = ({| statusCode := 201; json := JobCreated (nextId seeded_world) |}, w')
    /\ fst (handle GET_api_jobs w')
       = {| statusCode := 200; json := JobsBody views |}
    /\ In v views
    /\ JobView.id v = nextId seeded_world
    /\ JobView.customer v = Some "ABC Corp"
    /\ JobView.pipeline v = Some "Web Development"
    /\ JobView.dueDate v = Some (Iso.date_string 1751328000000).
Proof.
  assert (Ha : accepted_job follow_up_job).
  { repeat split; try discriminate.
    - exists "Follow-up". split; [reflexivity | discriminate].
    - exists "Requirements". split; [reflexivity | discriminate].
    - intros d Hd. inversion Hd; subst. eexists. split; [reflexivity |].
      vm_compute. discriminate. }
  assert (Hall : forall j, In j (Jobs seeded_world) -> owned 0%nat j ->
                           resolves seeded_world j
                           /\ Job.dueDate j <> InvalidDate).
  { intros j Hin _. revert j Hin. apply Forall_forall. vm_compute.
    repeat (apply Forall_cons;
            [split; [split; discriminate | discriminate] |]).
    apply Forall_nil. }
  assert (Hs : session seeded_world = Some 0%nat) by reflexivity.
  assert (Hf : no_fault_within 4 (faults seeded_world))
    by (vm_compute; tauto).
  assert (Hc : populated_customer (Customers seeded_world)
                 (JobBody.customerId follow_up_job) = Some abc_corp)
    by (vm_compute; reflexivity).
  assert (Hp : populated_pipeline (Pipelines seeded_world)
                 (JobBody.pipelineId follow_up_job) = Some web_development)
    by (vm_compute; reflexivity).
  destruct (created_job_is_listed seeded_world 0%nat follow_up_job
              abc_corp web_development Hs Hf Ha Hc Hp Hall)
    as (w' & views & v & H1 & H2 & H3 & H4 & _ & H6 & H7 & _ & _ & _ & H11).
  exists w', views, v.
  split; [exact H1 |]. split; [exact H2 |]. split; [exact H3 |].
  split; [exact H4 |]. split; [exact H6 |]. split; [exact H7 |]. exact H11.
Defined.

(** ** Concrete runs *)

Example overshooting_job_rejected :
  fst (Job_save overshooting_job seeded_world)
  = Throw (ValidationError "progress")
  /\ Jobs (snd (Job_save overshooting_job seeded_world)) = Jobs seeded_world.
Proof. vm_compute. split; reflexivity. Qed.

Example dangling_reference_is_accepted_then_breaks_the_listing :
  fst (handle (POST_api_jobs dangling_job) seeded_world)
  = {| statusCode := 201; json := JobCreated 9%nat |}
  /\ fst (handle GET_api_jobs dangling_world)
     = {| statusCode := 500; json := ErrorBody "Failed to fetch jobs" |}.
Proof. vm_compute. split; reflexivity. Qed.

Example first_login_with_a_failing_customer_save :
  let w := snd (handle (POST_auth_github (Some "desivar")) flaky_world) in
  List.length (Pipelines w) = 2%nat
  /\ List.length (Customers w) = 2%nat
  /\ Jobs w = []
  /\ session w = Some 0%nat.
Proof. vm_compute. repeat split; reflexivity. Qed.
